(** * MistralTooling: the tool functions, the dispatcher and the conversation loop

    A shallow embedding of [main.py].  The program is Python: its strings are
    sequences of Unicode code points, its integers are unbounded, its floats
    are IEEE 754 binary64, and every call either returns, raises or does not
    come back.  The embedding keeps those four facts explicit.

    What [main.py] takes from outside itself (the builtin [eval], the clock,
    the Unicode case tables, [json.loads], pydantic's lax coercions, the chat
    service) is gathered in one interface, [Runtime].  General theorems
    quantify over every runtime; [cpython] is a concrete one, covering a
    stated fragment, on which concrete calls are evaluated. *)

From Stdlib Require Import ZArith NArith QArith Qabs List String Ascii Bool Lia.
From Stdlib Require Import SpecFloat DecimalString Qpower Lqa.
Import ListNotations.

Open Scope Z_scope.

(** ** Python strings *)

(** A [str] is a sequence of code points. *)
Definition pystr := list N.

(** The code points of an ASCII literal of this file. *)
Definition py (s : string) : pystr :=
  List.map N_of_ascii (list_ascii_of_string s).

Definition pystr_eqb (a b : pystr) : bool :=
  if list_eq_dec N.eq_dec a b then true else false.

(** [str(n)] for an [int]: decimal digits, a minus sign when negative. *)
Definition str_int (n : Z) : pystr :=
  py (NilZero.string_of_int (Z.to_int n)).

(** ** Exceptions and outcomes *)

(** The exception classes the program can meet.  Python's [except Exception]
    catches every class but those deriving from [BaseException] alone. *)
Inductive exn_class :=
| SyntaxError | ZeroDivisionError | OverflowError | TypeError | ValueError
| NameError | KeyError | ValidationError | JSONDecodeError | OtherException
| SystemExit | KeyboardInterrupt | GeneratorExit.

Definition is_Exception (c : exn_class) : bool :=
  match c with
  | SystemExit | KeyboardInterrupt | GeneratorExit => false
  | _ => true
  end.

(** A raised exception: its class and [str(e)]. *)
Record exn := mk_exn { exn_cls : exn_class; exn_str : pystr }.

(** What a call does: it returns a value, raises, or never comes back. *)
Inductive outcome (A : Type) :=
| Returns (a : A)
| Raises (e : exn)
| Hangs.
Arguments Returns {A} a.
Arguments Raises {A} e.
Arguments Hangs {A}.

Definition bind {A B} (c : outcome A) (k : A -> outcome B) : outcome B :=
  match c with
  | Returns a => k a
  | Raises e => Raises e
  | Hangs => Hangs
  end.

Declare Scope py_scope.
Delimit Scope py_scope with pyd.
Notation "x <- c ;; k" := (bind c (fun x => k))
  (at level 61, c at next level, right associativity) : py_scope.
Open Scope py_scope.

(** [try: body  except Exception as e: handler(e)]. *)
Definition try_except {A} (body : outcome A) (handler : exn -> outcome A)
  : outcome A :=
  match body with
  | Raises e => if is_Exception (exn_cls e) then handler e else Raises e
  | other => other
  end.

(** ** Floats: IEEE 754 binary64 *)

Definition float := spec_float.
Definition prec : Z := 53.
Definition emax : Z := 1024.

Definition float_of_int (n : Z) : float := binary_normalize prec emax n 0 false.
Definition fmul : float -> float -> float := SFmul prec emax.
Definition fadd : float -> float -> float := SFadd prec emax.
Definition fsub : float -> float -> float := SFsub prec emax.
Definition fdiv_ieee : float -> float -> float := SFdiv prec emax.
Definition fneg : float -> float := SFopp.

Definition float_is_zero (x : float) : bool :=
  match x with S754_zero _ => true | _ => false end.

(** The rational number a finite float stands for. *)
Definition float_to_Q (x : float) : option Q :=
  match x with
  | S754_zero _ => Some 0%Q
  | S754_finite s m e =>
      let v := (inject_Z (Zpos m) * Qpower 2 e)%Q in
      Some (if s then Qopp v else v)
  | _ => None
  end.

(** ** Values *)

(** The objects [eval] can hand back, as far as the program looks at them:
    it only ever calls [str] on the result.  [POther] is any other object,
    carried with its [str()]. *)
Inductive pyobj :=
| PNone
| PBool (b : bool)
| PInt (z : Z)
| PFloat (f : float)
| PStr (s : pystr)
| POther (shown : pystr).

Definition is_numeric (v : pyobj) : bool :=
  match v with
  | PBool _ | PInt _ | PFloat _ => true
  | _ => false
  end.

(** What [json.loads] produces. *)
#[warnings="-register-all"]
Inductive json :=
| JNull
| JBool (b : bool)
| JInt (z : Z)
| JFloat (f : float)
| JStr (s : pystr)
| JList (items : list json)
| JDict (items : list (pystr * json)).

(** [d.get(key)] on the items of a dict. *)
Fixpoint dict_get {V} (key : pystr) (d : list (pystr * V)) : option V :=
  match d with
  | [] => None
  | (k, v) :: rest => if pystr_eqb key k then Some v else dict_get key rest
  end.

(** ** Dates: [datetime.date]

    The proleptic Gregorian calendar as CPython's [datetime] computes it: a
    date is a (year, month, day) triple, arithmetic goes through the ordinal
    (day 1 is 0001-01-01), and only years 1 to 9999 exist. *)

Record date := mk_date { year : Z; month : Z; day : Z }.

Definition MINYEAR : Z := 1.
Definition MAXYEAR : Z := 9999.
Definition MAXORDINAL : Z := 3652059.

Definition is_leap (y : Z) : bool :=
  (y mod 4 =? 0) && (negb (y mod 100 =? 0) || (y mod 400 =? 0)).

Definition days_before_year (y : Z) : Z :=
  let y := y - 1 in y * 365 + y / 4 - y / 100 + y / 400.

Definition DAYS_IN_MONTH (m : Z) : Z :=
  match m with
  | 1 => 31 | 2 => 28 | 3 => 31 | 4 => 30 | 5 => 31 | 6 => 30
  | 7 => 31 | 8 => 31 | 9 => 30 | 10 => 31 | 11 => 30 | 12 => 31
  | _ => -1
  end.

Definition DAYS_BEFORE_MONTH (m : Z) : Z :=
  match m with
  | 1 => 0 | 2 => 31 | 3 => 59 | 4 => 90 | 5 => 120 | 6 => 151
  | 7 => 181 | 8 => 212 | 9 => 243 | 10 => 273 | 11 => 304 | 12 => 334
  | _ => -1
  end.

Definition days_in_month (y m : Z) : Z :=
  if (m =? 2) && is_leap y then 29 else DAYS_IN_MONTH m.

Definition days_before_month (y m : Z) : Z :=
  DAYS_BEFORE_MONTH m + (if (2 <? m) && is_leap y then 1 else 0).

Definition ymd2ord (y m d : Z) : Z :=
  days_before_year y + days_before_month y m + d.

Definition DI400Y : Z := 146097.
Definition DI100Y : Z := 36524.
Definition DI4Y : Z := 1461.

(** The tail of CPython's [_ord2ymd]: month and day from the zero-based day
    of the year. *)
Definition doy2md (n : Z) (leapyear : bool) : Z * Z :=
  let m := Z.shiftr (n + 50) 5 in
  let preceding :=
    DAYS_BEFORE_MONTH m + (if (2 <? m) && leapyear then 1 else 0) in
  if n <? preceding then
    let m := m - 1 in
    let preceding :=
      preceding - (DAYS_IN_MONTH m + (if (m =? 2) && leapyear then 1 else 0)) in
    (m, n - preceding + 1)
  else (m, n - preceding + 1).

Definition ord2ymd (n : Z) : date :=
  let n := n - 1 in
  let n400 := n / DI400Y in
  let n := n mod DI400Y in
  let y := n400 * 400 + 1 in
  let n100 := n / DI100Y in
  let n := n mod DI100Y in
  let n4 := n / DI4Y in
  let n := n mod DI4Y in
  let n1 := n / 365 in
  let n := n mod 365 in
  let y := y + n100 * 100 + n4 * 4 + n1 in
  if (n1 =? 4) || (n100 =? 4) then mk_date (y - 1) 12 31
  else
    let leapyear := (n1 =? 3) && (negb (n4 =? 24) || (n100 =? 3)) in
    let '(m, d) := doy2md n leapyear in
    mk_date y m d.

Definition toordinal (d : date) : Z := ymd2ord (year d) (month d) (day d).
Definition fromordinal (n : Z) : date := ord2ymd n.

(** The dates that exist: what the [date] constructor accepts. *)
Definition valid_date (d : date) : bool :=
  (MINYEAR <=? year d) && (year d <=? MAXYEAR)
  && (1 <=? month d) && (month d <=? 12)
  && (1 <=? day d) && (day d <=? days_in_month (year d) (month d)).

(** [timedelta(days=n)]: the magnitude is bounded.  The day count passes
    through a C [int] first, which words the failure of the larger ones. *)
Definition timedelta (days : Z) : outcome Z :=
  if Z.abs days <=? 999999999 then Returns days
  else if (-2147483648 <=? days) && (days <=? 2147483647) then
    Raises (mk_exn OverflowError
      (py "days=" ++ str_int days ++ py "; must have magnitude <= 999999999"))
  else
    Raises (mk_exn OverflowError (py "Python int too large to convert to C int")).

(** [d + timedelta(days)], the [date.__add__] of CPython. *)
Definition date_add (d : date) (delta : Z) : outcome date :=
  let o := toordinal d + delta in
  if (0 <? o) && (o <=? MAXORDINAL) then Returns (fromordinal o)
  else Raises (mk_exn OverflowError (py "date value out of range")).

(** [d - timedelta(days)] is [d + timedelta(-days)]. *)
Definition date_sub_delta (d : date) (delta : Z) : outcome date :=
  date_add d (- delta).

(** [(a - b).days] for two dates. *)
Definition date_diff_days (a b : date) : Z := toordinal a - toordinal b.

(** Decimal digits as code points. *)
Definition digit (k : Z) : N := Z.to_N (48 + k).

Definition digit_val (c : N) : option Z :=
  if (48 <=? c)%N && (c <=? 57)%N then Some (Z.of_N c - 48) else None.

(** [str(d)], the ISO form [YYYY-MM-DD]. *)
Definition isoformat (d : date) : pystr :=
  let y := year d in let m := month d in let dd := day d in
  [digit (y / 1000 mod 10); digit (y / 100 mod 10); digit (y / 10 mod 10);
   digit (y mod 10); 45%N;
   digit (m / 10 mod 10); digit (m mod 10); 45%N;
   digit (dd / 10 mod 10); digit (dd mod 10)].

(** Reading the ISO form back, as pydantic does for a [date] field given a
    string: ten characters, digits around two hyphens, an existing date. *)
Definition date_fromisoformat (s : pystr) : option date :=
  match s with
  | [y1; y2; y3; y4; h1; m1; m2; h2; d1; d2] =>
      match digit_val y1, digit_val y2, digit_val y3, digit_val y4,
            digit_val m1, digit_val m2, digit_val d1, digit_val d2 with
      | Some a, Some b, Some c, Some d, Some e, Some f, Some g, Some h =>
          let r := mk_date (1000 * a + 100 * b + 10 * c + d) (10 * e + f)
                           (10 * g + h) in
          if (h1 =? 45)%N && (h2 =? 45)%N && valid_date r then Some r else None
      | _, _, _, _, _, _, _, _ => None
      end
  | _ => None
  end.

(** A bounded universal check: [P] holds at [n], [n + 1], ... ([fuel] values). *)
Fixpoint all_from (fuel : nat) (n : Z) (P : Z -> bool) : bool :=
  match fuel with
  | O => true
  | S f => P n && all_from f (n + 1) P
  end.


(** ** The transcript *)

(** A tool call of an assistant turn: its identifier, the tool's name and the
    argument payload, an encoded JSON object. *)
Record tool_call := mk_tool_call {
  call_id : pystr;
  function_name : pystr;
  function_arguments : pystr
}.

(** An assistant turn.  [tool_calls] may be absent ([None]) or an empty list;
    Python's [if] takes both for false. *)
Record assistant_message := mk_assistant {
  content : pystr;
  tool_calls : option (list tool_call)
}.

Inductive message :=
| UserMessage (text : pystr)
| AssistantMessage (turn : assistant_message)
| ToolMessage (tool_call_id : pystr) (result : pystr).

(** ** What the program takes from outside

    [eval] is the builtin applied to the expression text; it can return any
    object, raise anything (the text is arbitrary code) or not terminate.
    [lax_*] are pydantic's coercions for values that are not already of the
    field's type; they differ between pydantic versions and are left open.
    [null_is_none] says whether an explicit [null] is taken for a field
    declared with default [None] (pydantic 1) or refused (pydantic 2).
    [validation_error_str] is the text of a [ValidationError].
    [int_max_str_digits] is the interpreter's limit on the digits of an
    [int] turned into text (4300 from CPython 3.11 on, [0] for no limit).
    [str_lower] is [str.lower], which goes by the Unicode character database;
    all that is asked of it is that the empty string stays empty. *)
Class Runtime := {
  eval : pystr -> outcome pyobj;
  today : date;
  str_lower : pystr -> pystr;
  repr_float : float -> pystr;
  json_loads : pystr -> outcome json;
  chat_complete : list message -> outcome assistant_message;
  lax_str : json -> option pystr;
  lax_float : json -> option float;
  lax_int : json -> option Z;
  lax_bool : json -> option bool;
  lax_date : json -> option date;
  null_is_none : bool;
  int_max_str_digits : Z;
  validation_error_str : pystr -> json -> pystr;
  str_lower_empty : str_lower [] = []
}.

(** ** Arithmetic of the unit conversion

    [unit_conversion_tool] multiplies and divides and does nothing else with
    its numbers.  It is embedded over a number type with these operations;
    [binary64] is the one the program runs on. *)
Class Arith (num : Type) := {
  of_int : Z -> num;
  of_decimal : Z -> Z -> num;
  mul : num -> num -> num;
  div : num -> num -> outcome num
}.

(** [of_decimal m k] is the literal [m / 10^k]; Python reads a float literal
    to the nearest binary64, which for these short literals is the correctly
    rounded quotient of two exactly representable integers. *)
#[export] Instance binary64 : Arith float := {
  of_int := float_of_int;
  of_decimal m k := fdiv_ieee (float_of_int m) (float_of_int (10 ^ k));
  mul := fmul;
  div x y :=
    if float_is_zero y
    then Raises (mk_exn ZeroDivisionError (py "float division by zero"))
    else Returns (fdiv_ieee x y)
}.

(** ** Step 1: the input models *)

Record MathInput := mk_MathInput { expression : pystr }.

(** [LengthUnit] and [DateOperation] are [str] enumerations: a member is the
    string it is named after, and the tool functions compare fields with
    string literals.  The fields are kept as strings; validation admits the
    members only. *)
Definition LengthUnit : list pystr :=
  [py "km"; py "m"; py "cm"; py "miles"; py "yards"; py "feet"; py "inches"].

Record UnitConversionInput (num : Type) := mk_UnitConversionInput {
  value : num;
  from_unit : pystr;
  to_unit : pystr
}.
Arguments mk_UnitConversionInput {num} value from_unit to_unit.
Arguments value {num} u.
Arguments from_unit {num} u.
Arguments to_unit {num} u.

Definition DateOperation : list pystr :=
  [py "get_current"; py "add_days"; py "subtract_days"; py "diff_days"].

Record DateInput := mk_DateInput {
  operation : pystr;
  base_date : option date;
  days : option Z;
  second_date : option date
}.

Record TextAnalysisInput := mk_TextAnalysisInput {
  text : pystr;
  character : pystr;
  case_sensitive : bool
}.

Definition member (s : pystr) (l : list pystr) : bool :=
  existsb (pystr_eqb s) l.

Definition float_is_finite (x : float) : bool :=
  match x with S754_zero _ | S754_finite _ _ _ => true | _ => false end.

Section Validation.
Context {RT : Runtime}.

(** Validation of one value against a field's type. *)
Definition field_str (v : json) : option pystr :=
  match v with JStr s => Some s | _ => lax_str v end.

Definition field_float (v : json) : option float :=
  match v with
  | JFloat f => Some f
  | JInt z =>
      if float_is_finite (float_of_int z) then Some (float_of_int z)
      else lax_float v
  | _ => lax_float v
  end.

Definition field_int (v : json) : option Z :=
  match v with JInt z => Some z | _ => lax_int v end.

Definition field_bool (v : json) : option bool :=
  match v with JBool b => Some b | _ => lax_bool v end.

Definition field_date (v : json) : option date :=
  match v with
  | JStr s =>
      match date_fromisoformat s with
      | Some d => Some d
      | None => lax_date v
      end
  | _ => lax_date v
  end.

Definition field_enum (members : list pystr) (v : json) : option pystr :=
  match v with
  | JStr s => if member s members then Some s else None
  | _ => None
  end.

(** [Field(...)]: a required field. *)
Definition required {A} (f : json -> option A) (name : pystr)
    (data : list (pystr * json)) : option A :=
  match dict_get name data with
  | Some v => f v
  | None => None
  end.

(** [Field(default)]: an absent key takes the default. *)
Definition with_default {A} (f : json -> option A) (default : A)
    (name : pystr) (data : list (pystr * json)) : option A :=
  match dict_get name data with
  | Some v => f v
  | None => Some default
  end.

(** [Field(None)] on a field of type [T]. *)
Definition nullable {A} (f : json -> option A) (v : json)
  : option (option A) :=
  match v with
  | JNull => if null_is_none then Some None else option_map Some (f v)
  | _ => option_map Some (f v)
  end.

Definition type_name (v : json) : pystr :=
  match v with
  | JNull => py "NoneType"
  | JBool _ => py "bool"
  | JInt _ => py "int"
  | JFloat _ => py "float"
  | JStr _ => py "str"
  | JList _ => py "list"
  | JDict _ => py "dict"
  end.

(** Unpacking [params] into keyword arguments for the model's constructor:
    it has to be a mapping. *)
Definition keywords (model : pystr) (params : json)
  : outcome (list (pystr * json)) :=
  match params with
  | JDict data => Returns data
  | _ => Raises (mk_exn TypeError
           (py "__main__." ++ model
            ++ py "() argument after ** must be a mapping, not "
            ++ type_name params))
  end.

Definition validated {A} (model : pystr) (params : json) (r : option A)
  : outcome A :=
  match r with
  | Some a => Returns a
  | None =>
      Raises (mk_exn ValidationError (validation_error_str model params))
  end.

Definition new_MathInput (params : json) : outcome MathInput :=
  data <- keywords (py "MathInput") params ;;
  validated (py "MathInput") params
    match required field_str (py "expression") data with
    | Some e => Some (mk_MathInput e)
    | None => None
    end.

Definition new_UnitConversionInput (params : json)
  : outcome (UnitConversionInput float) :=
  data <- keywords (py "UnitConversionInput") params ;;
  validated (py "UnitConversionInput") params
    match required field_float (py "value") data,
          required (field_enum LengthUnit) (py "from_unit") data,
          required (field_enum LengthUnit) (py "to_unit") data with
    | Some v, Some f, Some t => Some (mk_UnitConversionInput v f t)
    | _, _, _ => None
    end.

Definition new_DateInput (params : json) : outcome DateInput :=
  data <- keywords (py "DateInput") params ;;
  validated (py "DateInput") params
    match required (field_enum DateOperation) (py "operation") data,
          with_default (nullable field_date) None (py "base_date") data,
          with_default (nullable field_int) None (py "days") data,
          with_default (nullable field_date) None (py "second_date") data with
    | Some o, Some b, Some n, Some s => Some (mk_DateInput o b n s)
    | _, _, _, _ => None
    end.

Definition new_TextAnalysisInput (params : json) : outcome TextAnalysisInput :=
  data <- keywords (py "TextAnalysisInput") params ;;
  validated (py "TextAnalysisInput") params
    match required field_str (py "text") data,
          required field_str (py "character") data,
          with_default field_bool false (py "case_sensitive") data with
    | Some t, Some c, Some b => Some (mk_TextAnalysisInput t c b)
    | _, _, _ => None
    end.
End Validation.

(** ** Step 2: the tool functions *)

(** [str.count]: occurrences found scanning left to right, the scan resuming
    after the end of each one; the empty string occurs between any two
    characters and at both ends. *)
Fixpoint is_prefix (p s : pystr) : bool :=
  match p, s with
  | [], _ => true
  | a :: p', b :: s' => (a =? b)%N && is_prefix p' s'
  | _ :: _, [] => false
  end.

Fixpoint count_scan (sub s : pystr) (skip : nat) : nat :=
  match s with
  | [] => O
  | _ :: s' =>
      match skip with
      | S k => count_scan sub s' k
      | O =>
          if is_prefix sub s
          then S (count_scan sub s' (List.length sub - 1))
          else count_scan sub s' O
      end
  end.

Definition str_count (s sub : pystr) : Z :=
  match sub with
  | [] => Z.of_nat (List.length s) + 1
  | _ => Z.of_nat (count_scan sub s O)
  end.

(** [d[key]]; a [KeyError] shows the key between quotes. *)
Definition dict_item {V} (d : list (pystr * V)) (key : pystr) : outcome V :=
  match dict_get key d with
  | Some v => Returns v
  | None => Raises (mk_exn KeyError (py "'" ++ key ++ py "'"))
  end.

Definition dict_mem {V} (key : pystr) (d : list (pystr * V)) : bool :=
  match dict_get key d with Some _ => true | None => false end.

Section UnitConversion.
Context {num : Type} {A : Arith num}.

(** Conversion factors to meters (base unit). *)
Definition conversion_to_m : list (pystr * num) :=
  [ (py "km", of_int 1000);
    (py "m", of_int 1);
    (py "cm", of_decimal 1 2);
    (py "miles", of_decimal 160934 2);
    (py "yards", of_decimal 9144 4);
    (py "feet", of_decimal 3048 4);
    (py "inches", of_decimal 254 4) ].

Definition unit_conversion_tool (input : UnitConversionInput num)
  : outcome num :=
  if negb (dict_mem (from_unit input) conversion_to_m)
     || negb (dict_mem (to_unit input) conversion_to_m)
  then Raises (mk_exn ValueError (py "Invalid unit specified"))
  else
    from_factor <- dict_item conversion_to_m (from_unit input) ;;
    let value_in_m := mul (value input) from_factor in
    to_factor <- dict_item conversion_to_m (to_unit input) ;;
    converted_value <- div value_in_m to_factor ;;
    Returns converted_value.
End UnitConversion.

Section Tools.
Context {RT : Runtime}.

Definition math_tool (input : MathInput) : outcome pyobj :=
  try_except
    (result <- eval (expression input) ;;
     Returns result)
    (fun e =>
       Raises (mk_exn ValueError (py "Invalid expression: " ++ exn_str e))).

Definition date_tool (input : DateInput) : outcome pystr :=
  if pystr_eqb (operation input) (py "get_current") then
    Returns (isoformat today)
  else if pystr_eqb (operation input) (py "add_days") then
    match base_date input, days input with
    | Some base, Some n =>
        delta <- timedelta n ;;
        new_date <- date_add base delta ;;
        Returns (isoformat new_date)
    | _, _ =>
        Raises (mk_exn ValueError
                  (py "base_date and days are required for add_days"))
    end
  else if pystr_eqb (operation input) (py "subtract_days") then
    match base_date input, days input with
    | Some base, Some n =>
        delta <- timedelta n ;;
        new_date <- date_sub_delta base delta ;;
        Returns (isoformat new_date)
    | _, _ =>
        Raises (mk_exn ValueError
                  (py "base_date and days are required for subtract_days"))
    end
  else if pystr_eqb (operation input) (py "diff_days") then
    match base_date input, second_date input with
    | Some base, Some second =>
        let diff := date_diff_days second base in
        Returns (str_int diff)
    | _, _ =>
        Raises (mk_exn ValueError
                  (py "base_date and second_date are required for diff_days"))
    end
  else Raises (mk_exn ValueError (py "Invalid date operation")).

Definition text_analysis_tool (input : TextAnalysisInput) : pystr :=
  let text' :=
    if case_sensitive input then text input else str_lower (text input) in
  let character' :=
    if case_sensitive input then character input
    else str_lower (character input) in
  let count := str_count text' character' in
  py "The character '" ++ character input ++ py "' appears "
  ++ str_int count ++ py " times in '" ++ text input ++ py "'".

(** ** Step 3: the tool specifications

    The names under which the four tools are offered to the model; the
    parameter schemas are left out. *)
Definition tools : list pystr :=
  [py "math"; py "unit_conversion"; py "date_tool"; py "text_analysis"].

(** [str(n)] for an [int] of any size: refused beyond the digit limit.  The
    day differences and the counts the other tools print stay far below any
    limit the interpreter accepts (640 digits at least). *)
Definition str_of_int (n : Z) : outcome pystr :=
  if (0 <? int_max_str_digits) && (10 ^ int_max_str_digits <=? Z.abs n)
  then Raises (mk_exn ValueError
         (py "Exceeds the limit (" ++ str_int int_max_str_digits
          ++ py " digits) for integer string conversion; "
          ++ py "use sys.set_int_max_str_digits() to increase the limit"))
  else Returns (str_int n).

(** [str(obj)]. *)
Definition str_obj (v : pyobj) : outcome pystr :=
  match v with
  | PNone => Returns (py "None")
  | PBool true => Returns (py "True")
  | PBool false => Returns (py "False")
  | PInt z => str_of_int z
  | PFloat f => Returns (repr_float f)
  | PStr s => Returns s
  | POther shown => Returns shown
  end.

(** ** Step 5: the dispatcher *)

(** The body of the [try] of [call_tool]. *)
Definition call_tool_body (tool_name : pystr) (params : json)
  : outcome pystr :=
  if pystr_eqb tool_name (py "math") then
    input_model <- new_MathInput params ;;
    result <- math_tool input_model ;;
    str_obj result
  else if pystr_eqb tool_name (py "unit_conversion") then
    input_model <- new_UnitConversionInput params ;;
    result <- unit_conversion_tool input_model ;;
    Returns (repr_float result)
  else if pystr_eqb tool_name (py "date_tool") then
    input_model <- new_DateInput params ;;
    date_tool input_model
  else if pystr_eqb tool_name (py "text_analysis") then
    input_model <- new_TextAnalysisInput params ;;
    Returns (text_analysis_tool input_model)
  else Raises (mk_exn ValueError (py "Unknown tool: " ++ tool_name)).

Definition call_tool (tool_name : pystr) (params : json) : outcome pystr :=
  try_except (call_tool_body tool_name params)
    (fun e => Returns (py "Error: " ++ exn_str e)).

(** ** Step 6: the conversation loop *)

(** The [for] loop over the tool calls of one turn.  [messages] is the list
    the loop appends to. *)
Fixpoint handle_tool_calls (calls : list tool_call) (messages : list message)
  : outcome (list message) :=
  match calls with
  | [] => Returns messages
  | tool_call :: rest =>
      let tool_name := function_name tool_call in
      params <- json_loads (function_arguments tool_call) ;;
      result <- call_tool tool_name params ;;
      handle_tool_calls rest
        (messages ++ [ToolMessage (call_id tool_call) result])
  end.

(** The calls a turn is taken to carry: [if assistant_message.tool_calls]. *)
Definition requested (turn : assistant_message) : list tool_call :=
  match tool_calls turn with
  | Some calls => calls
  | None => []
  end.

(** One pass through the body of [while True]: the transcript it leaves,
    and whether the loop goes on. *)
Inductive round_result :=
| Continue (messages : list message)
| Break (messages : list message)
| Abort (e : exn)
| Stuck.

Definition conversation_round (messages : list message) : round_result :=
  match chat_complete messages with
  | Returns assistant_message =>
      let messages := messages ++ [AssistantMessage assistant_message] in
      match requested assistant_message with
      | [] => Break messages
      | calls =>
          match handle_tool_calls calls messages with
          | Returns messages => Continue messages
          | Raises e => Abort e
          | Hangs => Stuck
          end
      end
  | Raises e => Abort e
  | Hangs => Stuck
  end.

(** [while True], run for at most [fuel] rounds; [None] when the fuel runs
    out before the loop ends. *)
Fixpoint conversation_loop (fuel : nat) (messages : list message)
  : option (outcome (list message)) :=
  match fuel with
  | O => None
  | S fuel' =>
      match conversation_round messages with
      | Continue messages => conversation_loop fuel' messages
      | Break messages => Some (Returns messages)
      | Abort e => Some (Raises e)
      | Stuck => Some Hangs
      end
  end.

(** [handle_conversation]: the transcript when the loop ends.  The function
    itself returns nothing and prints as it goes; the prints are left out. *)
Definition handle_conversation (fuel : nat) (user_query : pystr)
  : option (outcome (list message)) :=
  conversation_loop fuel [UserMessage user_query].
End Tools.

(** * A concrete runtime

    ** The expression language

    [eval] runs arbitrary Python.  This section gives the builtin a meaning on
    a fragment of the expression language, and says nothing ([None]) outside:
    decimal integer literals, plain quoted strings, the operators
    [+ - * /] with unary signs and parentheses, and the call [exit()] (or
    [quit()]) of the interpreter's [site] module.  CPython bounds what it
    parses (200 nested parentheses, some 3000 nested nodes, and from 3.11 on
    4300 digits per literal); the fragment stays inside: at most 1000 code
    points and 100 open parentheses. *)

(** The verdict of the lexer and the parser: the text is in the fragment and
    analysed, it is a syntax error in Python, or it is beyond the fragment. *)
Inductive parsed (A : Type) :=
| Ok (a : A)
| Bad
| Beyond.
Arguments Ok {A} a.
Arguments Bad {A}.
Arguments Beyond {A}.

Inductive token :=
| TInt (n : Z)
| TStr (s : pystr)
| TQuit
| TPlus | TMinus | TStar | TSlash | TLParen | TRParen.

Definition is_space (c : N) : bool := ((c =? 32) || (c =? 9) || (c =? 12))%N.
Definition is_digit (c : N) : bool := ((48 <=? c) && (c <=? 57))%N.
Definition is_letter (c : N) : bool :=
  (((65 <=? c) && (c <=? 90)) || ((97 <=? c) && (c <=? 122)) || (c =? 95))%N.
Definition is_quote (c : N) : bool := ((c =? 39) || (c =? 34))%N.

Definition operator (c : N) : option token :=
  match c with
  | 43%N => Some TPlus
  | 45%N => Some TMinus
  | 42%N => Some TStar
  | 47%N => Some TSlash
  | 40%N => Some TLParen
  | 41%N => Some TRParen
  | _ => None
  end.

Inductive lex_state :=
| Idle
| InNumber (lead0 : bool) (v : Z)
| InString (quote : N) (acc : pystr)
| InName (acc : pystr).

Definition emit (t : token) (rest : parsed (list token))
  : parsed (list token) :=
  match rest with
  | Ok ts => Ok (t :: ts)
  | Bad => Bad
  | Beyond => Beyond
  end.

(** A literal with a leading zero has to be zero. *)
Definition number_token (lead0 : bool) (v : Z) (rest : parsed (list token))
  : parsed (list token) :=
  if lead0 && negb (v =? 0) then Bad else emit (TInt v) rest.

(** The only names of the fragment are [exit] and [quit]. *)
Definition name_token (acc : pystr) (rest : parsed (list token))
  : parsed (list token) :=
  let name := rev acc in
  if pystr_eqb name (py "exit") || pystr_eqb name (py "quit")
  then emit TQuit rest else Beyond.

Definition starts_with (c : N) (s : pystr) : bool :=
  match s with
  | c' :: _ => (c =? c')%N
  | [] => false
  end.

Fixpoint lex_run (st : lex_state) (s : pystr) : parsed (list token) :=
  let idle c s' :=
    if is_space c then lex_run Idle s'
    else if is_digit c then lex_run (InNumber (c =? 48)%N (Z.of_N c - 48)) s'
    else if is_quote c then lex_run (InString c []) s'
    else if is_letter c then lex_run (InName [c]) s'
    else match operator c with
         | Some t =>
             if ((c =? 42) || (c =? 47))%N && starts_with c s' then Beyond
             else emit t (lex_run Idle s')
         | None => Beyond
         end in
  match s with
  | [] =>
      match st with
      | Idle => Ok []
      | InNumber lead0 v => number_token lead0 v (Ok [])
      | InString _ _ => Bad
      | InName acc => name_token acc (Ok [])
      end
  | c :: s' =>
      match st with
      | Idle => idle c s'
      | InNumber lead0 v =>
          if is_digit c then lex_run (InNumber lead0 (10 * v + (Z.of_N c - 48))) s'
          else if is_letter c || (c =? 46)%N then Beyond
          else number_token lead0 v (idle c s')
      | InString q acc =>
          if (c =? q)%N then
            match acc with
            | [] => if starts_with q s' then Beyond
                    else emit (TStr []) (lex_run Idle s')
            | _ => emit (TStr (rev acc)) (lex_run Idle s')
            end
          else if ((c =? 92) || (c =? 10) || (c =? 13))%N then Beyond
          else lex_run (InString q (c :: acc)) s'
      | InName acc =>
          if is_letter c || is_digit c then lex_run (InName (c :: acc)) s'
          else if is_quote c then Beyond
          else name_token acc (idle c s')
      end
  end.

(** The deepest nesting of parentheses in a token list. *)
Fixpoint nesting (depth : Z) (ts : list token) : Z :=
  match ts with
  | [] => depth
  | TLParen :: r => Z.max (depth + 1) (nesting (depth + 1) r)
  | TRParen :: r => Z.max depth (nesting (depth - 1) r)
  | _ :: r => Z.max depth (nesting depth r)
  end.

Definition lex (s : pystr) : parsed (list token) :=
  if (1000 <? List.length s)%nat then Beyond
  else match lex_run Idle s with
       | Ok ts => if nesting 0 ts <=? 100 then Ok ts else Beyond
       | Bad => Bad
       | Beyond => Beyond
       end.

Inductive binop := Add | Sub | Mul | Div.

Inductive expr :=
| EInt (n : Z)
| EStr (s : pystr)
| EQuit
| EPos (e : expr)
| ENeg (e : expr)
| EBin (op : binop) (l r : expr).

(** After an atom: an opening parenthesis would make it a call. *)
Definition atom_end (e : expr) (r : list token) : parsed (expr * list token) :=
  match r with
  | TLParen :: _ => Beyond
  | _ => Ok (e, r)
  end.

(** Recursive descent along Python's grammar: a sum of terms, a term of
    factors, a factor a signed factor or an atom.  Each call spends one unit
    of [fuel]; [3 * length ts + 3] is enough for [ts]. *)
Fixpoint parse_sum (fuel : nat) (ts : list token) {struct fuel}
  : parsed (expr * list token) :=
  match fuel with
  | O => Beyond
  | S f =>
      match parse_term f ts with
      | Ok (e, r) => sum_loop f e r
      | Bad => Bad
      | Beyond => Beyond
      end
  end
with sum_loop (fuel : nat) (acc : expr) (ts : list token) {struct fuel}
  : parsed (expr * list token) :=
  match fuel with
  | O => Beyond
  | S f =>
      match ts with
      | TPlus :: r =>
          match parse_term f r with
          | Ok (e, r') => sum_loop f (EBin Add acc e) r'
          | Bad => Bad
          | Beyond => Beyond
          end
      | TMinus :: r =>
          match parse_term f r with
          | Ok (e, r') => sum_loop f (EBin Sub acc e) r'
          | Bad => Bad
          | Beyond => Beyond
          end
      | _ => Ok (acc, ts)
      end
  end
with parse_term (fuel : nat) (ts : list token) {struct fuel}
  : parsed (expr * list token) :=
  match fuel with
  | O => Beyond
  | S f =>
      match parse_factor f ts with
      | Ok (e, r) => term_loop f e r
      | Bad => Bad
      | Beyond => Beyond
      end
  end
with term_loop (fuel : nat) (acc : expr) (ts : list token) {struct fuel}
  : parsed (expr * list token) :=
  match fuel with
  | O => Beyond
  | S f =>
      match ts with
      | TStar :: r =>
          match parse_factor f r with
          | Ok (e, r') => term_loop f (EBin Mul acc e) r'
          | Bad => Bad
          | Beyond => Beyond
          end
      | TSlash :: r =>
          match parse_factor f r with
          | Ok (e, r') => term_loop f (EBin Div acc e) r'
          | Bad => Bad
          | Beyond => Beyond
          end
      | _ => Ok (acc, ts)
      end
  end
with parse_factor (fuel : nat) (ts : list token) {struct fuel}
  : parsed (expr * list token) :=
  match fuel with
  | O => Beyond
  | S f =>
      match ts with
      | TPlus :: r =>
          match parse_factor f r with
          | Ok (e, r') => Ok (EPos e, r')
          | Bad => Bad
          | Beyond => Beyond
          end
      | TMinus :: r =>
          match parse_factor f r with
          | Ok (e, r') => Ok (ENeg e, r')
          | Bad => Bad
          | Beyond => Beyond
          end
      | TInt n :: r => atom_end (EInt n) r
      | TStr s :: r =>
          match r with
          | TStr _ :: _ => Beyond
          | _ => atom_end (EStr s) r
          end
      | TQuit :: TLParen :: TRParen :: r => atom_end EQuit r
      | TQuit :: _ => Beyond
      | TLParen :: TRParen :: _ => Beyond
      | TLParen :: r =>
          match parse_sum f r with
          | Ok (e, TRParen :: r') => atom_end e r'
          | Ok (_, _) => Bad
          | Bad => Bad
          | Beyond => Beyond
          end
      | _ => Bad
      end
  end.

Definition parse (ts : list token) : parsed expr :=
  match parse_sum (3 * List.length ts + 3) ts with
  | Ok (e, []) => Ok e
  | Ok (_, _ :: _) => Bad
  | Bad => Bad
  | Beyond => Beyond
  end.

(** An [int] as a float operand of a division: CPython divides the integers
    themselves and rounds once, so no rounding happens here. *)
Definition unrounded (z : Z) : float :=
  match z with
  | 0 => S754_zero false
  | Zpos p => S754_finite false p 0
  | Zneg p => S754_finite true p 0
  end.

(** [a / b] on two [int]s: the quotient rounded to the nearest float. *)
Definition int_true_divide (a b : Z) : outcome pyobj :=
  if b =? 0 then Raises (mk_exn ZeroDivisionError (py "division by zero"))
  else
    let q := fdiv_ieee (unrounded a) (unrounded b) in
    if float_is_finite q then Returns (PFloat q)
    else Raises (mk_exn OverflowError
                   (py "integer division result too large for a float")).

(** [float(n)] for an [int] operand meeting a float. *)
Definition int_to_float (n : Z) : outcome float :=
  let x := float_of_int n in
  if float_is_finite x then Returns x
  else Raises (mk_exn OverflowError (py "int too large to convert to float")).

Definition float_binop (op : binop) (x y : float) : outcome pyobj :=
  match op with
  | Add => Returns (PFloat (fadd x y))
  | Sub => Returns (PFloat (fsub x y))
  | Mul => Returns (PFloat (fmul x y))
  | Div =>
      if float_is_zero y
      then Raises (mk_exn ZeroDivisionError (py "float division by zero"))
      else Returns (PFloat (fdiv_ieee x y))
  end.

(** A binary operator on two values; [None] where the fragment stops (an
    operand that is not a number). *)
Definition binary (op : binop) (a b : pyobj) : option (outcome pyobj) :=
  match a, b with
  | PInt m, PInt n =>
      Some match op with
           | Add => Returns (PInt (m + n))
           | Sub => Returns (PInt (m - n))
           | Mul => Returns (PInt (m * n))
           | Div => int_true_divide m n
           end
  | PFloat x, PFloat y => Some (float_binop op x y)
  | PFloat x, PInt n => Some (y <- int_to_float n ;; float_binop op x y)
  | PInt m, PFloat y => Some (x <- int_to_float m ;; float_binop op x y)
  | _, _ => None
  end.

Definition unary (negative : bool) (a : pyobj) : option (outcome pyobj) :=
  match a with
  | PInt m => Some (Returns (PInt (if negative then - m else m)))
  | PFloat x => Some (Returns (PFloat (if negative then fneg x else x)))
  | _ => None
  end.

(** Evaluation, operands left to right. *)
Fixpoint eval_expr (e : expr) : option (outcome pyobj) :=
  match e with
  | EInt n => Some (Returns (PInt n))
  | EStr s => Some (Returns (PStr s))
  | EQuit => Some (Raises (mk_exn SystemExit (py "None")))
  | EPos e1 =>
      match eval_expr e1 with
      | Some (Returns a) => unary false a
      | other => other
      end
  | ENeg e1 =>
      match eval_expr e1 with
      | Some (Returns a) => unary true a
      | other => other
      end
  | EBin op l r =>
      match eval_expr l with
      | Some (Returns a) =>
          match eval_expr r with
          | Some (Returns b) => binary op a b
          | other => other
          end
      | other => other
      end
  end.

(** [eval] on the fragment: the texts that read as an expression.  A text
    with a syntax error makes [eval] raise a [SyntaxError] that CPython
    words case by case; those texts are left outside the fragment. *)
Definition fragment_eval (source : pystr) : option (outcome pyobj) :=
  match lex source with
  | Ok ts =>
      match parse ts with
      | Ok e => eval_expr e
      | _ => None
      end
  | _ => None
  end.

(** ** Decoding JSON

    [json.loads] on a fragment of JSON: objects, strings without escapes,
    integers, [true], [false] and [null], with blanks between them, in a text
    of at most 1000 code points.  Arrays, fractions, exponents, escapes and
    the non-standard [NaN] and [Infinity] are beyond the fragment.  A
    malformed text is refused with CPython 3.11's words and the place of the
    first offending character. *)

Inductive decoded (A : Type) :=
| Decoded (a : A)
| Malformed (what : pystr) (pos : Z)
| Unread.
Arguments Decoded {A} a.
Arguments Malformed {A} what pos.
Arguments Unread {A}.

Definition is_json_space (c : N) : bool :=
  ((c =? 32) || (c =? 9) || (c =? 10) || (c =? 13))%N.

(** Skipping blanks: the position reached and the text from there. *)
Fixpoint skip_ws (pos : Z) (s : pystr) : Z * pystr :=
  match s with
  | c :: s' => if is_json_space c then skip_ws (pos + 1) s' else (pos, s)
  | [] => (pos, [])
  end.

(** The characters of a string that opened at [start]; [pos] is the place of
    the next character. *)
Fixpoint json_string (start : Z) (acc : pystr) (pos : Z) (s : pystr)
  : decoded (pystr * Z * pystr) :=
  match s with
  | [] => Malformed (py "Unterminated string starting at") start
  | c :: s' =>
      if (c =? 34)%N then Decoded (rev acc, pos + 1, s')
      else if (c =? 92)%N then Unread
      else if (c <? 32)%N then Malformed (py "Invalid control character at") pos
      else json_string start (c :: acc) (pos + 1) s'
  end.

Fixpoint json_digits (v : Z) (pos : Z) (s : pystr) : Z * Z * pystr :=
  match s with
  | c :: s' => if is_digit c
               then json_digits (10 * v + (Z.of_N c - 48)) (pos + 1) s'
               else (v, pos, s)
  | [] => (v, pos, [])
  end.

(** An integer whose digits start at [pos]; [first] is where the number
    itself starts, sign included.  A fraction or an exponent behind it would
    make it a float. *)
Definition json_int (negative : bool) (first pos : Z) (s : pystr)
  : decoded (json * Z * pystr) :=
  match s with
  | c :: s' =>
      if is_digit c then
        let '(v, p, r) :=
          if (c =? 48)%N then (0, pos + 1, s') else json_digits 0 pos s in
        if starts_with 46 r || starts_with 101 r || starts_with 69 r
        then Unread
        else Decoded (JInt (if negative then - v else v), p, r)
      else if (c =? 73)%N then Unread
      else Malformed (py "Expecting value") first
  | [] => Malformed (py "Expecting value") first
  end.

Fixpoint literal (word : pystr) (s : pystr) : option pystr :=
  match word, s with
  | [], _ => Some s
  | w :: word', c :: s' => if (w =? c)%N then literal word' s' else None
  | _ :: _, [] => None
  end.

(** Assignment in a dict under construction: a repeated key keeps its place
    and takes the new value. *)
Fixpoint dict_set {V} (key : pystr) (v : V) (d : list (pystr * V))
  : list (pystr * V) :=
  match d with
  | [] => [(key, v)]
  | (k, v') :: rest =>
      if pystr_eqb key k then (k, v) :: rest
      else (k, v') :: dict_set key v rest
  end.

(** A value starting at [pos], no blank before it. *)
Fixpoint json_value (fuel : nat) (pos : Z) (s : pystr) {struct fuel}
  : decoded (json * Z * pystr) :=
  match fuel with
  | O => Unread
  | S f =>
      match s with
      | [] => Malformed (py "Expecting value") pos
      | c :: r =>
          if (c =? 123)%N then
            match skip_ws (pos + 1) r with
            | (p, 125%N :: r') => Decoded (JDict [], p + 1, r')
            | (p, r') => json_members f [] p r'
            end
          else if (c =? 34)%N then
            match json_string pos [] (pos + 1) r with
            | Decoded (str, p, r') => Decoded (JStr str, p, r')
            | Malformed what p => Malformed what p
            | Unread => Unread
            end
          else if (c =? 45)%N then json_int true pos (pos + 1) r
          else if is_digit c then json_int false pos pos s
          else if (c =? 116)%N then
            match literal (py "rue") r with
            | Some r' => Decoded (JBool true, pos + 4, r')
            | None => Malformed (py "Expecting value") pos
            end
          else if (c =? 102)%N then
            match literal (py "alse") r with
            | Some r' => Decoded (JBool false, pos + 5, r')
            | None => Malformed (py "Expecting value") pos
            end
          else if (c =? 110)%N then
            match literal (py "ull") r with
            | Some r' => Decoded (JNull, pos + 4, r')
            | None => Malformed (py "Expecting value") pos
            end
          else if ((c =? 91) || (c =? 78) || (c =? 73))%N then Unread
          else Malformed (py "Expecting value") pos
      end
  end
with json_members (fuel : nat) (acc : list (pystr * json)) (pos : Z)
  (s : pystr) {struct fuel} : decoded (json * Z * pystr) :=
  match fuel with
  | O => Unread
  | S f =>
      match s with
      | 34%N :: r =>
          match json_string pos [] (pos + 1) r with
          | Decoded (key, p1, r1) =>
              match skip_ws p1 r1 with
              | (p2, 58%N :: r2) =>
                  let '(p3, r3) := skip_ws (p2 + 1) r2 in
                  match json_value f p3 r3 with
                  | Decoded (v, p4, r4) =>
                      match skip_ws p4 r4 with
                      | (p5, 44%N :: r5) =>
                          let '(p6, r6) := skip_ws (p5 + 1) r5 in
                          json_members f (dict_set key v acc) p6 r6
                      | (p5, 125%N :: r5) =>
                          Decoded (JDict (dict_set key v acc), p5 + 1, r5)
                      | (p5, _) => Malformed (py "Expecting ',' delimiter") p5
                      end
                  | Malformed what p => Malformed what p
                  | Unread => Unread
                  end
              | (p2, _) => Malformed (py "Expecting ':' delimiter") p2
              end
          | Malformed what p => Malformed what p
          | Unread => Unread
          end
      | _ =>
          Malformed
            (py "Expecting property name enclosed in double quotes") pos
      end
  end.

(** Line and column of a position, both counted from 1. *)
Fixpoint line_column (line column : Z) (n : nat) (s : pystr) : Z * Z :=
  match n, s with
  | S n', c :: s' =>
      if (c =? 10)%N then line_column (line + 1) 1 n' s'
      else line_column line (column + 1) n' s'
  | _, _ => (line, column)
  end.

Definition JSONDecodeError_at (what : pystr) (doc : pystr) (pos : Z) : exn :=
  let '(line, column) := line_column 1 1 (Z.to_nat pos) doc in
  mk_exn JSONDecodeError
    (what ++ py ": line " ++ str_int line ++ py " column " ++ str_int column
     ++ py " (char " ++ str_int pos ++ py ")").

Definition fragment_json_loads (s : pystr) : option (outcome json) :=
  if (1000 <? List.length s)%nat then None
  else
    let '(start, body) := skip_ws 0 s in
    match json_value (S (List.length s)) start body with
    | Decoded (v, p, r) =>
        match skip_ws p r with
        | (_, []) => Some (Returns v)
        | (p', _ :: _) => Some (Raises (JSONDecodeError_at (py "Extra data") s p'))
        end
    | Malformed what p => Some (Raises (JSONDecodeError_at what s p))
    | Unread => None
    end.

(** A string between double quotes, for writing payloads. *)
Definition quoted (s : pystr) : pystr := 34%N :: s ++ [34%N].

(** ** The text of a float

    [repr] of a float is the shortest decimal that reads back as the same
    float, the closest to it among the shortest; it is written in positional
    notation when the decimal point falls within the digits or near them, in
    scientific notation otherwise. *)

Definition pow10 (k : Z) : Z := 10 ^ k.

(** Reading the decimal [c * 10^k], rounded to the nearest float. *)
Definition read_decimal (c k : Z) : float :=
  if 0 <=? k then binary_normalize prec emax (c * pow10 k) 0 false
  else fdiv_ieee (unrounded c) (unrounded (pow10 (- k))).

(** [num / den < 10^n]. *)
Definition below_pow10 (num den n : Z) : bool :=
  if 0 <=? n then num <? den * pow10 n else num * pow10 (- n) <? den.

(** The position of the decimal point: the least [n] with
    [num / den < 10^n], searched upwards from an underestimate. *)
Fixpoint decimal_point (fuel : nat) (num den n : Z) : Z :=
  match fuel with
  | O => n
  | S f => if below_pow10 num den n then n
           else decimal_point f num den (n + 1)
  end.

Definition float_same (x y : float) : bool :=
  match SFcompare x y with Some Eq => true | _ => false end.

(** The digits of [num / den] at precision [p], when a [p]-digit decimal
    reads back as [x]: the integer [c] with [c * 10^(n - p)] that decimal. *)
Definition digits_at (x : float) (num den n p : Z) : option Z :=
  let k := n - p in
  let tn := if 0 <=? k then num else num * pow10 (- k) in
  let td := if 0 <=? k then den * pow10 k else den in
  let lo := tn / td in
  let rem := tn mod td in
  let hi := lo + 1 in
  let lo_ok := float_same (read_decimal lo k) x in
  let hi_ok := float_same (read_decimal hi k) x in
  if lo_ok && hi_ok then
    match 2 * rem ?= td with
    | Lt => Some lo
    | Gt => Some hi
    | Eq => Some (if Z.even lo then lo else hi)
    end
  else if lo_ok then Some lo
  else if hi_ok then Some hi
  else None.

Fixpoint shortest (fuel : nat) (x : float) (num den n p : Z) : Z * Z :=
  match fuel with
  | O => (0, p)
  | S f =>
      match digits_at x num den n p with
      | Some c => (c, p)
      | None => shortest f x num den n (p + 1)
      end
  end.

Fixpoint strip_zeros (fuel : nat) (c k : Z) : Z * Z :=
  match fuel with
  | O => (c, k)
  | S f => if (c mod 10 =? 0) && negb (c =? 0) then strip_zeros f (c / 10) (k + 1)
           else (c, k)
  end.

Definition zeros (n : Z) : pystr := repeat 48%N (Z.to_nat n).

(** The layout of [digits] with the decimal point after the first [point]
    of them. *)
Definition layout (digits : pystr) (point : Z) : pystr :=
  let k := Z.of_nat (List.length digits) in
  if (-4 <? point) && (point <=? 16) then
    if point <=? 0 then py "0." ++ zeros (- point) ++ digits
    else if k <=? point then digits ++ zeros (point - k) ++ py ".0"
    else firstn (Z.to_nat point) digits ++ py "." ++ skipn (Z.to_nat point) digits
  else
    let e := point - 1 in
    firstn 1 digits
    ++ (match skipn 1 digits with [] => [] | more => py "." ++ more end)
    ++ py "e" ++ (if e <? 0 then py "-" else py "+")
    ++ (if Z.abs e <? 10 then py "0" else []) ++ str_int (Z.abs e).

Definition float_repr (x : float) : pystr :=
  match x with
  | S754_nan => py "nan"
  | S754_infinity s => if s then py "-inf" else py "inf"
  | S754_zero s => if s then py "-0.0" else py "0.0"
  | S754_finite s m e =>
      let num := if 0 <=? e then Zpos m * 2 ^ e else Zpos m in
      let den := if 0 <=? e then 1 else 2 ^ (- e) in
      let guess := (Z.log2 num - Z.log2 den) * 30103 / 100000 - 2 in
      let n := decimal_point 10 num den guess in
      let '(c, p) := shortest 17 (S754_finite false m e) num den n 1 in
      let '(c', k) := strip_zeros 17 c (n - p) in
      let digits := str_int c' in
      (if s then py "-" else []) ++ layout digits (Z.of_nat (List.length digits) + k)
  end.

(** ** Lower case

    [str.lower] on the code points below U+0100 and on U+0130, the capital I
    with a dot, whose lower case is two code points.  Other code points are
    left as they are, which is what Python does for the uncased ones only:
    [lower_covered] tells the texts this table is right for. *)
Definition lower_code_point (c : N) : pystr :=
  if ((65 <=? c) && (c <=? 90))%N then [(c + 32)%N]
  else if ((192 <=? c) && (c <=? 222) && negb (c =? 215))%N then [(c + 32)%N]
  else if (c =? 304)%N then [105%N; 775%N]
  else [c].

Definition lower (s : pystr) : pystr := flat_map lower_code_point s.

Definition lower_covered (s : pystr) : bool :=
  forallb (fun c => (c <? 256) || (c =? 304))%N s.

(** ** The runtime

    CPython 3.11 with pydantic 2, on the fragments above.  The clock and the
    chat service are the environment's.  Outside the fragments [eval] and
    [json.loads] are made to raise an error that Python would not raise:
    statements made with this runtime keep to texts inside, as
    [eval_covered] and [json_covered] tell.  Pydantic's lax coercions (it
    turns the string "10" into the float 10.0, for one) are not modelled:
    this runtime refuses every value that is not already of its field's
    type, and its validation report is cut down to its subject.  Statements
    made with it keep to arguments that need no coercion and do not depend
    on the text of the report. *)
Definition beyond_fragment : exn :=
  mk_exn OtherException (py "beyond the fragment").

Definition eval_covered (source : pystr) : bool :=
  match fragment_eval source with Some _ => true | None => false end.

Definition json_covered (payload : pystr) : bool :=
  match fragment_json_loads payload with Some _ => true | None => false end.

Definition cpython (clock : date)
    (service : list message -> outcome assistant_message) : Runtime := {|
  eval source :=
    match fragment_eval source with Some r => r | None => Raises beyond_fragment end;
  today := clock;
  str_lower := lower;
  repr_float := float_repr;
  json_loads payload :=
    match fragment_json_loads payload with
    | Some r => r
    | None => Raises beyond_fragment
    end;
  chat_complete := service;
  lax_str _ := None;
  lax_float _ := None;
  lax_int _ := None;
  lax_bool _ := None;
  lax_date _ := None;
  null_is_none := false;
  int_max_str_digits := 4300;
  validation_error_str model _ := py "validation error for " ++ model;
  str_lower_empty := eq_refl
|}.

(** A service that answers in words at once. *)
Definition plain_service (messages : list message) : outcome assistant_message :=
  Returns (mk_assistant (py "Hello!") None).

(** A service whose first turn asks for [tool] with [payload], and which
    answers in words once the transcript holds a tool result. *)
Definition asking_service (tool payload : pystr) (messages : list message)
  : outcome assistant_message :=
  if existsb (fun m => match m with ToolMessage _ _ => true | _ => false end)
       messages
  then Returns (mk_assistant (py "Done.") (Some []))
  else Returns (mk_assistant []
         (Some [mk_tool_call (py "call_0") tool payload])).

(** The runtime of the examples: the clock reads 2023-01-01. *)
Definition new_year : date := mk_date 2023 1 1.

(** * Specification-side definitions

    What the statements below are phrased with. *)

(** The check behind [doy2md]: the month and the day add up to the day of
    the year and lie within the month. *)
Definition doy_ok (leap : bool) (n : Z) : bool :=
  let '(m, d) := doy2md n leap in
  (DAYS_BEFORE_MONTH m + (if (2 <? m) && leap then 1 else 0) + d =? n + 1)
  && (1 <=? m) && (m <=? 12) && (1 <=? d)
  && (d <=? (if (m =? 2) && leap then 29 else DAYS_IN_MONTH m)).


(** A call is [safe] when it comes back, with a value or with an exception
    that [except Exception] catches. *)
Definition safe {A} (c : outcome A) : Prop :=
  match c with
  | Returns _ => True
  | Raises e => is_Exception (exn_cls e) = true
  | Hangs => False
  end.


(** The factor table in the specification's words: meters per unit. *)
Definition factor (unit : pystr) : Q :=
  if pystr_eqb unit (py "km") then 1000
  else if pystr_eqb unit (py "m") then 1
  else if pystr_eqb unit (py "cm") then 0.01
  else if pystr_eqb unit (py "miles") then 1609.34
  else if pystr_eqb unit (py "yards") then 0.9144
  else if pystr_eqb unit (py "feet") then 0.3048
  else if pystr_eqb unit (py "inches") then 0.0254
  else 0.

(** The normal floats: finite, with a significand of 53 bits.  A result
    that is normal came with neither overflow nor underflow. *)
Definition float_is_normal (x : float) : bool :=
  match x with
  | S754_finite _ m _ => 2 ^ 52 <=? Z.pos m
  | _ => false
  end.

(** The normal floats whose exponent lies between [lo] and [hi]: a
    significand [m] of exactly 53 bits at an exponent [e], standing for
    [m * 2^e], so of a magnitude from [2^(lo + 52)] to [2^(hi + 53)]. *)
Definition float_within (lo hi : Z) (x : float) : bool :=
  match x with
  | S754_finite _ m e =>
      (2 ^ 52 <=? Z.pos m) && (Z.pos m <? 2 ^ 53) && (lo <=? e) && (e <=? hi)
  | _ => false
  end.

(** The value in meters [unit_conversion_tool] computes on its way: the
    product of the value and the factor of its unit. *)
Definition value_in_m (x : float) (unit : pystr) : float :=
  match dict_get unit (conversion_to_m (A := binary64)) with
  | Some from_factor => fmul x from_factor
  | None => S754_nan
  end.

(** A magnitude with a sign bit. *)
Definition signed (s : bool) (v : Q) : Q := if s then (- v)%Q else v.

(** [located N D mrs]: the shift record [mrs] of the rounding stands for the
    fraction [N / D]: its significand is the integer part, its round bit
    tells whether the rest reaches one half, its sticky bit whether
    anything is left beyond that. *)
Definition located (N D : Z) (mrs : shr_record) : Prop :=
  0 < D /\ 0 <= shr_m mrs
  /\ (2 * shr_m mrs + Z.b2z (shr_r mrs)) * D <= 2 * N
  /\ 2 * N < (2 * shr_m mrs + Z.b2z (shr_r mrs) + 1) * D
  /\ (shr_s mrs = false <-> 2 * N = (2 * shr_m mrs + Z.b2z (shr_r mrs)) * D).

(** Lower case on ASCII, in the specification's words: the capital letters
    [A] to [Z] become [a] to [z], everything else stays. *)
Definition ascii_lower (c : N) : N :=
  if ((65 <=? c) && (c <=? 90))%N then (c + 32)%N else c.


(** Calendar order. *)
Definition date_before (a b : date) : Prop :=
  year a < year b
  \/ (year a = year b /\ month a < month b)
  \/ (year a = year b /\ month a = month b /\ day a < day b).

(** The shifts [date_tool] can carry out: a day count [timedelta] accepts,
    landing on a day that exists. *)
Definition within_range (base : date) (shift : Z) : Prop :=
  Z.abs shift <= 999999999 /\ 1 <= toordinal base + shift <= MAXORDINAL.

(** [sub] occurs in [s] at position [i]. *)
Definition occurs_at (sub s : pystr) (i : nat) : Prop :=
  firstn (List.length sub) (skipn i s) = sub.

(** [disjoint_from sub s start ps]: [ps] lists, in increasing order,
    positions from [start] on at which [sub] occurs in [s], no occurrence
    reaching into the next. *)
Inductive disjoint_from (sub s : pystr) : nat -> list nat -> Prop :=
| disjoint_nil start : disjoint_from sub s start []
| disjoint_cons start i rest :
    (start <= i)%nat ->
    occurs_at sub s i ->
    disjoint_from sub s (i + List.length sub) rest ->
    disjoint_from sub s start (i :: rest).

(** The sentence [text_analysis_tool] builds. *)
Definition sentence (character : pystr) (count : Z) (text : pystr) : pystr :=
  py "The character '" ++ character ++ py "' appears "
  ++ str_int count ++ py " times in '" ++ text ++ py "'".

(** The tool messages of a round: one per call, in the order of the calls,
    each carrying the identifier of its call. *)
Definition tool_messages (calls : list tool_call) (results : list pystr)
  : list message :=
  map (fun cr => ToolMessage (call_id (fst cr)) (snd cr)) (combine calls results).

(** [results] are what the dispatcher returned for [calls], one by one, each
    payload having decoded. *)
Definition answered {RT : Runtime} (calls : list tool_call)
    (results : list pystr) : Prop :=
  Forall2 (fun c r =>
             exists params,
               json_loads (function_arguments c) = Returns params
               /\ call_tool (function_name c) params = Returns r)
          calls results.

(** ** Arithmetic expressions

    The grammar of arithmetic with the standard precedence, over tokens:
    a sum is a chain of terms joined by [+] and [-], a term a chain of
    factors joined by [*] and [/], both read from the left; a factor is a
    number, a sum in parentheses or a signed factor. *)
Inductive level := LSum | LTerm | LFactor.

Inductive derives : level -> list token -> expr -> Prop :=
| derives_number n : derives LFactor [TInt n] (EInt n)
| derives_paren ts e :
    derives LSum ts e -> derives LFactor (TLParen :: ts ++ [TRParen]) e
| derives_plus ts e :
    derives LFactor ts e -> derives LFactor (TPlus :: ts) (EPos e)
| derives_minus ts e :
    derives LFactor ts e -> derives LFactor (TMinus :: ts) (ENeg e)
| derives_factor ts e : derives LFactor ts e -> derives LTerm ts e
| derives_times ts1 ts2 e1 e2 :
    derives LTerm ts1 e1 -> derives LFactor ts2 e2 ->
    derives LTerm (ts1 ++ TStar :: ts2) (EBin Mul e1 e2)
| derives_over ts1 ts2 e1 e2 :
    derives LTerm ts1 e1 -> derives LFactor ts2 e2 ->
    derives LTerm (ts1 ++ TSlash :: ts2) (EBin Div e1 e2)
| derives_term ts e : derives LTerm ts e -> derives LSum ts e
| derives_add ts1 ts2 e1 e2 :
    derives LSum ts1 e1 -> derives LTerm ts2 e2 ->
    derives LSum (ts1 ++ TPlus :: ts2) (EBin Add e1 e2)
| derives_sub ts1 ts2 e1 e2 :
    derives LSum ts1 e1 -> derives LTerm ts2 e2 ->
    derives LSum (ts1 ++ TMinus :: ts2) (EBin Sub e1 e2).

(** The integer an expression without division stands for. *)
Fixpoint int_value (e : expr) : option Z :=
  match e with
  | EInt n => Some n
  | EPos a => int_value a
  | ENeg a => option_map Z.opp (int_value a)
  | EBin Add a b =>
      match int_value a, int_value b with
      | Some x, Some y => Some (x + y)
      | _, _ => None
      end
  | EBin Sub a b =>
      match int_value a, int_value b with
      | Some x, Some y => Some (x - y)
      | _, _ => None
      end
  | EBin Mul a b =>
      match int_value a, int_value b with
      | Some x, Some y => Some (x * y)
      | _, _ => None
      end
  | _ => None
  end.

(** The rational an expression stands for, undefined when it divides by
    zero. *)
Fixpoint rational_value (e : expr) : option Q :=
  match e with
  | EInt n => Some (inject_Z n)
  | EPos a => rational_value a
  | ENeg a => option_map Qopp (rational_value a)
  | EBin op a b =>
      match rational_value a, rational_value b with
      | Some x, Some y =>
          match op with
          | Add => Some (x + y)%Q
          | Sub => Some (x - y)%Q
          | Mul => Some (x * y)%Q
          | Div => if Qeq_bool y 0 then None else Some (x / y)%Q
          end
      | _, _ => None
      end
  | _ => None
  end.

(** What may follow an expression: no opening parenthesis, which would read
    as a call. *)
Definition no_call (rest : list token) : Prop :=
  match rest with TLParen :: _ => False | _ => True end.

(** What may follow a term: nothing that continues it. *)
Definition no_factor (rest : list token) : Prop :=
  match rest with TStar :: _ | TSlash :: _ => False | _ => True end.

(** ** The runtime of the examples *)

(** CPython with the clock at 2023-01-01 and a service that answers in
    words. *)
Definition reference : Runtime := cpython new_year plain_service.

(** The payload [{"expression": source}]. *)
Definition math_payload (source : pystr) : pystr :=
  py "{" ++ quoted (py "expression") ++ py ": " ++ quoted source ++ py "}".

(** CPython with a service that asks for the [math] tool once. *)
Definition asking (payload : pystr) : Runtime :=
  cpython new_year (asking_service (py "math") payload).

Definition one_third : float := S754_finite false 6004799503160661 (-54).

(** What [json.loads] says of the text [{]: the object opens and no key
    follows. *)
Definition unfinished_object : exn :=
  mk_exn JSONDecodeError
    (py "Expecting property name enclosed in double quotes: "
     ++ py "line 1 column 2 (char 1)").

(** * Further specification-side definitions *)

(** The runtime [RT] with another [eval] in place of its own. *)
Definition with_eval (f : pystr -> outcome pyobj) (RT : Runtime) : Runtime := {|
  eval := f;
  today := today;
  str_lower := str_lower;
  repr_float := repr_float;
  json_loads := json_loads;
  chat_complete := chat_complete;
  lax_str := lax_str;
  lax_float := lax_float;
  lax_int := lax_int;
  lax_bool := lax_bool;
  lax_date := lax_date;
  null_is_none := null_is_none;
  int_max_str_digits := int_max_str_digits;
  validation_error_str := validation_error_str;
  str_lower_empty := str_lower_empty
|}.

(** The input model behind each tool. *)
Definition model_of (tool_name : pystr) : pystr :=
  if pystr_eqb tool_name (py "math") then py "MathInput"
  else if pystr_eqb tool_name (py "unit_conversion") then py "UnitConversionInput"
  else if pystr_eqb tool_name (py "date_tool") then py "DateInput"
  else py "TextAnalysisInput".

(** The shape of the transcript after the user's message when a
    conversation has ended: rounds, each an assistant turn that asks for
    tools followed by one tool message per call, in the order of the calls
    and under their identifiers, and then an assistant turn that asks for
    none. *)
Inductive closes : list message -> Prop :=
| closes_answer turn :
    requested turn = [] -> closes [AssistantMessage turn]
| closes_round turn results rest :
    requested turn <> [] ->
    List.length results = List.length (requested turn) ->
    closes rest ->
    closes (AssistantMessage turn
            :: tool_messages (requested turn) results ++ rest).

(** A service that asks for today's date at every turn. *)
Definition insisting_service (messages : list message)
  : outcome assistant_message :=
  Returns (mk_assistant []
             (Some [mk_tool_call (py "call_0") (py "date_tool")
                      (py "{" ++ quoted (py "operation") ++ py ": "
                       ++ quoted (py "get_current") ++ py "}")])).

(** The sign bit of a float and whether it is a number. *)
Definition float_is_nan (x : float) : bool :=
  match x with S754_nan => true | _ => false end.

Definition float_signbit (x : float) : bool :=
  match x with
  | S754_zero s | S754_infinity s | S754_finite s _ _ => s
  | S754_nan => false
  end.

Definition float_is_infinite (x : float) : bool :=
  match x with S754_infinity _ => true | _ => false end.

(** What arithmetic on numbers can raise: a division by zero, on integers
    or on floats, and a quotient or an operand too large for a float. *)
Definition arithmetic_failures : list exn :=
  [ mk_exn ZeroDivisionError (py "division by zero");
    mk_exn ZeroDivisionError (py "float division by zero");
    mk_exn OverflowError (py "integer division result too large for a float");
    mk_exn OverflowError (py "int too large to convert to float") ].

(** The outcomes of evaluating arithmetic: a number, or one of the
    failures above. *)
Definition arithmetic_outcome (o : outcome pyobj) : Prop :=
  match o with
  | Returns v => is_numeric v = true /\ forall b, v <> PBool b
  | Raises e => In e arithmetic_failures
  | Hangs => False
  end.

(** An outcome that is not a return, at another type: the same exception,
    or the same absence of an end. *)
Definition skipped {A B} (o : outcome A) : outcome B :=
  match o with
  | Raises e => Raises e
  | _ => Hangs
  end.

(** ** What [handle_conversation] prints

    The function returns nothing: what its caller sees of a conversation is
    what it prints.  Each [print] of the source is one line here, kept with
    its parts; [line_text] is the text of the f-string, [str(params)] being
    left to [shown].  Writing to the standard output is taken to succeed. *)
Inductive printed_line :=
| UserQueryLine (user_query : pystr)
| ToolDecisionLine (tool_name : pystr) (params : json)
| ToolResultLine (result : pystr)
| AgentResponseLine (content : pystr).

Definition line_text (shown : json -> pystr) (l : printed_line) : pystr :=
  match l with
  | UserQueryLine user_query => py "User Query: " ++ user_query
  | ToolDecisionLine tool_name params =>
      py "Agent decided to use tool: " ++ tool_name
      ++ py " with params: " ++ shown params
  | ToolResultLine result => py "Tool result: " ++ result
  | AgentResponseLine content => py "Agent Response: " ++ content
  end.

Section Printing.
Context {RT : Runtime}.

(** The [for] loop with its two prints: the lines printed, and how the loop
    ended.  A call that fails after the first print leaves that line. *)
Fixpoint handle_tool_calls_printing (calls : list tool_call)
    (messages : list message) : list printed_line * outcome (list message) :=
  match calls with
  | [] => ([], Returns messages)
  | tool_call :: rest =>
      let tool_name := function_name tool_call in
      match json_loads (function_arguments tool_call) with
      | Returns params =>
          let decided := ToolDecisionLine tool_name params in
          match call_tool tool_name params with
          | Returns result =>
              let '(lines, ending) :=
                handle_tool_calls_printing rest
                  (messages ++ [ToolMessage (call_id tool_call) result]) in
              (decided :: ToolResultLine result :: lines, ending)
          | Raises e => ([decided], Raises e)
          | Hangs => ([decided], Hangs)
          end
      | Raises e => ([], Raises e)
      | Hangs => ([], Hangs)
      end
  end.

Definition conversation_round_printing (messages : list message)
  : list printed_line * round_result :=
  match chat_complete messages with
  | Returns assistant_message =>
      let messages := messages ++ [AssistantMessage assistant_message] in
      match requested assistant_message with
      | [] => ([AgentResponseLine (content assistant_message)], Break messages)
      | calls =>
          match handle_tool_calls_printing calls messages with
          | (lines, Returns messages) => (lines, Continue messages)
          | (lines, Raises e) => (lines, Abort e)
          | (lines, Hangs) => (lines, Stuck)
          end
      end
  | Raises e => ([], Abort e)
  | Hangs => ([], Stuck)
  end.

Fixpoint conversation_loop_printing (fuel : nat) (messages : list message)
  : list printed_line * option (outcome (list message)) :=
  match fuel with
  | O => ([], None)
  | S fuel' =>
      match conversation_round_printing messages with
      | (lines, Continue messages) =>
          let '(more, ending) := conversation_loop_printing fuel' messages in
          (lines ++ more, ending)
      | (lines, Break messages) => (lines, Some (Returns messages))
      | (lines, Abort e) => (lines, Some (Raises e))
      | (lines, Stuck) => (lines, Some Hangs)
      end
  end.

(** [handle_conversation] with its prints: the lines printed within [fuel]
    rounds and, when the loop has ended by then, the transcript or the
    exception it ended with. *)
Definition handle_conversation_printing (fuel : nat) (user_query : pystr)
  : list printed_line * option (outcome (list message)) :=
  let '(lines, ending) :=
    conversation_loop_printing fuel [UserMessage user_query] in
  (UserQueryLine user_query :: lines, ending).
End Printing.

(** One call that ran: the call, its decoded arguments, the result. *)
Definition call_run := (tool_call * json * pystr)%type.

Definition call_lines (run : call_run) : list printed_line :=
  let '(tool_call, params, result) := run in
  [ToolDecisionLine (function_name tool_call) params; ToolResultLine result].

Definition tool_message_of (run : call_run) : message :=
  let '(tool_call, _, result) := run in
  ToolMessage (call_id tool_call) result.

Definition ran {RT : Runtime} (run : call_run) : Prop :=
  let '(tool_call, params, result) := run in
  json_loads (function_arguments tool_call) = Returns params
  /\ call_tool (function_name tool_call) params = Returns result.

Definition is_tool_message (m : message) : bool :=
  match m with ToolMessage _ _ => true | _ => false end.

Definition is_tool_line (l : printed_line) : bool :=
  match l with
  | ToolDecisionLine _ _ | ToolResultLine _ => true
  | _ => false
  end.

(** * Theorems *)

(** ** Strings *)

Lemma pystr_eqb_eq a b : pystr_eqb a b = true <-> a = b.
Proof.
  unfold pystr_eqb. destruct (list_eq_dec N.eq_dec a b); split; congruence.
Qed.

Lemma pystr_eqb_refl a : pystr_eqb a a = true.
Proof. apply pystr_eqb_eq. reflexivity. Qed.

Lemma pystr_eqb_neq a b : pystr_eqb a b = false <-> a <> b.
Proof.
  unfold pystr_eqb. destruct (list_eq_dec N.eq_dec a b); split; congruence.
Qed.

(** ** The calendar *)

Lemma all_from_spec fuel : forall n P, all_from fuel n P = true ->
  forall k, n <= k < n + Z.of_nat fuel -> P k = true.
Proof.
  induction fuel as [|f IH]; intros n P H k Hk.
  - simpl in Hk. lia.
  - simpl in H. apply andb_prop in H. destruct H as [H1 H2].
    destruct (Z.eq_dec k n) as [->|Hne]; [exact H1|].
    apply (IH (n + 1) P H2). lia.
Qed.

Lemma doy2md_spec leap n : 0 <= n < 365 ->
  doy_ok leap n = true.
Proof.
  intros H.
  assert (C : all_from 365 0 (doy_ok true) && all_from 365 0 (doy_ok false) = true)
    by (vm_compute; reflexivity).
  apply andb_prop in C. destruct C as [Ct Cf].
  destruct leap; [apply (all_from_spec _ _ _ Ct)|apply (all_from_spec _ _ _ Cf)]; lia.
Qed.

Lemma is_leap_decomp q a b c :
  0 <= a <= 3 -> 0 <= b <= 24 -> 0 <= c <= 3 ->
  is_leap (q * 400 + 1 + a * 100 + b * 4 + c)
  = (c =? 3) && (negb (b =? 24) || (a =? 3)).
Proof.
  intros Ha Hb Hc. unfold is_leap.
  set (y := q * 400 + 1 + a * 100 + b * 4 + c).
  assert (E4 : y mod 4 = (c + 1) mod 4).
  { unfold y. replace (q * 400 + 1 + a * 100 + b * 4 + c) with ((c + 1) + (q * 100 + a * 25 + b) * 4) by lia.
    apply Z.mod_add. lia. }
  assert (E100 : y mod 100 = (b * 4 + c + 1) mod 100).
  { unfold y. replace (q * 400 + 1 + a * 100 + b * 4 + c) with ((b * 4 + c + 1) + (q * 4 + a) * 100) by lia.
    apply Z.mod_add. lia. }
  assert (E400 : y mod 400 = (a * 100 + b * 4 + c + 1) mod 400).
  { unfold y. replace (q * 400 + 1 + a * 100 + b * 4 + c) with ((a * 100 + b * 4 + c + 1) + q * 400) by lia.
    apply Z.mod_add. lia. }
  rewrite E4, E100, E400. clear E4 E100 E400 y.
  destruct (Z.eqb_spec c 3) as [->|Hc3].
  - destruct (Z.eqb_spec b 24) as [->|Hb24].
    + destruct (Z.eqb_spec a 3) as [->|Ha3]; [reflexivity|].
      replace ((a * 100 + 24 * 4 + 3 + 1) mod 400 =? 0) with false.
      reflexivity.
      symmetry. apply Z.eqb_neq. rewrite Z.mod_small by lia. lia.
    + replace ((b * 4 + 3 + 1) mod 100 =? 0) with false.
      reflexivity.
      symmetry. apply Z.eqb_neq. rewrite Z.mod_small by lia. lia.
  - replace ((c + 1) mod 4 =? 0) with false.
    reflexivity.
    symmetry. apply Z.eqb_neq. rewrite Z.mod_small by lia. lia.
Qed.

Lemma days_before_year_decomp q a b c :
  0 <= a <= 3 -> 0 <= b <= 24 -> 0 <= c <= 3 ->
  days_before_year (q * 400 + 1 + a * 100 + b * 4 + c)
  = 146097 * q + 36524 * a + 1461 * b + 365 * c.
Proof.
  intros Ha Hb Hc. unfold days_before_year. cbv zeta.
  replace (q * 400 + 1 + a * 100 + b * 4 + c - 1) with (q * 400 + a * 100 + b * 4 + c) by lia.
  Z.div_mod_to_equations. lia.
Qed.

Lemma days_before_year_succ y :
  days_before_year (y + 1)
  = days_before_year y + 365 + (if is_leap y then 1 else 0).
Proof.
  unfold days_before_year, is_leap. cbv zeta.
  replace (y + 1 - 1) with y by lia.
  destruct (Z.eqb_spec (y mod 4) 0) as [H4|H4];
  destruct (Z.eqb_spec (y mod 100) 0) as [H100|H100];
  destruct (Z.eqb_spec (y mod 400) 0) as [H400|H400];
  cbn [andb orb negb];
  revert H4 H100 H400; Z.div_mod_to_equations; lia.
Qed.

Lemma ord2ymd_spec n :
  let d := ord2ymd n in
  toordinal d = n /\ 1 <= month d <= 12
  /\ 1 <= day d <= days_in_month (year d) (month d)
  /\ days_before_year (year d) < n <= days_before_year (year d + 1).
Proof.
  unfold ord2ymd. cbv zeta.
  set (n0 := n - 1).
  pose proof (Z.div_mod n0 DI400Y ltac:(discriminate)) as E1.
  pose proof (Z.mod_pos_bound n0 DI400Y ltac:(reflexivity)) as B1.
  set (q := n0 / DI400Y) in *. set (r := n0 mod DI400Y) in *.
  pose proof (Z.div_mod r DI100Y ltac:(discriminate)) as E2.
  pose proof (Z.mod_pos_bound r DI100Y ltac:(reflexivity)) as B2.
  set (a := r / DI100Y) in *. set (r2 := r mod DI100Y) in *.
  pose proof (Z.div_mod r2 DI4Y ltac:(discriminate)) as E3.
  pose proof (Z.mod_pos_bound r2 DI4Y ltac:(reflexivity)) as B3.
  set (b := r2 / DI4Y) in *. set (r3 := r2 mod DI4Y) in *.
  pose proof (Z.div_mod r3 365 ltac:(discriminate)) as E4.
  pose proof (Z.mod_pos_bound r3 365 ltac:(reflexivity)) as B4.
  set (c := r3 / 365) in *. set (r4 := r3 mod 365) in *.
  unfold DI400Y, DI100Y, DI4Y in *.
  clearbody q r a r2 b r3 c r4.
  assert (Hn : n = n0 + 1) by (unfold n0; lia). clearbody n0.
  assert (Ha : 0 <= a <= 4) by lia.
  assert (Hb : 0 <= b <= 24) by lia.
  assert (Hc : 0 <= c <= 4) by lia.
  destruct (Z.eqb_spec c 4) as [Hc4|Hc4]; [|destruct (Z.eqb_spec a 4) as [Ha4|Ha4]]; cbn [orb].
  - (* last day of a leap year *)
    assert (Hb' : b <= 23) by lia.
    assert (Ha' : a <= 3) by lia.
    assert (r4 = 0) by lia.
    replace (q * 400 + 1 + a * 100 + b * 4 + c - 1) with (q * 400 + 1 + a * 100 + b * 4 + 3) by lia.
    unfold toordinal, ymd2ord, days_before_month, days_in_month. cbn [year month day].
    replace (q * 400 + 1 + a * 100 + b * 4 + 3 + 1) with ((q * 400 + 1 + a * 100 + (b + 1) * 4 + 0)) by lia.
    rewrite is_leap_decomp by lia.
    rewrite !days_before_year_decomp by lia.
    replace (b =? 24) with false by (symmetry; apply Z.eqb_neq; lia).
    cbn -[Z.mul Z.add Z.sub]. lia.
  - subst a.
    assert (b = 0) by lia. assert (c = 0) by lia. assert (r4 = 0) by lia. subst b c r4.
    replace (q * 400 + 1 + 4 * 100 + 0 * 4 + 0 - 1) with (q * 400 + 1 + 3 * 100 + 24 * 4 + 3) by lia.
    unfold toordinal, ymd2ord, days_before_month, days_in_month. cbn [year month day].
    replace (q * 400 + 1 + 3 * 100 + 24 * 4 + 3 + 1) with ((q + 1) * 400 + 1 + 0 * 100 + 0 * 4 + 0) by lia.
    rewrite is_leap_decomp by lia.
    rewrite !days_before_year_decomp by lia.
    cbn -[Z.mul Z.add Z.sub]. lia.
  - assert (Ha' : a <= 3) by lia. assert (Hc' : c <= 3) by lia.
    pose proof (doy2md_spec ((c =? 3) && (negb (b =? 24) || (a =? 3))) r4 B4) as D.
    unfold doy_ok in D.
    rewrite <- (is_leap_decomp q a b c) in * by lia.
    set (y := q * 400 + 1 + a * 100 + b * 4 + c) in *.
    destruct (doy2md r4 (is_leap y)) as [m d].
    unfold toordinal, ymd2ord, days_before_month, days_in_month. cbn [year month day].
    repeat (apply andb_prop in D; destruct D as [D ?]).
    assert (Y : days_before_year y = 146097 * q + 36524 * a + 1461 * b + 365 * c)
      by (apply days_before_year_decomp; lia).
    assert (Y1 : days_before_year (y + 1) = days_before_year y + 365 + (if is_leap y then 1 else 0)).
    { apply days_before_year_succ. }
    rewrite Y1.
    destruct (is_leap y); lia.
Qed.

(** ** Outcomes *)

Lemma safe_bind {A B} (c : outcome A) (k : A -> outcome B) :
  safe c -> (forall a, c = Returns a -> safe (k a)) -> safe (bind c k).
Proof.
  destruct c as [a|e|]; simpl; intros Hc Hk; auto.
Qed.

Lemma try_except_returns {A} (body : outcome A) (h : exn -> A) :
  safe body -> exists a, try_except body (fun e => Returns (h e)) = Returns a.
Proof.
  destruct body as [a|e|]; simpl; intros Hs.
  - exists a. reflexivity.
  - rewrite Hs. exists (h e). reflexivity.
  - contradiction.
Qed.

Section DispatcherFacts.
Context {RT : Runtime}.

Lemma keywords_safe model params : safe (keywords model params).
Proof. destruct params; simpl; auto. Qed.

Lemma validated_safe {A} model params (r : option A) :
  safe (validated model params r).
Proof. destruct r; simpl; auto. Qed.

Lemma new_MathInput_safe params : safe (new_MathInput params).
Proof.
  unfold new_MathInput. apply safe_bind; [apply keywords_safe|].
  intros; apply validated_safe.
Qed.

Lemma new_UnitConversionInput_safe params :
  safe (new_UnitConversionInput params).
Proof.
  unfold new_UnitConversionInput. apply safe_bind; [apply keywords_safe|].
  intros; apply validated_safe.
Qed.

Lemma new_DateInput_safe params : safe (new_DateInput params).
Proof.
  unfold new_DateInput. apply safe_bind; [apply keywords_safe|].
  intros; apply validated_safe.
Qed.

Lemma new_TextAnalysisInput_safe params : safe (new_TextAnalysisInput params).
Proof.
  unfold new_TextAnalysisInput. apply safe_bind; [apply keywords_safe|].
  intros; apply validated_safe.
Qed.

Lemma dict_item_safe {V} (d : list (pystr * V)) key : safe (dict_item d key).
Proof. unfold dict_item. destruct (dict_get key d); simpl; auto. Qed.

Lemma unit_conversion_tool_safe (input : UnitConversionInput float) :
  safe (unit_conversion_tool input).
Proof.
  unfold unit_conversion_tool.
  destruct (negb _ || negb _); [simpl; auto|].
  apply safe_bind; [apply dict_item_safe|]. intros f _.
  apply safe_bind; [apply dict_item_safe|]. intros t _.
  apply safe_bind; [|intros; simpl; auto].
  simpl. destruct (float_is_zero t); simpl; auto.
Qed.

Lemma timedelta_safe n : safe (timedelta n).
Proof.
  unfold timedelta. destruct (Z.abs n <=? 999999999); simpl; auto.
  destruct (_ && _); simpl; auto.
Qed.

Lemma date_add_safe d n : safe (date_add d n).
Proof. unfold date_add. destruct (_ && _); simpl; auto. Qed.

Lemma date_tool_safe input : safe (date_tool input).
Proof.
  unfold date_tool.
  repeat match goal with
         | |- safe (if ?b then _ else _) => destruct b
         | |- safe (match ?x with Some _ => _ | None => _ end) => destruct x
         | |- safe (bind _ _) => apply safe_bind; [|intros]
         end;
  simpl; auto using timedelta_safe, date_add_safe.
  unfold date_sub_delta. apply date_add_safe.
Qed.

Lemma str_obj_safe v : safe (str_obj v).
Proof.
  destruct v as [|[|]| | | |]; simpl; auto.
  unfold str_of_int. destruct (_ && _); simpl; auto.
Qed.

(** What [math_tool] does with each outcome of [eval]. *)
Lemma math_tool_unfold input :
  math_tool input =
  match eval (expression input) with
  | Returns v => Returns v
  | Raises e =>
      if is_Exception (exn_cls e)
      then Raises (mk_exn ValueError (py "Invalid expression: " ++ exn_str e))
      else Raises e
  | Hangs => Hangs
  end.
Proof. unfold math_tool. destruct (eval (expression input)); reflexivity. Qed.

Lemma tool_name_cases (name : pystr) :
  name = py "math" \/ name = py "unit_conversion" \/ name = py "date_tool"
  \/ name = py "text_analysis" \/ ~ In name tools.
Proof.
  destruct (list_eq_dec N.eq_dec name (py "math")); [auto|].
  destruct (list_eq_dec N.eq_dec name (py "unit_conversion")); [auto|].
  destruct (list_eq_dec N.eq_dec name (py "date_tool")); [auto|].
  destruct (list_eq_dec N.eq_dec name (py "text_analysis")); [auto|].
  right; right; right; right. simpl. intuition congruence.
Qed.

Lemma call_tool_body_unknown name params :
  ~ In name tools ->
  call_tool_body name params
  = Raises (mk_exn ValueError (py "Unknown tool: " ++ name)).
Proof.
  intros H. unfold call_tool_body.
  assert (E : forall t, In t tools -> pystr_eqb name t = false).
  { intros t Ht. apply pystr_eqb_neq. intros ->. contradiction. }
  rewrite !E by (simpl; auto 6). reflexivity.
Qed.

(** Every tool but [math] is safe whatever the arguments. *)
Lemma call_tool_body_safe name params :
  name <> py "math" -> safe (call_tool_body name params).
Proof.
  intros Hname.
  destruct (tool_name_cases name) as [->|[->|[->|[->|Hun]]]].
  - congruence.
  - unfold call_tool_body. simpl.
    apply safe_bind; [apply new_UnitConversionInput_safe|]. intros input _.
    apply safe_bind; [apply unit_conversion_tool_safe|]. intros; simpl; auto.
  - unfold call_tool_body. simpl.
    apply safe_bind; [apply new_DateInput_safe|]. intros input _.
    apply date_tool_safe.
  - unfold call_tool_body. simpl.
    apply safe_bind; [apply new_TextAnalysisInput_safe|]. intros; simpl; auto.
  - rewrite call_tool_body_unknown by assumption. simpl. reflexivity.
Qed.

Lemma call_tool_body_math params :
  call_tool_body (py "math") params
  = (input_model <- new_MathInput params ;;
     result <- math_tool input_model ;;
     str_obj result).
Proof. reflexivity. Qed.
End DispatcherFacts.


(** C2, as amended.  [math_tool] fails with ["Invalid expression: "] and the
    cause exactly when evaluating the expression raises an exception of the
    [Exception] hierarchy (a syntax error, a division by zero, ...); a value
    is handed back as it is, numeric or not. *)
Theorem math_tool_fails_iff_eval_raises {RT : Runtime} (input : MathInput) :
  ((exists cause, eval (expression input) = Raises cause
                  /\ is_Exception (exn_cls cause) = true)
   <-> (exists text, math_tool input
          = Raises (mk_exn ValueError (py "Invalid expression: " ++ text))))
  /\ (forall cause, eval (expression input) = Raises cause ->
        is_Exception (exn_cls cause) = true ->
        math_tool input
        = Raises (mk_exn ValueError
                    (py "Invalid expression: " ++ exn_str cause)))
  /\ (forall v, eval (expression input) = Returns v ->
        math_tool input = Returns v).
Proof.
  rewrite math_tool_unfold.
  destruct (eval (expression input)) as [v|e|] eqn:E.
  - split; [split|split].
    + intros (c & Hc & _). discriminate.
    + intros (t & Ht). discriminate.
    + intros c Hc. discriminate.
    + intros v' Hv. assumption.
  - destruct (is_Exception (exn_cls e)) eqn:Ecls.
    + split; [split|split].
      * intros _. exists (exn_str e). reflexivity.
      * intros _. exists e. auto.
      * intros c Hc _. injection Hc as <-. reflexivity.
      * intros v Hv. discriminate.
    + split; [split|split].
      * intros (c & Hc & Hex). injection Hc as <-. congruence.
      * intros (t & Ht). injection Ht as ->. simpl in Ecls. discriminate.
      * intros c Hc Hex. injection Hc as <-. congruence.
      * intros v Hv. discriminate.
  - split; [split|split].
    + intros (c & Hc & _). discriminate.
    + intros (t & Ht). discriminate.
    + intros c Hc. discriminate.
    + intros v Hv. discriminate.
Qed.

(** C3, as amended.  For a tool name that is none of the four registered
    ones, whatever the arguments, the dispatch fails with the message
    ["Unknown tool: {name}"], and the failure does not leave [call_tool]:
    it comes back as the string ["Error: Unknown tool: {name}"]. *)
Theorem call_tool_unknown_tool {RT : Runtime} (tool_name : pystr) (params : json) :
  ~ In tool_name tools ->
  call_tool_body tool_name params
  = Raises (mk_exn ValueError (py "Unknown tool: " ++ tool_name))
  /\ call_tool tool_name params
     = Returns (py "Error: " ++ py "Unknown tool: " ++ tool_name).
Proof.
  intros H. split.
  - apply call_tool_body_unknown. assumption.
  - unfold call_tool. rewrite call_tool_body_unknown by assumption.
    reflexivity.
Qed.
(** ** Unit conversion *)

(** The floats the program's table holds: Python's reading of each literal. *)
Lemma binary64_factors :
  map (fun kv => (fst kv, float_repr (snd kv))) (conversion_to_m (A := binary64))
  = [ (py "km", py "1000.0"); (py "m", py "1.0"); (py "cm", py "0.01");
      (py "miles", py "1609.34"); (py "yards", py "0.9144");
      (py "feet", py "0.3048"); (py "inches", py "0.0254") ].
Proof. vm_compute. reflexivity. Qed.

Lemma unit_conversion_tool_binary64_run (x : float) (a b : pystr) fa fb :
  dict_get a (conversion_to_m (A := binary64)) = Some fa ->
  dict_get b (conversion_to_m (A := binary64)) = Some fb ->
  float_is_zero fb = false ->
  unit_conversion_tool (A := binary64) (mk_UnitConversionInput x a b)
  = Returns (fdiv_ieee (fmul x fa) fb).
Proof.
  intros Ha Hb Hz. unfold unit_conversion_tool, dict_mem, dict_item.
  cbn [from_unit to_unit value]. rewrite Ha, Hb. cbn [negb orb bind].
  cbn [div mul binary64]. rewrite Hz. reflexivity.
Qed.

(** ** Rounding in binary64 *)

Lemma located_shr_1 N D mrs :
  located N D mrs -> located N (2 * D) (shr_1 mrs).
Proof.
  destruct mrs as [m r s]. unfold located. cbn [shr_m shr_r shr_s].
  intros (HD & Hm & Hlo & Hhi & Hs).
  assert (K : exists h o,
            shr_1 {| shr_m := m; shr_r := r; shr_s := s |}
            = {| shr_m := h; shr_r := o; shr_s := r || s |}
            /\ m = 2 * h + Z.b2z o /\ 0 <= h).
  { destruct m as [|p|p]; [|destruct p as [p|p|]|lia].
    - exists 0, false. repeat split; lia.
    - exists (Z.pos p), true. rewrite (Pos2Z.inj_xI p). repeat split; simpl; lia.
    - exists (Z.pos p), false. rewrite (Pos2Z.inj_xO p). repeat split; simpl; lia.
    - exists 0, true. repeat split; simpl; lia. }
  destruct K as (h & o & -> & -> & Hh). cbn [shr_m shr_r shr_s].
  assert (Bo : Z.b2z o = 0 \/ Z.b2z o = 1) by (destruct o; simpl; auto).
  assert (Br : Z.b2z r = 0 /\ r = false \/ Z.b2z r = 1 /\ r = true)
    by (destruct r; simpl; auto).
  split; [lia|]. split; [assumption|]. split; [nia|]. split; [nia|].
  split.
  - intros Ho. apply orb_false_iff in Ho as [-> ->].
    pose proof (proj1 Hs eq_refl) as E. cbn [Z.b2z] in *. nia.
  - intros E. destruct Br as [[Hb ->]|[Hb ->]].
    + cbn [orb]. apply Hs. cbn [Z.b2z] in *. nia.
    + exfalso. cbn [Z.b2z] in *. nia.
Qed.

Lemma pow2_xO p : 2 ^ Z.pos p~0 = 2 ^ Z.pos p * 2 ^ Z.pos p.
Proof.
  rewrite (Pos2Z.inj_xO p).
  replace (2 * Z.pos p) with (Z.pos p + Z.pos p) by lia.
  apply Z.pow_add_r; lia.
Qed.

Lemma pow2_xI p : 2 ^ Z.pos p~1 = 2 * (2 ^ Z.pos p * 2 ^ Z.pos p).
Proof.
  rewrite (Pos2Z.inj_xI p).
  replace (2 * Z.pos p + 1) with (1 + (Z.pos p + Z.pos p)) by lia.
  rewrite !Z.pow_add_r, Z.pow_1_r by lia. reflexivity.
Qed.

Lemma located_iter p : forall N D mrs,
  located N D mrs -> located N (D * 2 ^ Z.pos p) (iter_pos shr_1 p mrs).
Proof.
  induction p as [p IH|p IH|]; intros N D mrs H; cbn [iter_pos].
  - apply located_shr_1 in H. apply IH, IH in H.
    replace (D * 2 ^ Z.pos p~1) with (2 * D * 2 ^ Z.pos p * 2 ^ Z.pos p);
      [assumption|rewrite pow2_xI; ring].
  - apply IH, IH in H.
    replace (D * 2 ^ Z.pos p~0) with (D * 2 ^ Z.pos p * 2 ^ Z.pos p);
      [assumption|rewrite pow2_xO; ring].
  - apply located_shr_1 in H. rewrite Z.pow_1_r, Z.mul_comm. assumption.
Qed.

(** A shift by [n] places, when [n] is positive. *)
Lemma located_shr N D mrs e n :
  located N D mrs ->
  exists k, 0 <= k /\ snd (shr mrs e n) = e + k
            /\ located N (D * 2 ^ k) (fst (shr mrs e n)).
Proof.
  intros H. unfold shr. destruct n as [|p|p].
  - exists 0. cbn [fst snd]. rewrite Z.mul_1_r, Z.add_0_r. auto with zarith.
  - exists (Z.pos p). cbn [fst snd]. split; [lia|]. split; [reflexivity|].
    apply located_iter. assumption.
  - exists 0. cbn [fst snd]. rewrite Z.mul_1_r, Z.add_0_r. auto with zarith.
Qed.

Lemma located_exact m : 0 <= m -> located m 1 (shr_record_of_loc m loc_Exact).
Proof.
  intros H. unfold located. cbn [shr_record_of_loc shr_m shr_r shr_s Z.b2z].
  repeat split; lia.
Qed.

(** The quotient of a division with the place of its remainder. *)
Lemma located_quotient a b :
  0 <= a -> 0 < b ->
  located a b
    (shr_record_of_loc (fst (Z.div_eucl a b))
       (new_location b (snd (Z.div_eucl a b)))).
Proof.
  intros Ha Hb.
  pose proof (Z_div_mod a b ltac:(lia)) as E.
  destruct (Z.div_eucl a b) as [q r]. destruct E as (E & Hr). cbn [fst snd].
  assert (Hq : 0 <= q) by nia.
  unfold new_location, new_location_even, new_location_odd.
  change IntDef.Z.even with Z.even.
  destruct (Z.even b) eqn:Ev.
  - destruct (Z.eqb_spec r 0) as [->|Hr0].
    + unfold located. cbn [shr_record_of_loc shr_m shr_r shr_s Z.b2z].
      repeat split; try nia.
    + destruct (Z.compare_spec (2 * r) b) as [C|C|C];
        unfold located; cbn [shr_record_of_loc shr_m shr_r shr_s Z.b2z];
        repeat split; try nia; try discriminate.
  - destruct (Z.eqb_spec r 0) as [->|Hr0].
    + unfold located. cbn [shr_record_of_loc shr_m shr_r shr_s Z.b2z].
      repeat split; try nia.
    + assert (Ho : Z.odd b = true) by (rewrite <- Z.negb_even, Ev; reflexivity).
      apply Z.odd_spec in Ho as (h & Hh).
      destruct (Z.compare_spec (2 * r + 1) b) as [C|C|C];
        unfold located; cbn [shr_record_of_loc shr_m shr_r shr_s Z.b2z];
        repeat split; try nia; try discriminate.
Qed.

(** Rounding to nearest moves by half a unit at most. *)
Lemma located_round N D mrs :
  located N D mrs ->
  let m := round_nearest_even (shr_m mrs) (loc_of_shr_record mrs) in
  0 <= m /\ - D <= 2 * m * D - 2 * N <= D.
Proof.
  destruct mrs as [m r s]. unfold located.
  cbn [shr_m shr_r shr_s loc_of_shr_record].
  intros (HD & Hm & Hlo & Hhi & Hs).
  destruct r, s; cbn [round_nearest_even Z.b2z] in *.
  - split; nia.
  - pose proof (proj1 Hs eq_refl) as E.
    change IntDef.Z.even with Z.even. destruct (Z.even m); split; nia.
  - split; nia.
  - split; nia.
Qed.

(** What [binary_round_aux] returns for the fraction [N / D] at the
    exponent [ex], when it returns a finite float: a significand at an
    exponent [ex + k] within one unit of [N / D]. *)
Lemma binary_round_aux_error p e s mx ex lx N D r :
  located N D (shr_record_of_loc mx lx) ->
  binary_round_aux p e s mx ex lx = r ->
  float_is_finite r = true -> float_is_zero r = false ->
  exists m' k,
    r = S754_finite s m' (ex + k) /\ 0 <= k
    /\ - (2 ^ k * D) <= Z.pos m' * 2 ^ k * D - N <= 2 ^ k * D.
Proof.
  intros L E Hf Hz. unfold binary_round_aux, shr_fexp in E.
  destruct (located_shr N D (shr_record_of_loc mx lx) ex
              (fexp p e (Zdigits2 mx + ex) - ex) L) as (k1 & Hk1 & E1 & L1).
  destruct (shr (shr_record_of_loc mx lx) ex _) as [mrs1 e1].
  cbn [fst snd] in E1, L1. subst e1.
  destruct (located_round _ _ _ L1) as (Hm1 & Hr1).
  set (m1 := round_nearest_even (shr_m mrs1) (loc_of_shr_record mrs1)) in *.
  destruct (located_shr m1 1 (shr_record_of_loc m1 loc_Exact) (ex + k1)
              (fexp p e (Zdigits2 m1 + (ex + k1)) - (ex + k1))
              (located_exact m1 Hm1)) as (k2 & Hk2 & E2 & L2).
  destruct (shr (shr_record_of_loc m1 loc_Exact) (ex + k1) _) as [mrs2 e2].
  cbn [fst snd] in E2, L2. subst e2.
  destruct L2 as (_ & _ & Hlo & Hhi & _).
  destruct (shr_m mrs2) as [|m'|m'] eqn:Em.
  - subst r. discriminate.
  - destruct (ex + k1 + k2 <=? e - p); subst r; [|discriminate].
    exists m', (k1 + k2). split; [f_equal; lia|]. split; [lia|].
    rewrite Z.pow_add_r by assumption.
    assert (P1 : 0 < 2 ^ k1) by (apply Z.pow_pos_nonneg; lia).
    assert (P2 : 0 < 2 ^ k2) by (apply Z.pow_pos_nonneg; lia).
    assert (B : Z.b2z (shr_r mrs2) = 0 \/ Z.b2z (shr_r mrs2) = 1)
      by (destruct (shr_r mrs2); simpl; auto).
    destruct L1 as (HD1 & _).
    set (Q1 := 2 ^ k1) in *. set (Q2 := 2 ^ k2) in *.
    assert (A1 : Z.pos m' * Q2 <= m1) by nia.
    assert (A2 : m1 < (Z.pos m' + 1) * Q2) by nia.
    clearbody Q1 Q2 m1. nia.
  - subst r. discriminate.
Qed.

(** ** The value of a float *)

Lemma float_to_Q_finite s m e :
  float_to_Q (S754_finite s m e)
  = Some (signed s (inject_Z (Z.pos m) * 2 ^ e)%Q).
Proof. reflexivity. Qed.

Lemma signed_mult sx sy a b :
  (signed sx a * signed sy b == signed (xorb sx sy) (a * b))%Q.
Proof. destruct sx, sy; unfold signed; simpl; ring. Qed.

Lemma signed_div sx sy a b :
  ~ (b == 0)%Q ->
  (signed sx a / signed sy b == signed (xorb sx sy) (a / b))%Q.
Proof. intros H. destruct sx, sy; unfold signed; simpl; field; assumption. Qed.

Lemma signed_abs_diff s a b :
  (Qabs (signed s a - signed s b) == Qabs (a - b))%Q.
Proof.
  destruct s; unfold signed; [|reflexivity].
  rewrite <- (Qabs_opp (a - b)). apply Qabs_wd. ring.
Qed.

Lemma signed_abs s a : (0 <= a)%Q -> (Qabs (signed s a) == a)%Q.
Proof.
  intros H. destruct s; unfold signed; [rewrite Qabs_opp|]; apply Qabs_pos, H.
Qed.

Lemma pow2_pos (e : Z) : (0 < 2 ^ e)%Q.
Proof. apply Qpower_0_lt. reflexivity. Qed.

Lemma pow2_add (a b : Z) : (2 ^ (a + b) == 2 ^ a * 2 ^ b)%Q.
Proof. apply Qpower_plus. discriminate. Qed.

Lemma pow2_inject (k : Z) : 0 <= k -> (2 ^ k == inject_Z (2 ^ k))%Q.
Proof. intros H. rewrite Zpower_Qpower by assumption. reflexivity. Qed.

(** From the integers to the rationals: a normal significand within one
    unit of [N / D] is within [2^-52] of it, relative to itself. *)
Lemma finite_error (m' : positive) (N D k ex : Z) :
  0 < D -> 0 <= k ->
  - (2 ^ k * D) <= Z.pos m' * 2 ^ k * D - N <= 2 ^ k * D ->
  2 ^ 52 <= Z.pos m' ->
  (Qabs (inject_Z (Z.pos m') * 2 ^ (ex + k)
         - inject_Z N / inject_Z D * 2 ^ ex)
   <= inject_Z (Z.pos m') * 2 ^ (ex + k) * 2 ^ (-52))%Q.
Proof.
  intros HD Hk [Hlo Hhi] Hn.
  assert (P : 0 < 2 ^ k) by (apply Z.pow_pos_nonneg; lia).
  rewrite pow2_add, (pow2_inject k Hk).
  pose proof (pow2_pos ex) as HE.
  set (E := (2 ^ ex)%Q) in *.
  set (K := inject_Z (2 ^ k)). set (M := inject_Z (Z.pos m')).
  set (n := inject_Z N). set (d := inject_Z D).
  assert (Hd : (0 < d)%Q) by (unfold d; rewrite <- (Zlt_Qlt 0); assumption).
  assert (HK : (0 < K)%Q) by (unfold K; rewrite <- (Zlt_Qlt 0); assumption).
  assert (HM : (inject_Z (2 ^ 52) <= M)%Q)
    by (unfold M; rewrite <- Zle_Qle; assumption).
  assert (H1 : (- (K * d) <= M * K * d - n)%Q).
  { unfold K, d, M, n.
    rewrite <- !inject_Z_mult, <- inject_Z_opp.
    unfold Qminus. rewrite <- inject_Z_opp, <- inject_Z_plus, <- Zle_Qle.
    lia. }
  assert (H2 : (M * K * d - n <= K * d)%Q).
  { unfold K, d, M, n.
    rewrite <- !inject_Z_mult.
    unfold Qminus. rewrite <- inject_Z_opp, <- inject_Z_plus, <- Zle_Qle.
    lia. }
  set (b := (n / d)%Q).
  assert (Hb : (n == b * d)%Q) by (unfold b; field; lra).
  rewrite Hb in H1, H2.
  assert (X1 : (- K <= M * K - b)%Q) by nra.
  assert (X2 : (M * K - b <= K)%Q) by nra.
  assert (C : (2 ^ (-52) == 1 # 4503599627370496)%Q) by reflexivity.
  rewrite C.
  assert (HM' : (4503599627370496 <= M)%Q) by exact HM.
  assert (KE : (0 < K * E)%Q) by nra.
  assert (A1 : ((M * K - b) * E <= K * E)%Q) by nra.
  assert (A2 : (- (K * E) <= (M * K - b) * E)%Q) by nra.
  assert (A3 : (0 <= (M - 4503599627370496) * (K * E))%Q) by nra.
  apply Qabs_Qle_condition. split; lra.
Qed.

Lemma float_is_normal_finite r :
  float_is_normal r = true ->
  float_is_finite r = true /\ float_is_zero r = false.
Proof. destruct r; simpl; intros H; try discriminate; auto. Qed.

(** The product of two finite floats, when it is a normal float, is within
    [2^-52] of the product of their values, relative to itself. *)
Lemma fmul_error x y vx vy :
  float_to_Q x = Some vx -> float_to_Q y = Some vy ->
  float_is_normal (fmul x y) = true ->
  exists q, float_to_Q (fmul x y) = Some q
            /\ (Qabs (q - vx * vy) <= Qabs q * 2 ^ (-52))%Q.
Proof.
  intros Hx Hy Hn.
  destruct x as [sx|sx| |sx mx ex]; try discriminate;
    destruct y as [sy|sy| |sy my ey]; try discriminate.
  rewrite float_to_Q_finite in Hx, Hy. injection Hx as <-. injection Hy as <-.
  destruct (float_is_normal_finite _ Hn) as (Hf & Hz).
  unfold fmul in *. cbn [SFmul] in *.
  destruct (binary_round_aux_error prec emax (xorb sx sy) (Z.pos (mx * my))
              (ex + ey) loc_Exact (Z.pos (mx * my)) 1 _
              (located_exact _ (Pos2Z.is_nonneg _)) eq_refl Hf Hz)
    as (m' & k & E & Hk & Hb).
  rewrite E in Hn |- *. cbn [float_is_normal] in Hn. apply Z.leb_le in Hn.
  rewrite float_to_Q_finite. eexists. split; [reflexivity|].
  pose proof (finite_error m' (Z.pos (mx * my)) 1 k (ex + ey) ltac:(lia) Hk
                Hb Hn) as F.
  rewrite signed_mult, signed_abs_diff.
  rewrite signed_abs.
  2:{ apply Qmult_le_0_compat; [rewrite <- (Zle_Qle 0); lia|].
      apply Qlt_le_weak, pow2_pos. }
  assert (V : (inject_Z (Z.pos (mx * my)) / inject_Z 1 * 2 ^ (ex + ey)
               == inject_Z (Z.pos mx) * 2 ^ ex * (inject_Z (Z.pos my) * 2 ^ ey))%Q).
  { rewrite Pos2Z.inj_mul, inject_Z_mult, pow2_add. field. }
  rewrite V in F. exact F.
Qed.

(** What the division core hands to the rounding: the quotient of the
    dividend, shifted left by some [s], with the place of its remainder. *)
Lemma SFdiv_core_located m1 e1 m2 e2 :
  exists s, 0 <= s
    /\ snd (fst (SFdiv_core_binary prec emax (Z.pos m1) e1 (Z.pos m2) e2))
       = e1 - e2 - s
    /\ located (Z.pos m1 * 2 ^ s) (Z.pos m2)
         (shr_record_of_loc
            (fst (fst (SFdiv_core_binary prec emax (Z.pos m1) e1 (Z.pos m2) e2)))
            (snd (SFdiv_core_binary prec emax (Z.pos m1) e1 (Z.pos m2) e2))).
Proof.
  unfold SFdiv_core_binary. cbv zeta.
  change IntDef.Z.min with Z.min. change IntDef.Z.shiftl with Z.shiftl.
  change IntDef.Z.div_eucl with Z.div_eucl.
  set (e' := Z.min _ (e1 - e2)).
  assert (He : e' <= e1 - e2) by apply Z.le_min_r.
  set (s := e1 - e2 - e').
  assert (Hs : 0 <= s) by (unfold s; lia).
  set (m' := match s with
             | 0 => Z.pos m1
             | Z.pos _ => Z.shiftl (Z.pos m1) s
             | Z.neg _ => 0
             end).
  assert (Hm : m' = Z.pos m1 * 2 ^ s).
  { unfold m'. destruct s as [|p|p]; [rewrite Z.mul_1_r; reflexivity| |lia].
    apply Z.shiftl_mul_pow2. lia. }
  exists s. split; [assumption|].
  pose proof (located_quotient m' (Z.pos m2)) as L.
  destruct (Z.div_eucl m' (Z.pos m2)) as [q r]. cbn [fst snd] in *.
  split; [unfold s; lia|]. rewrite <- Hm. apply L; [|lia].
  rewrite Hm. apply Z.mul_nonneg_nonneg; [lia|]. apply Z.pow_nonneg. lia.
Qed.

(** The quotient of two finite floats, when it is a normal float, is
    within [2^-52] of the quotient of their values, relative to itself. *)
Lemma fdiv_error x y vx vy :
  float_to_Q x = Some vx -> float_to_Q y = Some vy ->
  float_is_normal (fdiv_ieee x y) = true ->
  exists q, float_to_Q (fdiv_ieee x y) = Some q
            /\ (Qabs (q - vx / vy) <= Qabs q * 2 ^ (-52))%Q.
Proof.
  intros Hx Hy Hn.
  destruct x as [sx|sx| |sx mx ex]; try discriminate;
    destruct y as [sy|sy| |sy my ey]; try discriminate.
  rewrite float_to_Q_finite in Hx, Hy. injection Hx as <-. injection Hy as <-.
  destruct (float_is_normal_finite _ Hn) as (Hf & Hz).
  unfold fdiv_ieee in *. cbn [SFdiv] in *.
  destruct (SFdiv_core_located mx ex my ey) as (s & Hs & Ee & L).
  destruct (SFdiv_core_binary prec emax (Z.pos mx) ex (Z.pos my) ey)
    as [[mz ez] lz].
  cbn [fst snd] in Ee, L.
  destruct (binary_round_aux_error prec emax (xorb sx sy) mz ez lz _ _ _
              L eq_refl Hf Hz) as (m' & k & E & Hk & Hb).
  rewrite E in Hn |- *. cbn [float_is_normal] in Hn. apply Z.leb_le in Hn.
  rewrite float_to_Q_finite. eexists. split; [reflexivity|].
  pose proof (finite_error m' (Z.pos mx * 2 ^ s) (Z.pos my) k ez ltac:(lia) Hk
                Hb Hn) as F.
  assert (Ny : ~ (inject_Z (Z.pos my) * 2 ^ ey == 0)%Q).
  { pose proof (pow2_pos ey).
    assert (0 < inject_Z (Z.pos my))%Q by (rewrite <- (Zlt_Qlt 0); lia).
    nra. }
  rewrite (signed_div _ _ _ _ Ny), signed_abs_diff.
  rewrite signed_abs.
  2:{ apply Qmult_le_0_compat; [rewrite <- (Zle_Qle 0); lia|].
      apply Qlt_le_weak, pow2_pos. }
  assert (V : (inject_Z (Z.pos mx * 2 ^ s) / inject_Z (Z.pos my) * 2 ^ ez
               == inject_Z (Z.pos mx) * 2 ^ ex
                  / (inject_Z (Z.pos my) * 2 ^ ey))%Q).
  { replace ex with (ez + s + ey) by lia.
    rewrite inject_Z_mult, !pow2_add, <- (pow2_inject s Hs).
    pose proof (pow2_pos ey).
    assert (0 < inject_Z (Z.pos my))%Q by (rewrite <- (Zlt_Qlt 0); lia).
    field. split; lra. }
  rewrite V in F. exact F.
Qed.

(** ** Errors that add up *)

(** [a] is close to [b] by [eps] when they differ by at most [eps] times
    the size of [a]. *)
Lemma close_scale eps a b c :
  (Qabs (a - b) <= Qabs a * eps ->
   Qabs (a * c - b * c) <= Qabs (a * c) * eps)%Q.
Proof.
  intros H.
  assert (E : (a * c - b * c == (a - b) * c)%Q) by ring.
  rewrite E, !Qabs_Qmult.
  pose proof (Qabs_nonneg c). pose proof (Qabs_nonneg a).
  set (C := Qabs c) in *. set (A := Qabs a) in *. set (X := Qabs (a - b)) in *.
  nra.
Qed.

Lemma close_trans e1 e2 a b c :
  (0 <= e1 -> 0 <= e2 ->
   Qabs (a - b) <= Qabs a * e1 -> Qabs (b - c) <= Qabs b * e2 ->
   Qabs (a - c) <= Qabs a * (e1 + e2 + e1 * e2))%Q.
Proof.
  intros H1 H2 Hab Hbc.
  assert (T1 : (Qabs (a - c) <= Qabs (a - b) + Qabs (b - c))%Q).
  { assert (E : (a - c == (a - b) + (b - c))%Q) by ring.
    rewrite E. apply Qabs_triangle. }
  assert (T2 : (Qabs b <= Qabs a + Qabs (a - b))%Q).
  { assert (E : (b == a + - (a - b))%Q) by ring.
    rewrite E at 1. rewrite <- (Qabs_opp (a - b)). apply Qabs_triangle. }
  pose proof (Qabs_nonneg a).
  set (A := Qabs a) in *. set (B := Qabs b) in *.
  set (X := Qabs (a - b)) in *. set (Y := Qabs (b - c)) in *.
  set (Z := Qabs (a - c)) in *.
  nra.
Qed.

Lemma close_weaken e1 e2 a b :
  (e1 <= e2 -> Qabs (a - b) <= Qabs a * e1 -> Qabs (a - b) <= Qabs a * e2)%Q.
Proof.
  intros H Hab. pose proof (Qabs_nonneg a). set (A := Qabs a) in *.
  set (X := Qabs (a - b)) in *. nra.
Qed.

(** The floats of the table against the factors, pair by pair. *)
Lemma binary64_factor_ratio a b :
  In a LengthUnit -> In b LengthUnit ->
  exists fa fb qa qb,
    dict_get a (conversion_to_m (A := binary64)) = Some fa
    /\ dict_get b (conversion_to_m (A := binary64)) = Some fb
    /\ float_is_zero fb = false
    /\ float_to_Q fa = Some qa /\ float_to_Q fb = Some qb
    /\ (0 < qa)%Q /\ (0 < qb)%Q
    /\ (Qabs (qa / qb - factor a / factor b) <= Qabs (qa / qb) * 2 ^ (-52))%Q.
Proof.
  intros Ha Hb. simpl in Ha, Hb.
  repeat destruct Ha as [<-|Ha]; try contradiction;
    repeat destruct Hb as [<-|Hb]; try contradiction;
    (do 4 eexists;
     split; [reflexivity|]; split; [reflexivity|]; split; [reflexivity|];
     split; [reflexivity|]; split; [reflexivity|];
     split; [reflexivity|]; split; [reflexivity|];
     apply Qle_bool_imp_le; vm_compute; reflexivity).
Qed.

Lemma value_in_m_run x a fa :
  dict_get a (conversion_to_m (A := binary64)) = Some fa ->
  value_in_m x a = fmul x fa.
Proof. intros H. unfold value_in_m. rewrite H. reflexivity. Qed.

(** One conversion, from the value to the factors of the table. *)
Lemma conversion_error x v a b :
  In a LengthUnit -> In b LengthUnit -> float_to_Q x = Some v ->
  exists r fa fb qa qb,
    dict_get a (conversion_to_m (A := binary64)) = Some fa
    /\ dict_get b (conversion_to_m (A := binary64)) = Some fb
    /\ float_to_Q fa = Some qa /\ float_to_Q fb = Some qb
    /\ (0 < qa)%Q /\ (0 < qb)%Q
    /\ unit_conversion_tool (A := binary64) (mk_UnitConversionInput x a b)
       = Returns r
    /\ r = fdiv_ieee (fmul x fa) fb
    /\ (float_is_normal (fmul x fa) = true -> float_is_normal r = true ->
        exists p q,
          float_to_Q (fmul x fa) = Some p /\ float_to_Q r = Some q
          /\ (Qabs (p - v * qa) <= Qabs p * 2 ^ (-52))%Q
          /\ (Qabs (q - p / qb) <= Qabs q * 2 ^ (-52))%Q
          /\ (Qabs (q - v * factor a / factor b) <= Qabs q * 2 ^ (-50))%Q).
Proof.
  intros Ha Hb Hx.
  destruct (binary64_factor_ratio a b Ha Hb)
    as (fa & fb & qa & qb & Ea & Eb & Zb & Qa & Qb & Pa & Pb & Hr).
  exists (fdiv_ieee (fmul x fa) fb), fa, fb, qa, qb.
  do 6 (split; [assumption|]).
  split; [apply unit_conversion_tool_binary64_run; assumption|].
  split; [reflexivity|].
  intros Np Nr.
  destruct (fmul_error x fa v qa Hx Qa Np) as (p & Ep & Hp).
  destruct (fdiv_error (fmul x fa) fb p qb Ep Qb Nr) as (q & Eq & Hq).
  exists p, q. do 4 (split; [assumption|]).
  (* the product, divided *)
  pose proof (close_scale _ _ _ (/ qb) Hp) as S1.
  assert (U : (0 <= 2 ^ (-52))%Q) by apply Qlt_le_weak, pow2_pos.
  pose proof (close_trans _ _ q (p / qb) (v * qa * / qb) U U Hq S1) as T1.
  (* the factors *)
  pose proof (close_scale _ _ _ v Hr) as S2.
  assert (E1 : (v * qa * / qb == qa / qb * v)%Q) by (field; lra).
  rewrite E1 in T1.
  assert (U2 : (0 <= 2 ^ (-52) + 2 ^ (-52) + 2 ^ (-52) * 2 ^ (-52))%Q)
    by (apply Qle_bool_imp_le; reflexivity).
  pose proof (close_trans _ _ q (qa / qb * v) (factor a / factor b * v)
                U2 U T1 S2) as T2.
  assert (E2 : (factor a / factor b * v == v * factor a / factor b)%Q).
  { unfold Qdiv. ring. }
  rewrite E2 in T2.
  eapply close_weaken; [|exact T2]. apply Qle_bool_imp_le. vm_compute.
  reflexivity.
Qed.

(** ** Results in the normal range *)

Lemma shr_1_nonneg mrs : 0 <= shr_m mrs -> 0 <= shr_m (shr_1 mrs).
Proof.
  destruct mrs as [m r s]. destruct m as [|p|p]; simpl; intros H;
    [lia|destruct p; simpl; lia|lia].
Qed.

Lemma iter_shr_1_nonneg p : forall mrs,
  0 <= shr_m mrs -> 0 <= shr_m (iter_pos shr_1 p mrs).
Proof.
  induction p as [p IH|p IH|]; intros mrs H; simpl.
  - apply IH, IH, shr_1_nonneg, H.
  - apply IH, IH, H.
  - apply shr_1_nonneg, H.
Qed.

Lemma digits2_pos_spec p :
  2 ^ (Z.pos (digits2_pos p) - 1) <= Z.pos p < 2 ^ Z.pos (digits2_pos p).
Proof.
  induction p as [p IH|p IH|]; cbn [digits2_pos].
  - rewrite Pos2Z.inj_succ, (Pos2Z.inj_xI p).
    replace (Z.succ (Z.pos (digits2_pos p)) - 1)
      with (Z.succ (Z.pos (digits2_pos p) - 1)) by lia.
    rewrite !Z.pow_succ_r by lia. lia.
  - rewrite Pos2Z.inj_succ, (Pos2Z.inj_xO p).
    replace (Z.succ (Z.pos (digits2_pos p)) - 1)
      with (Z.succ (Z.pos (digits2_pos p) - 1)) by lia.
    rewrite !Z.pow_succ_r by lia. lia.
  - simpl. lia.
Qed.

Lemma Zdigits2_unique m k :
  0 < k -> 2 ^ (k - 1) <= m < 2 ^ k -> Zdigits2 m = k.
Proof.
  intros Hk [Hlo Hhi].
  assert (Hm : 0 < m).
  { pose proof (Z.pow_pos_nonneg 2 (k - 1) ltac:(lia) ltac:(lia)). lia. }
  destruct m as [|p|p]; try lia. cbn [Zdigits2].
  pose proof (digits2_pos_spec p) as [Dlo Dhi].
  set (d := Z.pos (digits2_pos p)) in *.
  assert (Hd : 0 < d) by (unfold d; lia).
  destruct (Z.lt_trichotomy d k) as [C|[C|C]]; [|assumption|].
  - exfalso.
    pose proof (Z.pow_le_mono_r 2 d (k - 1) ltac:(lia) ltac:(lia)). lia.
  - exfalso.
    pose proof (Z.pow_le_mono_r 2 k (d - 1) ltac:(lia) ltac:(lia)). lia.
Qed.

Lemma shr_m_shr_1 mrs : 0 <= shr_m mrs -> shr_m (shr_1 mrs) = shr_m mrs / 2.
Proof.
  destruct mrs as [m r s]. cbn [shr_m]. intros H.
  destruct m as [|p|p]; [reflexivity| |lia].
  destruct p as [p|p|]; cbn [shr_1 shr_m].
  - rewrite (Pos2Z.inj_xI p). apply Z.div_unique with 1; lia.
  - rewrite (Pos2Z.inj_xO p). apply Z.div_unique with 0; lia.
  - reflexivity.
Qed.

Lemma shr_m_iter p : forall mrs,
  0 <= shr_m mrs ->
  shr_m (iter_pos shr_1 p mrs) = shr_m mrs / 2 ^ Z.pos p.
Proof.
  assert (P : forall q, 0 < 2 ^ Z.pos q) by (intros; apply Z.pow_pos_nonneg; lia).
  induction p as [p IH|p IH|]; intros mrs H; cbn [iter_pos].
  - pose proof (shr_1_nonneg mrs H) as H1.
    pose proof (iter_shr_1_nonneg p _ H1) as H2.
    rewrite IH, IH, shr_m_shr_1 by assumption.
    rewrite pow2_xI, !Z.div_div by (pose proof (P p); lia).
    f_equal; ring.
  - pose proof (iter_shr_1_nonneg p _ H) as H2.
    rewrite IH, IH by assumption.
    rewrite pow2_xO, Z.div_div by (pose proof (P p); lia). reflexivity.
  - rewrite shr_m_shr_1 by assumption. reflexivity.
Qed.

Lemma round_nearest_even_range m l :
  m <= round_nearest_even m l <= m + 1.
Proof.
  unfold round_nearest_even. destruct l as [|[| |]]; try lia.
  destruct (IntDef.Z.even m); lia.
Qed.

Lemma shr_m_of_loc m l : shr_m (shr_record_of_loc m l) = m.
Proof. destruct l as [|[| |]]; reflexivity. Qed.

Lemma shr_m_shr mrs e n :
  0 <= shr_m mrs -> 0 <= n ->
  shr_m (fst (shr mrs e n)) = shr_m mrs / 2 ^ n /\ snd (shr mrs e n) = e + n.
Proof.
  intros Hm Hn. unfold shr. destruct n as [|p|p]; [| |lia]; cbn [fst snd].
  - rewrite Z.pow_0_r, Z.div_1_r, Z.add_0_r. auto.
  - split; [apply shr_m_iter; assumption|reflexivity].
Qed.

(** A significand of at least 53 digits, at an exponent away from both
    ends of the range, rounds to a normal float, at the exponent that
    leaves 53 digits or the next one. *)
Lemma binary_round_aux_normal s mx ex lx d :
  0 < mx -> Zdigits2 mx = d -> 53 <= d ->
  -1074 <= ex + (d - 53) -> ex + (d - 53) + 1 <= 971 ->
  exists m' e',
    binary_round_aux prec emax s mx ex lx = S754_finite s m' e'
    /\ 2 ^ 52 <= Z.pos m' < 2 ^ 53
    /\ ex + (d - 53) <= e' <= ex + (d - 53) + 1.
Proof.
  intros Hmx Hd Hd53 Hlo Hhi.
  assert (Dm : 2 ^ (d - 1) <= mx < 2 ^ d).
  { destruct mx as [|p|p]; try lia. cbn [Zdigits2] in Hd. subst d.
    apply digits2_pos_spec. }
  unfold binary_round_aux, shr_fexp. rewrite Hd.
  assert (F1 : fexp prec emax (d + ex) - ex = d - 53).
  { unfold fexp, emin, prec, emax. change IntDef.Z.max with Z.max. lia. }
  rewrite F1.
  destruct (shr_m_shr (shr_record_of_loc mx lx) ex (d - 53)
              ltac:(rewrite shr_m_of_loc; lia) ltac:(lia)) as (M1 & E1).
  destruct (shr (shr_record_of_loc mx lx) ex (d - 53)) as [mrs1 e1].
  cbn [fst snd] in M1, E1. rewrite shr_m_of_loc in M1. subst e1.
  assert (P : 0 < 2 ^ (d - 53)) by (apply Z.pow_pos_nonneg; lia).
  assert (B1 : 2 ^ 52 <= shr_m mrs1 < 2 ^ 53).
  { rewrite M1. split.
    - apply Z.div_le_lower_bound; [assumption|].
      rewrite <- Z.pow_add_r by lia.
      replace (d - 53 + 52) with (d - 1) by lia. lia.
    - apply Z.div_lt_upper_bound; [assumption|].
      rewrite <- Z.pow_add_r by lia.
      replace (d - 53 + 53) with d by lia. lia. }
  pose proof (round_nearest_even_range (shr_m mrs1) (loc_of_shr_record mrs1))
    as R.
  set (m1 := round_nearest_even (shr_m mrs1) (loc_of_shr_record mrs1)) in *.
  destruct (Z_lt_le_dec m1 (2 ^ 53)) as [C|C].
  - assert (D1 : Zdigits2 m1 = 53) by (apply Zdigits2_unique; lia).
    rewrite D1.
    assert (F2 : fexp prec emax (53 + (ex + (d - 53))) - (ex + (d - 53)) = 0).
    { unfold fexp, emin, prec, emax. change IntDef.Z.max with Z.max. lia. }
    rewrite F2. cbn [shr]. rewrite shr_m_of_loc.
    destruct m1 as [|q|q]; try lia.
    replace (ex + (d - 53) <=? emax - prec) with true
      by (symmetry; apply Z.leb_le; unfold emax, prec; lia).
    exists q, (ex + (d - 53)). split; [reflexivity|]. split; lia.
  - assert (E : m1 = 2 ^ 53) by lia.
    assert (D1 : Zdigits2 m1 = 54) by (rewrite E; reflexivity).
    rewrite D1.
    assert (F2 : fexp prec emax (54 + (ex + (d - 53))) - (ex + (d - 53)) = 1).
    { unfold fexp, emin, prec, emax. change IntDef.Z.max with Z.max. lia. }
    rewrite F2, E. cbn [shr shr_record_of_loc iter_pos].
    change (2 ^ 53) with 9007199254740992. cbn [shr_1 shr_m].
    replace (ex + (d - 53) + 1 <=? emax - prec) with true
      by (symmetry; apply Z.leb_le; unfold emax, prec; lia).
    eexists. exists (ex + (d - 53) + 1). split; [reflexivity|].
    split; [|lia]. change (2 ^ 52) with 4503599627370496.
    change (2 ^ 53) with 9007199254740992. lia.
Qed.

Lemma float_within_finite lo hi x :
  float_within lo hi x = true ->
  exists s m e, x = S754_finite s m e
                /\ 2 ^ 52 <= Z.pos m < 2 ^ 53 /\ lo <= e <= hi.
Proof.
  destruct x as [| | |s m e]; try discriminate. cbn [float_within].
  rewrite !andb_true_iff, !Z.leb_le, Z.ltb_lt. intros (((A & B) & C) & D).
  exists s, m, e. repeat split; assumption.
Qed.

Lemma float_within_intro lo hi s m e :
  2 ^ 52 <= Z.pos m < 2 ^ 53 -> lo <= e <= hi ->
  float_within lo hi (S754_finite s m e) = true.
Proof.
  intros [A B] [C D]. cbn [float_within].
  rewrite !andb_true_iff, !Z.leb_le, Z.ltb_lt. repeat split; assumption.
Qed.

Lemma float_within_normal lo hi x :
  float_within lo hi x = true -> float_is_normal x = true.
Proof.
  intros H. destruct (float_within_finite _ _ _ H) as (s & m & e & -> & B & _).
  cbn [float_is_normal]. apply Z.leb_le. lia.
Qed.

(** The product of two floats of the normal range stays in it, given room
    for the exponents. *)
Lemma fmul_within l1 h1 l2 h2 x y :
  float_within l1 h1 x = true -> float_within l2 h2 y = true ->
  -1074 <= l1 + l2 + 52 -> h1 + h2 + 54 <= 971 ->
  float_within (l1 + l2 + 52) (h1 + h2 + 54) (fmul x y) = true.
Proof.
  intros Hx Hy Hlo Hhi.
  destruct (float_within_finite _ _ _ Hx) as (sx & mx & ex & -> & Bx & Ex).
  destruct (float_within_finite _ _ _ Hy) as (sy & my & ey & -> & By & Ey).
  unfold fmul. cbn [SFmul].
  assert (Bm : 2 ^ 104 <= Z.pos (mx * my) < 2 ^ 106).
  { rewrite Pos2Z.inj_mul.
    change (2 ^ 104) with (2 ^ 52 * 2 ^ 52).
    change (2 ^ 106) with (2 ^ 53 * 2 ^ 53). nia. }
  assert (D : Zdigits2 (Z.pos (mx * my)) = 105
              \/ Zdigits2 (Z.pos (mx * my)) = 106).
  { destruct (Z_lt_le_dec (Z.pos (mx * my)) (2 ^ 105)).
    - left. apply Zdigits2_unique; [lia|]. split; [apply Bm|assumption].
    - right. apply Zdigits2_unique; [lia|]. split; [assumption|apply Bm]. }
  destruct D as [D|D];
    destruct (binary_round_aux_normal (xorb sx sy) (Z.pos (mx * my)) (ex + ey)
                loc_Exact _ ltac:(lia) D ltac:(lia) ltac:(lia) ltac:(lia))
      as (m' & e' & -> & Bm' & Be');
    apply float_within_intro; lia.
Qed.

(** So does the quotient. *)
Lemma fdiv_within l1 h1 l2 h2 x y :
  float_within l1 h1 x = true -> float_within l2 h2 y = true ->
  -1074 <= l1 - h2 - 53 -> h1 - l2 - 51 <= 971 ->
  float_within (l1 - h2 - 53) (h1 - l2 - 51) (fdiv_ieee x y) = true.
Proof.
  intros Hx Hy Hlo Hhi.
  destruct (float_within_finite _ _ _ Hx) as (sx & mx & ex & -> & Bx & Ex).
  destruct (float_within_finite _ _ _ Hy) as (sy & my & ey & -> & By & Ey).
  unfold fdiv_ieee. cbn [SFdiv].
  unfold SFdiv_core_binary.
  change IntDef.Z.min with Z.min. change IntDef.Z.shiftl with Z.shiftl.
  change IntDef.Z.div_eucl with Z.div_eucl.
  rewrite (Zdigits2_unique (Z.pos mx) 53 ltac:(lia) Bx).
  rewrite (Zdigits2_unique (Z.pos my) 53 ltac:(lia) By).
  cbv zeta.
  assert (E' : Z.min (fexp prec emax (53 + ex - (53 + ey))) (ex - ey)
               = ex - ey - 53).
  { unfold fexp, emin, prec, emax. change IntDef.Z.max with Z.max. lia. }
  rewrite E'.
  replace (ex - ey - (ex - ey - 53)) with 53 by lia.
  rewrite Z.shiftl_mul_pow2 by lia.
  pose proof (Z_div_mod (Z.pos mx * 2 ^ 53) (Z.pos my) ltac:(lia)) as DM.
  destruct (Z.div_eucl (Z.pos mx * 2 ^ 53) (Z.pos my)) as [q r].
  destruct DM as (DM & Hr).
  assert (Bq : 2 ^ 52 <= q < 2 ^ 54).
  { change (2 ^ 54) with (2 * 2 ^ 53). split; nia. }
  assert (D : Zdigits2 q = 53 \/ Zdigits2 q = 54).
  { destruct (Z_lt_le_dec q (2 ^ 53)).
    - left. apply Zdigits2_unique; [lia|]. split; [apply Bq|assumption].
    - right. apply Zdigits2_unique; [lia|]. split; [assumption|apply Bq]. }
  destruct D as [D|D];
    destruct (binary_round_aux_normal (xorb sx sy) q (ex - ey - 53)
                (new_location (Z.pos my) r) _ ltac:(lia) D ltac:(lia)
                ltac:(lia) ltac:(lia))
      as (m' & e' & -> & Bm' & Be');
    apply float_within_intro; lia.
Qed.

Lemma float_within_weaken l h l' h' x :
  l' <= l -> h <= h' -> float_within l h x = true ->
  float_within l' h' x = true.
Proof.
  intros Hl Hh H.
  destruct (float_within_finite _ _ _ H) as (s & m & e & -> & B & E).
  apply float_within_intro; lia.
Qed.

(** The floats of the table are normal, of exponents from -59 to -42. *)
Lemma binary64_factor_within a :
  In a LengthUnit ->
  exists fa,
    dict_get a (conversion_to_m (A := binary64)) = Some fa
    /\ float_within (-59) (-42) fa = true.
Proof.
  intros Ha. simpl in Ha.
  repeat destruct Ha as [<-|Ha]; try contradiction;
    (eexists; split; reflexivity).
Qed.

(** One conversion keeps a value of the normal range in it. *)
Lemma conversion_within l h x a b fa fb :
  In a LengthUnit -> In b LengthUnit ->
  dict_get a (conversion_to_m (A := binary64)) = Some fa ->
  dict_get b (conversion_to_m (A := binary64)) = Some fb ->
  -1038 <= l -> h <= 951 ->
  float_within l h x = true ->
  float_within (l - 7) (h + 12) (fmul x fa) = true
  /\ float_within (l - 18) (h + 20) (fdiv_ieee (fmul x fa) fb) = true.
Proof.
  intros Ha Hb Ea Eb Hl Hh Hx.
  destruct (binary64_factor_within a Ha) as (fa' & Ea' & Wa).
  destruct (binary64_factor_within b Hb) as (fb' & Eb' & Wb).
  assert (fa' = fa) by congruence. assert (fb' = fb) by congruence.
  subst fa' fb'.
  assert (Wp : float_within (l - 7) (h + 12) (fmul x fa) = true).
  { eapply float_within_weaken;
      [| |apply (fmul_within l h (-59) (-42) x fa Hx Wa)]; lia. }
  split; [assumption|].
  eapply float_within_weaken;
    [| |apply (fdiv_within (l - 7) (h + 12) (-59) (-42) _ fb Wp Wb)]; lia.
Qed.

(** C4, as amended.  In binary64, which is what the program computes in,
    the conversion of a finite value between two units of the enumeration
    never fails, and nor does the conversion of its result back.  For a
    normal value of a magnitude from [2^-948] to [2^953] the result is
    [v * factor(A) / factor(B)] within floating-point tolerance, [2^-50]
    of itself, and converting it back gives [v] within [2^-49].  The same
    bounds hold for every finite value whenever the products in meters and
    the results are normal floats, that is when nothing overflowed or
    underflowed.  Neither is exact in general. *)
Theorem unit_conversion_round_trip (x : float) (v : Q) (a b : pystr) :
  In a LengthUnit -> In b LengthUnit -> float_to_Q x = Some v ->
  exists r back,
    unit_conversion_tool (A := binary64) (mk_UnitConversionInput x a b)
    = Returns r
    /\ unit_conversion_tool (A := binary64) (mk_UnitConversionInput r b a)
       = Returns back
    /\ (float_is_normal (value_in_m x a) = true ->
        float_is_normal r = true ->
        exists q,
          float_to_Q r = Some q
          /\ (Qabs (q - v * factor a / factor b) <= Qabs q * 2 ^ (-50))%Q
          /\ (float_is_normal (value_in_m r b) = true ->
              float_is_normal back = true ->
              exists w,
                float_to_Q back = Some w
                /\ (Qabs (w - v) <= Qabs w * 2 ^ (-49))%Q))
    /\ (float_within (-1000) 900 x = true ->
        exists q w,
          float_to_Q r = Some q /\ float_to_Q back = Some w
          /\ (Qabs (q - v * factor a / factor b) <= Qabs q * 2 ^ (-50))%Q
          /\ (Qabs (w - v) <= Qabs w * 2 ^ (-49))%Q).
Proof.
  intros Ha Hb Hx.
  destruct (conversion_error x v a b Ha Hb Hx)
    as (r & fa & fb & qa & qb & Ea & Eb & Qa & Qb & Pa & Pb & Run & Er & Hr).
  destruct (binary64_factor_ratio b a Hb Ha)
    as (fb' & fa' & qb' & qa' & Eb' & Ea' & Za' & _).
  assert (fb' = fb) by congruence. assert (fa' = fa) by congruence.
  subst fb' fa'.
  exists r, (fdiv_ieee (fmul r fb) fa).
  split; [assumption|].
  split; [apply unit_conversion_tool_binary64_run; assumption|].
  rewrite (value_in_m_run x a fa Ea).
  assert (Chain :
    float_is_normal (fmul x fa) = true -> float_is_normal r = true ->
    exists q,
      float_to_Q r = Some q
      /\ (Qabs (q - v * factor a / factor b) <= Qabs q * 2 ^ (-50))%Q
      /\ (float_is_normal (fmul r fb) = true ->
          float_is_normal (fdiv_ieee (fmul r fb) fa) = true ->
          exists w,
            float_to_Q (fdiv_ieee (fmul r fb) fa) = Some w
            /\ (Qabs (w - v) <= Qabs w * 2 ^ (-49))%Q)).
  { intros Np Nr.
    destruct (Hr Np Nr) as (p & q & Ep & Eq & Hp & Hq & Hq').
    exists q. split; [assumption|]. split; [assumption|].
    intros Np2 Nback.
    destruct (fmul_error r fb q qb Eq Qb Np2) as (p2 & Ep2 & Hp2).
    destruct (fdiv_error (fmul r fb) fa p2 qa Ep2 Qa Nback) as (w & Ew & Hw).
    exists w. split; [assumption|].
    assert (U : (0 <= 2 ^ (-52))%Q) by apply Qlt_le_weak, pow2_pos.
    (* back to the product in meters *)
    pose proof (close_scale _ _ _ qb Hq) as S1.
    assert (E1 : (p / qb * qb == p)%Q) by (field; lra).
    rewrite E1 in S1.
    pose proof (close_trans _ _ p2 (q * qb) p U U Hp2 S1) as T1.
    assert (U2 : (0 <= 2 ^ (-52) + 2 ^ (-52) + 2 ^ (-52) * 2 ^ (-52))%Q)
      by (apply Qle_bool_imp_le; reflexivity).
    pose proof (close_trans _ _ p2 p (v * qa) U2 U T1 Hp) as T2.
    (* and to the value *)
    pose proof (close_scale _ _ _ (/ qa) T2) as S2.
    assert (E2 : (v * qa * / qa == v)%Q) by (field; lra).
    rewrite E2 in S2.
    assert (U3 : (0 <= 2 ^ (-52) + 2 ^ (-52) + 2 ^ (-52) * 2 ^ (-52)
                       + 2 ^ (-52)
                       + (2 ^ (-52) + 2 ^ (-52) + 2 ^ (-52) * 2 ^ (-52))
                         * 2 ^ (-52))%Q)
      by (apply Qle_bool_imp_le; reflexivity).
    pose proof (close_trans _ _ w (p2 / qa) v U U3 Hw S2) as T3.
    eapply close_weaken; [|exact T3]. apply Qle_bool_imp_le. vm_compute.
    reflexivity. }
  split.
  - rewrite (value_in_m_run r b fb Eb). exact Chain.
  - intros Wx.
    destruct (conversion_within (-1000) 900 x a b fa fb Ha Hb Ea Eb
                ltac:(lia) ltac:(lia) Wx) as (Wp & Wr).
    rewrite <- Er in Wr.
    destruct (conversion_within (-1000 - 18) (900 + 20) r b a fb fa Hb Ha Eb Ea
                ltac:(lia) ltac:(lia) Wr) as (Wp2 & Wback).
    destruct (Chain (float_within_normal _ _ _ Wp)
                (float_within_normal _ _ _ Wr)) as (q & Eq & Hq & Back).
    destruct (Back (float_within_normal _ _ _ Wp2)
                (float_within_normal _ _ _ Wback)) as (w & Ew & Hw).
    exists q, w. repeat split; assumption.
Qed.

(** ** Dates *)

Lemma toordinal_fromordinal n : toordinal (fromordinal n) = n.
Proof. apply (ord2ymd_spec n). Qed.

Lemma days_before_year_mono y1 y2 :
  y1 <= y2 -> days_before_year y1 <= days_before_year y2.
Proof.
  intros H. unfold days_before_year. cbv zeta.
  Z.div_mod_to_equations. lia.
Qed.

Lemma fromordinal_valid n :
  1 <= n <= MAXORDINAL -> valid_date (fromordinal n) = true.
Proof.
  intros Hn. unfold fromordinal.
  destruct (ord2ymd_spec n) as (_ & Hm & Hd & Hy).
  set (d := ord2ymd n) in *.
  assert (Y1 : 1 <= year d).
  { destruct (Z_lt_le_dec (year d) 1) as [Hlt|]; [|assumption].
    pose proof (days_before_year_mono (year d + 1) 1 ltac:(lia)) as M.
    change (days_before_year 1) with 0 in M. lia. }
  assert (Y2 : year d <= 9999).
  { destruct (Z_lt_le_dec 9999 (year d)) as [Hlt|]; [|assumption].
    pose proof (days_before_year_mono 10000 (year d) ltac:(lia)) as M.
    change (days_before_year 10000) with 3652059 in M.
    unfold MAXORDINAL in Hn. lia. }
  unfold valid_date, MINYEAR, MAXYEAR.
  repeat (apply andb_true_intro; split); apply Z.leb_le; lia.
Qed.

Lemma month_length_fits y m d :
  1 <= m <= 12 -> 1 <= d <= days_in_month y m ->
  1 <= days_before_month y m + d <= 365 + (if is_leap y then 1 else 0).
Proof.
  intros Hm Hd. unfold days_before_month, days_in_month in *.
  assert (C : m = 1 \/ m = 2 \/ m = 3 \/ m = 4 \/ m = 5 \/ m = 6 \/ m = 7
              \/ m = 8 \/ m = 9 \/ m = 10 \/ m = 11 \/ m = 12) by lia.
  destruct (is_leap y);
    repeat (destruct C as [C|C]; [subst m; cbn -[Z.add Z.sub] in *; lia|]);
    subst m; cbn -[Z.add Z.sub] in *; lia.
Qed.

Lemma valid_date_bounds d :
  valid_date d = true ->
  1 <= year d <= 9999 /\ 1 <= month d <= 12
  /\ 1 <= day d <= days_in_month (year d) (month d).
Proof.
  unfold valid_date, MINYEAR, MAXYEAR. intros H.
  repeat (apply andb_prop in H; destruct H as [H ?]).
  repeat match goal with H : (_ <=? _) = true |- _ => apply Z.leb_le in H end.
  lia.
Qed.

Lemma toordinal_range d :
  valid_date d = true -> 1 <= toordinal d <= MAXORDINAL.
Proof.
  intros H. apply valid_date_bounds in H. destruct H as (Hy & Hm & Hd).
  pose proof (month_length_fits (year d) (month d) (day d) Hm Hd) as F.
  pose proof (days_before_year_succ (year d)) as S.
  pose proof (days_before_year_mono 1 (year d) ltac:(lia)) as M1.
  pose proof (days_before_year_mono (year d + 1) 10000 ltac:(lia)) as M2.
  change (days_before_year 1) with 0 in M1.
  change (days_before_year 10000) with 3652059 in M2.
  unfold toordinal, ymd2ord, MAXORDINAL. lia.
Qed.

Lemma digit_val_digit k : 0 <= k <= 9 -> digit_val (digit k) = Some k.
Proof.
  intros H. unfold digit_val, digit.
  assert (E : ((48 <=? Z.to_N (48 + k)) && (Z.to_N (48 + k) <=? 57))%N = true).
  { apply andb_true_intro; split; apply N.leb_le; lia. }
  rewrite E. f_equal. lia.
Qed.

Lemma fromisoformat_isoformat d :
  valid_date d = true -> date_fromisoformat (isoformat d) = Some d.
Proof.
  intros V. pose proof (valid_date_bounds d V) as (Hy & Hm & Hd).
  assert (Hd' : day d <= 31).
  { unfold days_in_month in Hd.
    destruct ((month d =? 2) && is_leap (year d)); [lia|].
    assert (C : month d = 1 \/ month d = 2 \/ month d = 3 \/ month d = 4
                \/ month d = 5 \/ month d = 6 \/ month d = 7 \/ month d = 8
                \/ month d = 9 \/ month d = 10 \/ month d = 11
                \/ month d = 12) by lia.
    repeat (destruct C as [C|C]; [rewrite C in Hd; cbn -[Z.add Z.sub] in Hd; lia|]).
    rewrite C in Hd; cbn -[Z.add Z.sub] in Hd; lia. }
  unfold isoformat, date_fromisoformat. cbv zeta.
  rewrite !digit_val_digit
    by (match goal with |- 0 <= ?a mod 10 <= 9 =>
          pose proof (Z.mod_pos_bound a 10 ltac:(lia)); lia end).
  change ((45 =? 45)%N) with true. cbn [andb].
  match goal with
  | |- (if valid_date ?r then _ else _) = _ =>
      assert (E : r = d); [|rewrite E, V; reflexivity]
  end.
  destruct d as [y m dd]. cbn [year month day] in *.
  f_equal; Z.div_mod_to_equations; lia.
Qed.

Lemma date_add_in_range d k :
  1 <= toordinal d + k <= MAXORDINAL ->
  date_add d k = Returns (fromordinal (toordinal d + k)).
Proof.
  intros H. unfold date_add.
  assert (E : (0 <? toordinal d + k) && (toordinal d + k <=? MAXORDINAL) = true).
  { apply andb_true_intro; split; [apply Z.ltb_lt|apply Z.leb_le]; lia. }
  rewrite E. reflexivity.
Qed.

Lemma date_add_out_of_range d k :
  ~ (1 <= toordinal d + k <= MAXORDINAL) ->
  date_add d k = Raises (mk_exn OverflowError (py "date value out of range")).
Proof.
  intros H. unfold date_add.
  assert (E : (0 <? toordinal d + k) && (toordinal d + k <=? MAXORDINAL) = false).
  { apply andb_false_iff.
    destruct (Z.ltb_spec 0 (toordinal d + k)); [right|left; reflexivity].
    apply Z.leb_gt. lia. }
  rewrite E. reflexivity.
Qed.

Lemma timedelta_in_range k :
  Z.abs k <= 999999999 -> timedelta k = Returns k.
Proof.
  intros H. unfold timedelta.
  destruct (Z.leb_spec (Z.abs k) 999999999); [reflexivity|lia].
Qed.

Lemma timedelta_out_of_range k :
  ~ Z.abs k <= 999999999 -> exists text, timedelta k = Raises (mk_exn OverflowError text).
Proof.
  intros H. unfold timedelta.
  destruct (Z.leb_spec (Z.abs k) 999999999); [lia|].
  destruct (_ && _); eexists; reflexivity.
Qed.

(** Earlier in the calendar means a smaller ordinal. *)
Lemma toordinal_increasing a b :
  valid_date a = true -> valid_date b = true ->
  date_before a b -> toordinal a < toordinal b.
Proof.
  intros Va Vb H.
  apply valid_date_bounds in Va. destruct Va as (Hya & Hma & Hda).
  apply valid_date_bounds in Vb. destruct Vb as (Hyb & Hmb & Hdb).
  pose proof (month_length_fits _ _ _ Hma Hda) as Fa.
  pose proof (month_length_fits _ _ _ Hmb Hdb) as Fb.
  unfold toordinal, ymd2ord.
  destruct H as [Hy|[(Hy & Hm)|(Hy & Hm & Hd)]].
  - pose proof (days_before_year_succ (year a)) as S.
    pose proof (days_before_year_mono (year a + 1) (year b) ltac:(lia)) as M.
    lia.
  - rewrite Hy in *. clear Fa Fb.
    unfold days_before_month, days_in_month in *.
    assert (Ca : month a = 1 \/ month a = 2 \/ month a = 3 \/ month a = 4
                 \/ month a = 5 \/ month a = 6 \/ month a = 7 \/ month a = 8
                 \/ month a = 9 \/ month a = 10 \/ month a = 11
                 \/ month a = 12) by lia.
    assert (Cb : month b = 1 \/ month b = 2 \/ month b = 3 \/ month b = 4
                 \/ month b = 5 \/ month b = 6 \/ month b = 7 \/ month b = 8
                 \/ month b = 9 \/ month b = 10 \/ month b = 11
                 \/ month b = 12) by lia.
    destruct (is_leap (year b));
      repeat (destruct Ca as [Ca|Ca]; [|]);
      rewrite Ca in *;
      repeat (destruct Cb as [Cb|Cb]; [|]);
      rewrite Cb in *; cbn -[Z.add Z.sub] in *; lia.
  - rewrite Hy, Hm. lia.
Qed.

Section DateToolFacts.
Context {RT : Runtime}.

Lemma date_tool_get_current b n s :
  date_tool (mk_DateInput (py "get_current") b n s) = Returns (isoformat today).
Proof. reflexivity. Qed.

Lemma date_tool_add_days b n s :
  date_tool (mk_DateInput (py "add_days") b n s)
  = match b, n with
    | Some base, Some k =>
        delta <- timedelta k ;;
        new_date <- date_add base delta ;;
        Returns (isoformat new_date)
    | _, _ => Raises (mk_exn ValueError
                (py "base_date and days are required for add_days"))
    end.
Proof. reflexivity. Qed.

Lemma date_tool_subtract_days b n s :
  date_tool (mk_DateInput (py "subtract_days") b n s)
  = match b, n with
    | Some base, Some k =>
        delta <- timedelta k ;;
        new_date <- date_sub_delta base delta ;;
        Returns (isoformat new_date)
    | _, _ => Raises (mk_exn ValueError
                (py "base_date and days are required for subtract_days"))
    end.
Proof. reflexivity. Qed.

Lemma date_tool_diff_days b n s :
  date_tool (mk_DateInput (py "diff_days") b n s)
  = match b, s with
    | Some base, Some second => Returns (str_int (date_diff_days second base))
    | _, _ => Raises (mk_exn ValueError
                (py "base_date and second_date are required for diff_days"))
    end.
Proof. reflexivity. Qed.

Lemma date_tool_invalid_operation op b n s :
  ~ In op DateOperation ->
  date_tool (mk_DateInput op b n s)
  = Raises (mk_exn ValueError (py "Invalid date operation")).
Proof.
  intros H. unfold date_tool. cbn [operation].
  assert (E : forall t, In t DateOperation -> pystr_eqb op t = false).
  { intros t Ht. apply pystr_eqb_neq. intros ->. contradiction. }
  rewrite !E by (simpl; auto 6). reflexivity.
Qed.

(** A shift by [k] days: the new date when it exists, an overflow
    otherwise. *)
Lemma shift_in_range base k :
  within_range base k ->
  (delta <- timedelta k ;;
   new_date <- date_add base delta ;;
   Returns (isoformat new_date))
  = Returns (isoformat (fromordinal (toordinal base + k))).
Proof.
  intros [Hk Ho]. rewrite timedelta_in_range by assumption. cbn [bind].
  rewrite date_add_in_range by assumption. reflexivity.
Qed.

Lemma shift_out_of_range base k :
  ~ within_range base k ->
  exists text,
    (delta <- timedelta k ;;
     new_date <- date_add base delta ;;
     Returns (isoformat new_date))
    = Raises (mk_exn OverflowError text).
Proof.
  intros H. destruct (Z_le_gt_dec (Z.abs k) 999999999) as [Hk|Hk].
  - rewrite timedelta_in_range by assumption. cbn [bind].
    rewrite date_add_out_of_range; [eexists; reflexivity|].
    intros Ho. apply H. split; assumption.
  - destruct (timedelta_out_of_range k ltac:(lia)) as (text & ->).
    exists text. reflexivity.
Qed.
End DateToolFacts.

(** C5, as amended.  Adding [n] days to [base] and then taking the
    difference between [base] and the date obtained (read back from the
    text [add_days] returned, as validation does) gives [n], for every
    [n], negative or not, that keeps [base + n] within the calendar,
    0001-01-01 to 9999-12-31.  [diff_days] returns the number of days from
    [base_date] to [second_date] as text, negative when [second_date] is
    the earlier of the two. *)
Theorem add_days_then_diff_days {RT : Runtime} (base : date) (n : Z) :
  valid_date base = true ->
  1 <= toordinal base + n <= MAXORDINAL ->
  (exists result second,
     date_tool (mk_DateInput (py "add_days") (Some base) (Some n) None)
     = Returns result
     /\ field_date (JStr result) = Some second
     /\ date_tool (mk_DateInput (py "diff_days") (Some base) None (Some second))
        = Returns (str_int n))
  /\ (forall second,
        date_tool (mk_DateInput (py "diff_days") (Some base) None (Some second))
        = Returns (str_int (toordinal second - toordinal base))
        /\ (valid_date second = true -> date_before second base ->
            toordinal second - toordinal base < 0)).
Proof.
  intros V Ho. split.
  - pose proof (toordinal_range base V) as Rb.
    assert (W : within_range base n).
    { split; [unfold MAXORDINAL in *; lia|assumption]. }
    exists (isoformat (fromordinal (toordinal base + n))),
           (fromordinal (toordinal base + n)).
    split; [|split].
    + rewrite date_tool_add_days. apply shift_in_range. assumption.
    + unfold field_date.
      rewrite fromisoformat_isoformat by (apply fromordinal_valid; assumption).
      reflexivity.
    + rewrite date_tool_diff_days. unfold date_diff_days.
      rewrite toordinal_fromordinal. f_equal. f_equal. lia.
  - intros second. split.
    + rewrite date_tool_diff_days. reflexivity.
    + intros Vs Hb.
      pose proof (toordinal_increasing second base Vs V Hb). lia.
Qed.

(** C7, as amended.  [date_tool] fails naming the fields when a field the
    operation needs is absent, and fails with "Invalid date operation" for an
    operation outside the four.  Otherwise [get_current] and [diff_days]
    succeed, and [add_days] and [subtract_days] succeed exactly when the
    shift is one the calendar can carry out: at most 999999999 days in
    magnitude and landing between 0001-01-01 and 9999-12-31; beyond that
    they fail with an [OverflowError]. *)
Theorem date_tool_outcomes {RT : Runtime} (input : DateInput) :
  (forall op, operation input = op ->
     (op = py "add_days" \/ op = py "subtract_days") ->
     (base_date input = None \/ days input = None) ->
     date_tool input
     = Raises (mk_exn ValueError
                 (py "base_date and days are required for " ++ op)))
  /\ (operation input = py "diff_days" ->
      (base_date input = None \/ second_date input = None) ->
      date_tool input
      = Raises (mk_exn ValueError
                  (py "base_date and second_date are required for diff_days")))
  /\ (~ In (operation input) DateOperation ->
      date_tool input = Raises (mk_exn ValueError (py "Invalid date operation")))
  /\ (operation input = py "get_current" ->
      date_tool input = Returns (isoformat today))
  /\ (forall base second,
        operation input = py "diff_days" ->
        base_date input = Some base -> second_date input = Some second ->
        date_tool input = Returns (str_int (toordinal second - toordinal base)))
  /\ (forall base n shift,
        (operation input = py "add_days" /\ shift = n
         \/ operation input = py "subtract_days" /\ shift = - n) ->
        base_date input = Some base -> days input = Some n ->
        (within_range base shift ->
         date_tool input
         = Returns (isoformat (fromordinal (toordinal base + shift))))
        /\ (~ within_range base shift ->
            exists text, date_tool input = Raises (mk_exn OverflowError text))).
Proof.
  destruct input as [op b n s]. cbn [operation base_date days second_date].
  split; [|split; [|split; [|split; [|split]]]].
  - intros op' <- [->| ->] Hm.
    + rewrite date_tool_add_days.
      destruct Hm as [->| ->]; [reflexivity|destruct b; reflexivity].
    + rewrite date_tool_subtract_days.
      destruct Hm as [->| ->]; [reflexivity|destruct b; reflexivity].
  - intros -> Hm. rewrite date_tool_diff_days.
    destruct Hm as [->| ->]; [reflexivity|destruct b; reflexivity].
  - apply date_tool_invalid_operation.
  - intros ->. apply date_tool_get_current.
  - intros base second -> -> ->. apply date_tool_diff_days.
  - intros base k shift Hop -> ->.
    destruct Hop as [(-> & ->)|(-> & ->)].
    + rewrite date_tool_add_days. split.
      * apply shift_in_range.
      * apply shift_out_of_range.
    + rewrite date_tool_subtract_days. unfold date_sub_delta. split.
      * intros [Hk Ho]. rewrite Z.abs_opp in Hk.
        rewrite timedelta_in_range by assumption. cbn [bind].
        rewrite date_add_in_range by assumption. reflexivity.
      * intros Hw.
        destruct (Z_le_gt_dec (Z.abs k) 999999999) as [Hk|Hk].
        -- rewrite timedelta_in_range by assumption. cbn [bind].
           rewrite date_add_out_of_range; [eexists; reflexivity|].
           intros Ho. apply Hw. split; [rewrite Z.abs_opp|]; assumption.
        -- destruct (timedelta_out_of_range k ltac:(lia)) as (text & ->).
           exists text. reflexivity.
Qed.

(** ** Counting *)

Lemma is_prefix_occurs sub s :
  is_prefix sub s = true <-> occurs_at sub s 0.
Proof.
  unfold occurs_at. cbn [skipn]. revert s.
  induction sub as [|a sub IH]; intros s; simpl.
  - split; reflexivity.
  - destruct s as [|b s]; simpl.
    + split; discriminate.
    + rewrite andb_true_iff, N.eqb_eq, IH. split.
      * intros [-> ->]. reflexivity.
      * intros H. injection H as -> H. rewrite H. split; reflexivity.
Qed.

Lemma occurs_at_cons sub c s i :
  occurs_at sub (c :: s) (S i) <-> occurs_at sub s i.
Proof. unfold occurs_at. reflexivity. Qed.

Lemma disjoint_weaken sub s start start' ps :
  (start' <= start)%nat ->
  disjoint_from sub s start ps -> disjoint_from sub s start' ps.
Proof.
  intros Hle H. inversion H as [|? i rest Hi Ho Hr]; subst.
  - constructor.
  - constructor; [lia|assumption|assumption].
Qed.

Lemma disjoint_shift sub c s ps : forall start,
  disjoint_from sub s start ps ->
  disjoint_from sub (c :: s) (S start) (map S ps).
Proof.
  induction ps as [|i rest IH]; intros start H; simpl.
  - constructor.
  - inversion H as [|? ? ? Hi Ho Hr]; subst.
    constructor; [lia|apply occurs_at_cons; assumption|].
    apply (IH (i + List.length sub)%nat). assumption.
Qed.

Lemma disjoint_unshift sub c s ps : forall start,
  disjoint_from sub (c :: s) (S start) ps ->
  exists ps', ps = map S ps' /\ disjoint_from sub s start ps'.
Proof.
  induction ps as [|i rest IH]; intros start H.
  - exists []. split; [reflexivity|constructor].
  - inversion H as [|? ? ? Hi Ho Hr]; subst.
    destruct i as [|i]; [lia|].
    apply occurs_at_cons in Ho.
    destruct (IH (i + List.length sub)%nat Hr) as (rest' & -> & Hr').
    exists (i :: rest'). split; [reflexivity|].
    constructor; [lia|assumption|assumption].
Qed.

(** The scan finds as many occurrences as can be fitted side by side. *)
Lemma count_scan_maximum sub : sub <> [] -> forall s skip,
  (exists ps, disjoint_from sub s skip ps
              /\ List.length ps = count_scan sub s skip)
  /\ (forall ps, disjoint_from sub s skip ps ->
        (List.length ps <= count_scan sub s skip)%nat).
Proof.
  intros Hsub.
  assert (Hlen : (1 <= List.length sub)%nat).
  { destruct sub; [congruence|simpl; lia]. }
  induction s as [|c s IH]; intros skip.
  - simpl. split.
    + exists []. split; [constructor|reflexivity].
    + intros ps H. inversion H as [|start i rest Hi Ho Hr]; subst; [simpl; lia|].
      exfalso. unfold occurs_at in Ho. rewrite skipn_nil, firstn_nil in Ho.
      congruence.
  - destruct skip as [|k].
    + cbn [count_scan]. destruct (is_prefix sub (c :: s)) eqn:Hp.
      * destruct (IH (List.length sub - 1)%nat) as ((ps & Hps & Hn) & Hmax).
        split.
        -- exists (O :: map S ps). split.
           ++ constructor; [lia|apply is_prefix_occurs; assumption|].
              replace (0 + List.length sub)%nat
                with (S (List.length sub - 1)) by lia.
              apply disjoint_shift. assumption.
           ++ simpl. rewrite length_map. congruence.
        -- intros qs H. inversion H as [|start i rest Hi Ho Hr]; subst; [simpl; lia|].
           simpl.
           apply (disjoint_weaken _ _ _ (S (List.length sub - 1))) in Hr;
             [|lia].
           apply disjoint_unshift in Hr. destruct Hr as (rest' & -> & Hr).
           rewrite length_map. apply Hmax in Hr. lia.
      * destruct (IH O) as ((ps & Hps & Hn) & Hmax). split.
        -- exists (map S ps). split.
           ++ apply (disjoint_weaken _ _ 1%nat); [lia|].
              apply disjoint_shift. assumption.
           ++ rewrite length_map. assumption.
        -- intros qs H.
           assert (H1 : disjoint_from sub (c :: s) 1 qs).
           { inversion H as [|start i rest Hi Ho Hr]; subst; [constructor|].
             constructor; [|assumption|assumption].
             destruct i; [|lia].
             apply is_prefix_occurs in Ho. congruence. }
           apply disjoint_unshift in H1. destruct H1 as (qs' & -> & Hq).
           rewrite length_map. apply Hmax. assumption.
    + cbn [count_scan]. destruct (IH k) as ((ps & Hps & Hn) & Hmax). split.
      * exists (map S ps). split; [apply disjoint_shift; assumption|].
        rewrite length_map. assumption.
      * intros qs H. apply disjoint_unshift in H.
        destruct H as (qs' & -> & Hq). rewrite length_map.
        apply Hmax. assumption.
Qed.

Lemma str_count_empty s : str_count s [] = Z.of_nat (List.length s) + 1.
Proof. reflexivity. Qed.

Lemma str_count_scan s sub :
  sub <> [] -> str_count s sub = Z.of_nat (count_scan sub s O).
Proof. destruct sub; [congruence|reflexivity]. Qed.

(** Lower-casing ASCII text keeps its length. *)
Lemma lower_length_ascii t :
  Forall (fun c => (c < 128)%N) t -> List.length (lower t) = List.length t.
Proof.
  induction 1 as [|c t Hc Ht IH]; [reflexivity|].
  unfold lower in *. cbn [flat_map]. rewrite length_app, IH.
  unfold lower_code_point.
  destruct ((65 <=? c) && (c <=? 90))%N; [reflexivity|].
  destruct ((192 <=? c) && (c <=? 222) && negb (c =? 215))%N; [reflexivity|].
  destruct (N.eqb_spec c 304); [lia|reflexivity].
Qed.

Lemma text_analysis_tool_sentence {RT : Runtime} input :
  text_analysis_tool input
  = sentence (character input)
      (str_count
         (if case_sensitive input then text input else str_lower (text input))
         (if case_sensitive input then character input
          else str_lower (character input)))
      (text input).
Proof. reflexivity. Qed.

Lemma new_TextAnalysisInput_defaults {RT : Runtime} t c :
  new_TextAnalysisInput (JDict [(py "text", JStr t); (py "character", JStr c)])
  = Returns (mk_TextAnalysisInput t c false).
Proof. reflexivity. Qed.

Lemma count_scan_single c s :
  count_scan [c] s O = count_occ N.eq_dec s c.
Proof.
  induction s as [|x s IH]; [reflexivity|].
  cbn [count_scan is_prefix List.length Nat.sub count_occ].
  rewrite andb_true_r, IH.
  destruct (N.eqb_spec c x) as [->|Hne].
  - destruct (N.eq_dec x x); [reflexivity|contradiction].
  - destruct (N.eq_dec x c); [subst; contradiction|reflexivity].
Qed.


Lemma lower_ascii t :
  Forall (fun c => (c < 128)%N) t -> lower t = map ascii_lower t.
Proof.
  induction 1 as [|c t Hc Ht IH]; [reflexivity|].
  unfold lower in *. cbn [flat_map map]. rewrite IH.
  unfold lower_code_point, ascii_lower.
  destruct ((65 <=? c) && (c <=? 90))%N; [reflexivity|].
  destruct (N.leb_spec 192 c); [lia|]. cbn [andb].
  destruct (N.eqb_spec c 304); [lia|reflexivity].
Qed.

(** The positions that hold a letter, in either case. *)
Lemma count_occ_ascii_lower t c :
  (65 <= c <= 90)%N ->
  count_occ N.eq_dec (map ascii_lower t) (c + 32)%N
  = (count_occ N.eq_dec t c + count_occ N.eq_dec t (c + 32)%N)%nat.
Proof.
  intros Hc. induction t as [|x t IH]; [reflexivity|].
  cbn [map].
  destruct (N.eq_dec x c) as [->|Hxc].
  - assert (Hy : ascii_lower c = (c + 32)%N).
    { unfold ascii_lower.
      replace ((65 <=? c) && (c <=? 90))%N with true; [reflexivity|].
      symmetry. apply andb_true_intro. split; apply N.leb_le; lia. }
    rewrite Hy, !count_occ_cons_eq by reflexivity.
    rewrite (count_occ_cons_neq N.eq_dec t (x := c) (y := (c + 32)%N)) by lia.
    rewrite IH, ?(count_occ_cons_eq N.eq_dec t (eq_refl c)). lia.
  - destruct (N.eq_dec x (c + 32)) as [->|Hxl].
    + assert (Hy : ascii_lower (c + 32) = (c + 32)%N).
      { unfold ascii_lower.
        replace ((65 <=? c + 32) && (c + 32 <=? 90))%N with false;
          [reflexivity|].
        symmetry. apply andb_false_intro2. apply N.leb_gt. lia. }
      rewrite Hy, !count_occ_cons_eq by reflexivity.
      rewrite (count_occ_cons_neq N.eq_dec t (x := (c + 32)%N) (y := c)) by lia.
      rewrite IH, (count_occ_cons_eq N.eq_dec t (eq_refl (c + 32)%N)). lia.
    + assert (Hy : ascii_lower x <> (c + 32)%N).
      { unfold ascii_lower.
        destruct ((65 <=? x) && (x <=? 90))%N; [lia|assumption]. }
      rewrite !count_occ_cons_neq by assumption. apply IH.
Qed.


(** C10, as amended.  An empty character string passes validation, and the
    count reported is the length of the text as it is compared, plus one:
    the length of the text itself when [case_sensitive] is true, the length
    of the lower-cased text otherwise.  The two agree whenever lower-casing
    keeps the length, as it does on ASCII text. *)
Theorem empty_character_count {RT : Runtime} (t : pystr) :
  new_TextAnalysisInput (JDict [(py "text", JStr t); (py "character", JStr [])])
  = Returns (mk_TextAnalysisInput t [] false)
  /\ text_analysis_tool (mk_TextAnalysisInput t [] true)
     = sentence [] (Z.of_nat (List.length t) + 1) t
  /\ text_analysis_tool (mk_TextAnalysisInput t [] false)
     = sentence [] (Z.of_nat (List.length (str_lower t)) + 1) t
  /\ (List.length (str_lower t) = List.length t ->
      text_analysis_tool (mk_TextAnalysisInput t [] false)
      = sentence [] (Z.of_nat (List.length t) + 1) t)
  /\ (Forall (fun c => (c < 128)%N) t ->
      text_analysis_tool (RT := cpython new_year plain_service)
        (mk_TextAnalysisInput t [] false)
      = sentence [] (Z.of_nat (List.length t) + 1) t).
Proof.
  assert (L : text_analysis_tool (mk_TextAnalysisInput t [] false)
              = sentence [] (Z.of_nat (List.length (str_lower t)) + 1) t).
  { rewrite text_analysis_tool_sentence. cbn [case_sensitive text character].
    rewrite str_lower_empty. reflexivity. }
  split; [|split; [|split; [|split]]].
  - apply new_TextAnalysisInput_defaults.
  - reflexivity.
  - exact L.
  - intros E. rewrite L, E. reflexivity.
  - intros A. rewrite text_analysis_tool_sentence.
    cbn [case_sensitive text character str_lower cpython].
    change (lower []) with (@nil N). rewrite str_count_empty.
    rewrite (lower_length_ascii t A). reflexivity.
Qed.

(** ** The conversation loop *)

Section LoopFacts.
Context {RT : Runtime}.

Lemma tool_messages_cons c calls r results :
  tool_messages (c :: calls) (r :: results)
  = ToolMessage (call_id c) r :: tool_messages calls results.
Proof. reflexivity. Qed.

(** The [for] loop ends normally exactly when every payload decodes and every
    dispatch returns; it has then appended the results in order. *)
Lemma handle_tool_calls_returns calls : forall messages out,
  handle_tool_calls calls messages = Returns out
  <-> exists results,
        answered calls results /\ out = messages ++ tool_messages calls results.
Proof.
  induction calls as [|c calls IH]; intros messages out.
  - simpl. split.
    + intros H. injection H as <-. exists []. split; [constructor|].
      unfold tool_messages. simpl. rewrite app_nil_r. reflexivity.
    + intros (results & Ha & ->). inversion Ha; subst.
      unfold tool_messages. simpl. rewrite app_nil_r. reflexivity.
  - cbn [handle_tool_calls]. split.
    + intros H.
      destruct (json_loads (function_arguments c)) as [params|e|] eqn:Ej;
        cbn [bind] in H; try discriminate.
      destruct (call_tool (function_name c) params) as [r|e|] eqn:Ec;
        cbn [bind] in H; try discriminate.
      apply IH in H. destruct H as (results & Ha & ->).
      exists (r :: results). split.
      * constructor; [|assumption]. exists params. split; assumption.
      * rewrite tool_messages_cons, <- app_assoc. reflexivity.
    + intros (results & Ha & ->). inversion Ha as [|? r ? results' Hc Hr]; subst.
      destruct Hc as (params & Ej & Ec). rewrite Ej. cbn [bind].
      rewrite Ec. cbn [bind]. apply IH. exists results'. split; [assumption|].
      rewrite tool_messages_cons, <- app_assoc. reflexivity.
Qed.

Lemma answered_length calls results :
  answered calls results -> List.length results = List.length calls.
Proof. intros H. symmetry. apply (Forall2_length H). Qed.

Lemma tool_messages_length calls results :
  List.length results = List.length calls ->
  List.length (tool_messages calls results) = List.length calls.
Proof.
  intros H. unfold tool_messages. rewrite length_map, length_combine. lia.
Qed.

(** A round that does not end the run by an exception leaves the transcript
    it was given, extended. *)
Lemma conversation_round_extends messages :
  match conversation_round messages with
  | Continue out | Break out => exists appended, out = messages ++ appended
  | _ => True
  end.
Proof.
  unfold conversation_round.
  destruct (chat_complete messages) as [turn|e|]; [|exact I|exact I].
  destruct (requested turn) as [|c calls] eqn:Er.
  - eexists. reflexivity.
  - destruct (handle_tool_calls (c :: calls) _) as [out|e|] eqn:Eh;
      [|exact I|exact I].
    apply handle_tool_calls_returns in Eh. destruct Eh as (results & _ & ->).
    rewrite <- app_assoc. eexists. reflexivity.
Qed.

Lemma conversation_loop_extends fuel : forall messages final,
  conversation_loop fuel messages = Some (Returns final) ->
  exists appended, final = messages ++ appended.
Proof.
  induction fuel as [|fuel IH]; intros messages final H; [discriminate|].
  cbn [conversation_loop] in H.
  pose proof (conversation_round_extends messages) as E.
  destruct (conversation_round messages) as [out|out|e|]; try discriminate.
  - destruct E as (a1 & ->). apply IH in H. destruct H as (a2 & ->).
    rewrite <- app_assoc. eexists. reflexivity.
  - injection H as <-. exact E.
Qed.
End LoopFacts.


(** ** The expression parser *)

Lemma derives_head lv ts e :
  derives lv ts e ->
  exists t r, ts = t :: r /\ t <> TRParen.
Proof.
  induction 1;
    try (eexists; eexists; split; [reflexivity|discriminate]);
    try assumption;
    match goal with
    | IH : exists t r, ?ts1 = t :: r /\ _ |- _ =>
        destruct IH as (t & r & -> & Ht);
        eexists; eexists; split; [reflexivity|exact Ht]
    end.
Qed.

Lemma term_loop_done fuel e rest :
  (0 < fuel)%nat -> no_factor rest -> term_loop fuel e rest = Ok (e, rest).
Proof.
  intros Hf Hr. destruct fuel; [lia|].
  destruct rest as [|[] rest]; simpl in *; try reflexivity; contradiction.
Qed.

Lemma sum_loop_done fuel e rest :
  (0 < fuel)%nat ->
  match rest with TPlus :: _ | TMinus :: _ => False | _ => True end ->
  sum_loop fuel e rest = Ok (e, rest).
Proof.
  intros Hf Hr. destruct fuel; [lia|].
  destruct rest as [|[] rest]; simpl in *; try reflexivity; contradiction.
Qed.

Lemma atom_end_ok e rest : no_call rest -> atom_end e rest = Ok (e, rest).
Proof.
  destruct rest as [|[] rest]; simpl; try reflexivity; contradiction.
Qed.

(** The parser follows every derivation of the grammar: a factor is read
    whole, a term and a sum are read up to the point where their loops look
    for a further operator. *)
Lemma parse_follows lv ts e :
  derives lv ts e ->
  forall rest fuel, no_call rest ->
    match lv with
    | LFactor =>
        (3 * List.length (ts ++ rest) + 1 <= fuel)%nat ->
        parse_factor fuel (ts ++ rest) = Ok (e, rest)
    | LTerm =>
        (3 * List.length (ts ++ rest) + 2 <= fuel)%nat ->
        exists fuel', (3 * List.length rest + 1 <= fuel')%nat
                      /\ parse_term fuel (ts ++ rest) = term_loop fuel' e rest
    | LSum =>
        no_factor rest ->
        (3 * List.length (ts ++ rest) + 3 <= fuel)%nat ->
        exists fuel', (3 * List.length rest + 1 <= fuel')%nat
                      /\ parse_sum fuel (ts ++ rest) = sum_loop fuel' e rest
    end.
Proof.
  induction 1 as
    [ n
    | ts e Hd IH
    | ts e Hd IH
    | ts e Hd IH
    | ts e Hd IH
    | ts1 ts2 e1 e2 Hd1 IH1 Hd2 IH2
    | ts1 ts2 e1 e2 Hd1 IH1 Hd2 IH2
    | ts e Hd IH
    | ts1 ts2 e1 e2 Hd1 IH1 Hd2 IH2
    | ts1 ts2 e1 e2 Hd1 IH1 Hd2 IH2 ];
    intros rest fuel Hcall.
  - (* number *)
    intros Hf. destruct fuel as [|f]; [simpl in Hf; lia|].
    simpl. apply atom_end_ok. assumption.
  - (* parentheses *)
    intros Hf. destruct fuel as [|f]; [simpl in Hf; lia|].
    destruct (derives_head _ _ _ Hd) as (t & r & -> & Ht).
    assert (IH' := IH (TRParen :: rest) f I I).
    cbn [app] in *. rewrite <- !app_assoc in *. cbn [app] in *.
    destruct IH' as (f' & Hf' & E).
    { cbn [List.length] in *. rewrite !length_app in *.
      cbn [List.length] in *. lia. }
    cbn [parse_factor].
    destruct t; try congruence;
      rewrite E, (sum_loop_done f' e (TRParen :: rest)) by (simpl; lia || exact I);
      apply atom_end_ok; assumption.
  - (* unary plus *)
    intros Hf. destruct fuel as [|f]; [simpl in Hf; lia|].
    cbn [app parse_factor]. rewrite (IH rest f Hcall); [reflexivity|].
    simpl in Hf. lia.
  - (* unary minus *)
    intros Hf. destruct fuel as [|f]; [simpl in Hf; lia|].
    cbn [app parse_factor]. rewrite (IH rest f Hcall); [reflexivity|].
    simpl in Hf. lia.
  - (* a factor as a term *)
    intros Hf. destruct fuel as [|f]; [lia|].
    cbn [parse_term]. rewrite (IH rest f Hcall) by lia.
    exists f. split; [rewrite length_app in Hf; lia|reflexivity].
  - (* product *)
    intros Hf. rewrite <- app_assoc. cbn [app].
    destruct (IH1 (TStar :: ts2 ++ rest) fuel I) as (f1 & Hf1 & E).
    { rewrite <- app_assoc in Hf. exact Hf. }
    rewrite E. destruct f1 as [|f1]; [lia|].
    cbn [term_loop]. cbn [List.length] in Hf1.
    rewrite (IH2 rest f1 Hcall) by lia.
    exists f1. split; [rewrite length_app in Hf1; lia|reflexivity].
  - (* quotient *)
    intros Hf. rewrite <- app_assoc. cbn [app].
    destruct (IH1 (TSlash :: ts2 ++ rest) fuel I) as (f1 & Hf1 & E).
    { rewrite <- app_assoc in Hf. exact Hf. }
    rewrite E. destruct f1 as [|f1]; [lia|].
    cbn [term_loop]. cbn [List.length] in Hf1.
    rewrite (IH2 rest f1 Hcall) by lia.
    exists f1. split; [rewrite length_app in Hf1; lia|reflexivity].
  - (* a term as a sum *)
    intros Hfac Hf. destruct fuel as [|f]; [lia|].
    cbn [parse_sum].
    destruct (IH rest f Hcall) as (f' & Hf' & E); [lia|].
    rewrite E, (term_loop_done f' e rest) by (lia || assumption).
    exists f. split; [rewrite length_app in Hf; lia|reflexivity].
  - (* sum *)
    intros Hfac Hf. rewrite <- app_assoc. cbn [app].
    destruct (IH1 (TPlus :: ts2 ++ rest) fuel I I) as (f1 & Hf1 & E).
    { rewrite <- app_assoc in Hf. exact Hf. }
    rewrite E. destruct f1 as [|f1]; [lia|].
    cbn [sum_loop]. cbn [List.length] in Hf1.
    destruct (IH2 rest f1 Hcall) as (f2 & Hf2 & E2); [lia|].
    rewrite E2, (term_loop_done f2 e2 rest) by (lia || assumption).
    exists f1. split; [rewrite length_app in Hf1; lia|reflexivity].
  - (* difference *)
    intros Hfac Hf. rewrite <- app_assoc. cbn [app].
    destruct (IH1 (TMinus :: ts2 ++ rest) fuel I I) as (f1 & Hf1 & E).
    { rewrite <- app_assoc in Hf. exact Hf. }
    rewrite E. destruct f1 as [|f1]; [lia|].
    cbn [sum_loop]. cbn [List.length] in Hf1.
    destruct (IH2 rest f1 Hcall) as (f2 & Hf2 & E2); [lia|].
    rewrite E2, (term_loop_done f2 e2 rest) by (lia || assumption).
    exists f1. split; [rewrite length_app in Hf1; lia|reflexivity].
Qed.

Lemma parse_derivation ts e : derives LSum ts e -> parse ts = Ok e.
Proof.
  intros H. unfold parse.
  destruct (parse_follows _ _ _ H [] (3 * List.length ts + 3)%nat I I)
    as (f & Hf & E).
  { rewrite app_nil_r. lia. }
  rewrite app_nil_r in E. rewrite E, sum_loop_done by (lia || exact I).
  reflexivity.
Qed.

Lemma eval_expr_int e z :
  int_value e = Some z -> eval_expr e = Some (Returns (PInt z)).
Proof.
  revert z. induction e as [n|s| |a IH|a IH|op a IHa b IHb]; intros z H;
    simpl in H; try discriminate.
  - injection H as <-. reflexivity.
  - simpl. rewrite (IH z H). reflexivity.
  - destruct (int_value a) as [x|]; [|discriminate]. injection H as <-.
    simpl. rewrite (IH x eq_refl). reflexivity.
  - destruct op; try discriminate;
      destruct (int_value a) as [x|]; try discriminate;
      destruct (int_value b) as [y|]; try discriminate;
      injection H as <-; simpl;
      rewrite (IHa x eq_refl), (IHb y eq_refl); reflexivity.
Qed.

(** The integer value is the rational value. *)
Lemma int_value_rational e z :
  int_value e = Some z ->
  exists q, rational_value e = Some q /\ (q == inject_Z z)%Q.
Proof.
  revert z. induction e as [n|s| |a IH|a IH|op a IHa b IHb]; intros z H;
    simpl in H; try discriminate.
  - injection H as <-. exists (inject_Z n). split; reflexivity.
  - apply IH. assumption.
  - destruct (int_value a) as [x|]; [|discriminate]. injection H as <-.
    destruct (IH x eq_refl) as (q & Eq & Hq). exists (- q)%Q. simpl.
    rewrite Eq. split; [reflexivity|]. rewrite Hq.
    unfold Qeq, Qopp, inject_Z. simpl. ring.
  - destruct op; try discriminate;
      destruct (int_value a) as [x|]; try discriminate;
      destruct (int_value b) as [y|]; try discriminate;
      injection H as <-;
      destruct (IHa x eq_refl) as (qa & Ea & Ha);
      destruct (IHb y eq_refl) as (qb & Eb & Hb);
      simpl; rewrite Ea, Eb; eexists; (split; [reflexivity|]);
      rewrite Ha, Hb.
    + unfold Qeq, Qplus, inject_Z. simpl. ring.
    + unfold Qeq, Qminus, Qplus, Qopp, inject_Z. simpl. ring.
    + unfold Qeq, Qmult, inject_Z. simpl. ring.
Qed.


(** ** Runs on CPython *)

(** The spec's concrete cases, through the dispatcher. *)
Example call_math :
  call_tool (RT := reference) (py "math")
    (JDict [(py "expression", JStr (py "5 + 3 * 2"))])
  = Returns (py "11").
Proof. vm_compute. reflexivity. Qed.

Example call_unit_conversion :
  call_tool (RT := reference) (py "unit_conversion")
    (JDict [(py "value", JInt 10); (py "from_unit", JStr (py "km"));
            (py "to_unit", JStr (py "miles"))])
  = Returns (py "6.213727366498068").
Proof. vm_compute. reflexivity. Qed.

Example call_add_days :
  call_tool (RT := reference) (py "date_tool")
    (JDict [(py "operation", JStr (py "add_days"));
            (py "base_date", JStr (py "2023-01-01")); (py "days", JInt 5)])
  = Returns (py "2023-01-06").
Proof. vm_compute. reflexivity. Qed.

Example call_diff_days :
  call_tool (RT := reference) (py "date_tool")
    (JDict [(py "operation", JStr (py "diff_days"));
            (py "base_date", JStr (py "2023-01-01"));
            (py "second_date", JStr (py "2023-12-31"))])
  = Returns (py "364").
Proof. vm_compute. reflexivity. Qed.

Example call_get_current :
  call_tool (RT := reference) (py "date_tool")
    (JDict [(py "operation", JStr (py "get_current"))])
  = Returns (py "2023-01-01").
Proof. vm_compute. reflexivity. Qed.

Example call_division :
  call_tool (RT := reference) (py "math")
    (JDict [(py "expression", JStr (py "1/3"))])
  = Returns (py "0.3333333333333333").
Proof. vm_compute. reflexivity. Qed.

Example call_missing_field :
  call_tool (RT := reference) (py "date_tool")
    (JDict [(py "operation", JStr (py "add_days")); (py "days", JInt 5)])
  = Returns (py "Error: base_date and days are required for add_days").
Proof. vm_compute. reflexivity. Qed.

Example call_not_a_mapping :
  call_tool (RT := reference) (py "math") (JList [])
  = Returns (py "Error: __main__.MathInput() argument after ** must be a mapping, not list").
Proof. vm_compute. reflexivity. Qed.

(** A whole conversation: the service asks for [math], gets ["11"] back and
    answers. *)
Example conversation_with_a_tool_call :
  handle_conversation (RT := asking (math_payload (py "5 + 3 * 2"))) 5
    (py "What is 5 + 3 * 2?")
  = Some (Returns
      [ UserMessage (py "What is 5 + 3 * 2?");
        AssistantMessage (mk_assistant []
          (Some [mk_tool_call (py "call_0") (py "math")
                   (math_payload (py "5 + 3 * 2"))]));
        ToolMessage (py "call_0") (py "11");
        AssistantMessage (mk_assistant (py "Done.") (Some [])) ]).
Proof. vm_compute. reflexivity. Qed.

Example conversation_without_tool_call :
  handle_conversation (RT := reference) 1 (py "Hello, how are you?")
  = Some (Returns
      [ UserMessage (py "Hello, how are you?");
        AssistantMessage (mk_assistant (py "Hello!") None) ]).
Proof. vm_compute. reflexivity. Qed.

(** ** Where the claims as written fail *)


(** C2 as written fails: the expression ['a'] evaluates to a string, and
    [math_tool] returns that string instead of failing. *)
Lemma math_tool_returns_non_numeric :
  eval_covered (py "'a'") = true
  /\ eval (Runtime := reference) (py "'a'") = Returns (PStr (py "a"))
  /\ is_numeric (PStr (py "a")) = false
  /\ math_tool (RT := reference) (mk_MathInput (py "'a'"))
     = Returns (PStr (py "a")).
Proof. repeat split; vm_compute; reflexivity. Qed.

(** C3 as written fails: the string the dispatcher returns for an unknown
    name is not "Unknown tool: weather" but that message in the
    dispatcher's error form, with "Error: " before it. *)
Lemma unknown_tool_message_is_prefixed :
  ~ In (py "weather") tools
  /\ call_tool (RT := reference) (py "weather") (JDict [])
     = Returns (py "Error: Unknown tool: weather")
  /\ call_tool (RT := reference) (py "weather") (JDict [])
     <> Returns (py "Unknown tool: weather").
Proof.
  assert (E : call_tool (RT := reference) (py "weather") (JDict [])
              = Returns (py "Error: Unknown tool: weather"))
    by (vm_compute; reflexivity).
  split.
  { simpl. intros [H|[H|[H|[H|H]]]]; try discriminate H. exact H. }
  split; [exact E|]. rewrite E. discriminate.
Qed.

(** C4 as written fails: the program computes in binary64, where the
    result is not exactly [v * factor(A) / factor(B)] and the way back is
    not exactly [v].  One foot in yards comes out as 0.33333333333333337,
    which is not a third, and one kilometre taken to miles and back comes
    out as 0.9999999999999999. *)
Lemma conversion_is_not_exact :
  exists third q there back,
    unit_conversion_tool (A := binary64)
      (mk_UnitConversionInput (float_of_int 1) (py "feet") (py "yards"))
    = Returns third
    /\ float_repr third = py "0.33333333333333337"
    /\ float_to_Q third = Some q
    /\ ~ (q == 1 * factor (py "feet") / factor (py "yards"))%Q
    /\ unit_conversion_tool (A := binary64)
         (mk_UnitConversionInput (float_of_int 1) (py "km") (py "miles"))
       = Returns there
    /\ unit_conversion_tool (A := binary64)
         (mk_UnitConversionInput there (py "miles") (py "km"))
       = Returns back
    /\ float_repr back = py "0.9999999999999999"
    /\ back <> float_of_int 1.
Proof.
  exists (S754_finite false 6004799503160662 (-54)).
  eexists. eexists. exists (S754_finite false 9007199254740991 (-53)).
  split; [vm_compute; reflexivity|]. split; [vm_compute; reflexivity|].
  split; [reflexivity|]. split; [vm_compute; discriminate|].
  split; [vm_compute; reflexivity|]. split; [vm_compute; reflexivity|].
  split; [vm_compute; reflexivity|]. vm_compute. discriminate.
Qed.

(** C5 as written fails: no date follows 9999-12-31, so [add_days] with
    [n = 1] fails there and there is nothing to take the difference with. *)
Lemma add_days_past_the_last_day :
  valid_date (mk_date 9999 12 31) = true
  /\ date_tool (RT := reference)
       (mk_DateInput (py "add_days") (Some (mk_date 9999 12 31)) (Some 1) None)
     = Raises (mk_exn OverflowError (py "date value out of range")).
Proof. split; vm_compute; reflexivity. Qed.


(** C7 as written fails: every field [subtract_days] needs is there and the
    operation is one of the four, yet [date_tool] fails, for want of a day
    before 0001-01-01. *)
Lemma subtract_days_before_the_first_day :
  valid_date (mk_date 1 1 1) = true
  /\ In (py "subtract_days") DateOperation
  /\ date_tool (RT := reference)
       (mk_DateInput (py "subtract_days") (Some (mk_date 1 1 1)) (Some 1) None)
     = Raises (mk_exn OverflowError (py "date value out of range")).
Proof.
  split; [vm_compute; reflexivity|]. split; [simpl; auto|].
  vm_compute. reflexivity.
Qed.


(** C10 as written fails: lower-casing the one-character text U+0130
    gives two characters, so with the default case-insensitive comparison the
    empty string is counted 3 times, not 1 + 1. *)
Lemma empty_character_in_dotted_capital_i :
  lower_covered [304%N] = true
  /\ new_TextAnalysisInput (RT := reference)
       (JDict [(py "text", JStr [304%N]); (py "character", JStr [])])
     = Returns (mk_TextAnalysisInput [304%N] [] false)
  /\ text_analysis_tool (RT := reference) (mk_TextAnalysisInput [304%N] [] false)
     = sentence [] 3 [304%N]
  /\ Z.of_nat (List.length [304%N]) + 1 = 2.
Proof. repeat split; vm_compute; reflexivity. Qed.

(** ** The theorems at work *)


Lemma math_tool_fails_iff_eval_raises_witness :
  eval (Runtime := reference) (py "1/0")
  = Raises (mk_exn ZeroDivisionError (py "division by zero"))
  /\ is_Exception ZeroDivisionError = true
  /\ math_tool (RT := reference) (mk_MathInput (py "1/0"))
     = Raises (mk_exn ValueError (py "Invalid expression: division by zero")).
Proof.
  assert (E : eval (Runtime := reference) (expression (mk_MathInput (py "1/0")))
              = Raises (mk_exn ZeroDivisionError (py "division by zero")))
    by (vm_compute; reflexivity).
  split; [exact E|]. split; [reflexivity|].
  exact (proj1 (proj2 (math_tool_fails_iff_eval_raises (RT := reference)
                         (mk_MathInput (py "1/0"))))
               _ E eq_refl).
Defined.

Lemma call_tool_unknown_tool_witness :
  ~ In (py "weather") tools
  /\ call_tool_body (RT := reference) (py "weather") (JDict [])
     = Raises (mk_exn ValueError (py "Unknown tool: weather"))
  /\ call_tool (RT := reference) (py "weather") (JDict [])
     = Returns (py "Error: Unknown tool: weather").
Proof.
  assert (H : ~ In (py "weather") tools).
  { simpl. intros [H|[H|[H|[H|H]]]]; try discriminate H. exact H. }
  split; [exact H|].
  exact (call_tool_unknown_tool (RT := reference) (py "weather") (JDict []) H).
Defined.

Lemma unit_conversion_round_trip_witness :
  In (py "km") LengthUnit /\ In (py "miles") LengthUnit
  /\ float_within (-1000) 900 (float_of_int 10) = true
  /\ exists v,
       float_to_Q (float_of_int 10) = Some v /\ (v == 10)%Q
       /\ exists r back q w,
            unit_conversion_tool (A := binary64)
              (mk_UnitConversionInput (float_of_int 10) (py "km") (py "miles"))
            = Returns r
            /\ float_repr r = py "6.213727366498068"
            /\ unit_conversion_tool (A := binary64)
                 (mk_UnitConversionInput r (py "miles") (py "km"))
               = Returns back
            /\ float_to_Q r = Some q
            /\ (Qabs (q - v * factor (py "km") / factor (py "miles"))
                <= Qabs q * 2 ^ (-50))%Q
            /\ float_to_Q back = Some w
            /\ (Qabs (w - v) <= Qabs w * 2 ^ (-49))%Q.
Proof.
  assert (Ha : In (py "km") LengthUnit) by (simpl; auto).
  assert (Hb : In (py "miles") LengthUnit) by (simpl; auto 6).
  split; [exact Ha|]. split; [exact Hb|].
  split; [vm_compute; reflexivity|].
  eexists. split; [reflexivity|]. split; [vm_compute; reflexivity|].
  destruct (unit_conversion_round_trip (float_of_int 10) _
              (py "km") (py "miles") Ha Hb eq_refl)
    as (r & back & Hr & Hback & _ & H).
  assert (Er : r = S754_finite false 6996035063085638 (-50)).
  { vm_compute in Hr. injection Hr as <-. reflexivity. }
  subst r.
  assert (Eb : back = S754_finite false 5629499534213120 (-49)).
  { vm_compute in Hback. injection Hback as <-. reflexivity. }
  subst back.
  destruct (H ltac:(vm_compute; reflexivity)) as (q & w & Eq & Ew & Hq & Hw).
  exists (S754_finite false 6996035063085638 (-50)),
    (S754_finite false 5629499534213120 (-49)), q, w.
  split; [exact Hr|]. split; [vm_compute; reflexivity|].
  split; [exact Hback|]. split; [exact Eq|]. split; [exact Hq|].
  split; [exact Ew|exact Hw].
Defined.

Lemma add_days_then_diff_days_witness :
  valid_date (mk_date 2023 1 1) = true
  /\ 1 <= toordinal (mk_date 2023 1 1) + 5 <= MAXORDINAL
  /\ exists result second,
       date_tool (RT := reference)
         (mk_DateInput (py "add_days") (Some (mk_date 2023 1 1)) (Some 5) None)
       = Returns result
       /\ field_date (RT := reference) (JStr result) = Some second
       /\ date_tool (RT := reference)
            (mk_DateInput (py "diff_days") (Some (mk_date 2023 1 1)) None
               (Some second))
          = Returns (str_int 5).
Proof.
  assert (V : valid_date (mk_date 2023 1 1) = true) by reflexivity.
  assert (R : 1 <= toordinal (mk_date 2023 1 1) + 5 <= MAXORDINAL)
    by (vm_compute; split; discriminate).
  split; [exact V|]. split; [exact R|].
  exact (proj1 (add_days_then_diff_days (RT := reference)
                  (mk_date 2023 1 1) 5 V R)).
Defined.


Lemma date_tool_outcomes_witness :
  (py "add_days" = py "add_days" \/ py "add_days" = py "subtract_days")
  /\ (@None date = None \/ Some 5 = None)
  /\ date_tool (RT := reference)
       (mk_DateInput (py "add_days") None (Some 5) None)
     = Raises (mk_exn ValueError
                 (py "base_date and days are required for add_days")).
Proof.
  split; [left; reflexivity|]. split; [left; reflexivity|].
  exact (proj1 (date_tool_outcomes (RT := reference)
                  (mk_DateInput (py "add_days") None (Some 5) None))
               (py "add_days") eq_refl (or_introl eq_refl) (or_introl eq_refl)).
Defined.



Lemma empty_character_count_witness :
  Forall (fun c => (c < 128)%N) (py "abc")
  /\ text_analysis_tool (RT := reference)
       (mk_TextAnalysisInput (py "abc") [] false)
     = sentence [] 4 (py "abc").
Proof.
  assert (A : Forall (fun c => (c < 128)%N) (py "abc")).
  { repeat constructor. }
  split; [exact A|].
  exact (proj2 (proj2 (proj2 (proj2
           (empty_character_count (RT := reference) (py "abc"))))) A).
Defined.

(** ** Further properties *)

Lemma member_In s l : member s l = true <-> In s l.
Proof.
  unfold member. rewrite existsb_exists. split.
  - intros (x & Hx & E). apply pystr_eqb_eq in E. subst. assumption.
  - intros H. exists s. split; [assumption|apply pystr_eqb_refl].
Qed.

Lemma field_enum_member {RT : Runtime} members v s :
  field_enum members v = Some s -> In s members.
Proof.
  destruct v; simpl; try discriminate.
  destruct (member s0 members) eqn:E; [|discriminate].
  intros H. injection H as <-. apply member_In. assumption.
Qed.

Lemma field_enum_outside {RT : Runtime} members s :
  ~ In s members -> field_enum members (JStr s) = None.
Proof.
  intros H. simpl. destruct (member s members) eqn:E; [|reflexivity].
  apply member_In in E. contradiction.
Qed.

(** X1.  The contract of the input models.  A mapping that lacks a required
    field, or gives an enumerated field a value outside its members, is
    refused with a validation error; an input that comes out of validation
    has its enumerated fields within their members. *)
Theorem validation_contract {RT : Runtime} (data : list (pystr * json)) :
  (dict_get (py "expression") data = None ->
   new_MathInput (JDict data)
   = Raises (mk_exn ValidationError
               (validation_error_str (py "MathInput") (JDict data))))
  /\ (forall unit,
        (dict_get (py "from_unit") data = Some (JStr unit)
         \/ dict_get (py "to_unit") data = Some (JStr unit)) ->
        ~ In unit LengthUnit ->
        new_UnitConversionInput (JDict data)
        = Raises (mk_exn ValidationError
                    (validation_error_str (py "UnitConversionInput") (JDict data))))
  /\ (forall op,
        dict_get (py "operation") data = Some (JStr op) ->
        ~ In op DateOperation ->
        new_DateInput (JDict data)
        = Raises (mk_exn ValidationError
                    (validation_error_str (py "DateInput") (JDict data))))
  /\ (forall input,
        new_UnitConversionInput (JDict data) = Returns input ->
        In (from_unit input) LengthUnit /\ In (to_unit input) LengthUnit)
  /\ (forall input,
        new_DateInput (JDict data) = Returns input ->
        In (operation input) DateOperation).
Proof.
  split; [|split; [|split; [|split]]].
  - intros H. unfold new_MathInput, required. cbn [keywords bind].
    rewrite H. reflexivity.
  - intros unit [H|H] Hout; unfold new_UnitConversionInput, required;
      cbn [keywords bind]; rewrite H, (field_enum_outside _ _ Hout).
    + destruct (match dict_get (py "value") data with
                | Some v => field_float v | None => None end); reflexivity.
    + destruct (match dict_get (py "value") data with
                | Some v => field_float v | None => None end);
        [|reflexivity].
      destruct (match dict_get (py "from_unit") data with
                | Some v => field_enum LengthUnit v | None => None end);
        reflexivity.
  - intros op H Hout. unfold new_DateInput, required. cbn [keywords bind].
    rewrite H, (field_enum_outside _ _ Hout). reflexivity.
  - intros input. unfold new_UnitConversionInput, required.
    cbn [keywords bind].
    destruct (match dict_get (py "value") data with
              | Some v => field_float v | None => None end) as [x|];
      [|discriminate].
    destruct (dict_get (py "from_unit") data) as [vf|]; [|discriminate].
    destruct (field_enum LengthUnit vf) as [uf|] eqn:Ef; [|discriminate].
    destruct (dict_get (py "to_unit") data) as [vt|]; [|discriminate].
    destruct (field_enum LengthUnit vt) as [ut|] eqn:Et; [|discriminate].
    cbn [validated]. intros H. injection H as <-. cbn [from_unit to_unit].
    split; eapply field_enum_member; eassumption.
  - intros input. unfold new_DateInput, required. cbn [keywords bind].
    destruct (dict_get (py "operation") data) as [vo|]; [|discriminate].
    destruct (field_enum DateOperation vo) as [o|] eqn:Eo; [|discriminate].
    destruct (with_default _ _ (py "base_date") data); [|discriminate].
    destruct (with_default _ _ (py "days") data); [|discriminate].
    destruct (with_default _ _ (py "second_date") data); [|discriminate].
    cbn [validated]. intros H. injection H as <-. cbn [operation].
    eapply field_enum_member; eassumption.
Qed.

Lemma validation_contract_witness :
  dict_get (py "expression") (@nil (pystr * json)) = None
  /\ new_MathInput (RT := reference) (JDict [])
     = Raises (mk_exn ValidationError (py "validation error for MathInput")).
Proof.
  split; [reflexivity|].
  exact (proj1 (validation_contract (RT := reference) []) eq_refl).
Defined.

Lemma conversion_to_m_keys {num : Type} {A : Arith num} unit :
  dict_mem unit (conversion_to_m (A := A)) = member unit LengthUnit.
Proof.
  unfold dict_mem, member, conversion_to_m, LengthUnit. cbn [dict_get existsb].
  repeat (destruct (pystr_eqb unit _); [reflexivity|]). reflexivity.
Qed.

Lemma new_UnitConversionInput_units {RT : Runtime} params input :
  new_UnitConversionInput params = Returns input ->
  In (from_unit input) LengthUnit /\ In (to_unit input) LengthUnit.
Proof.
  unfold new_UnitConversionInput, required.
  destruct params as [| | | | | |data]; try discriminate.
  cbn [keywords bind].
  destruct (match dict_get (py "value") data with
            | Some v => field_float v | None => None end) as [x|];
    [|discriminate].
  destruct (dict_get (py "from_unit") data) as [vf|]; [|discriminate].
  destruct (field_enum LengthUnit vf) as [uf|] eqn:Ef; [|discriminate].
  destruct (dict_get (py "to_unit") data) as [vt|]; [|discriminate].
  destruct (field_enum LengthUnit vt) as [ut|] eqn:Et; [|discriminate].
  cbn [validated]. intros H. injection H as <-. cbn [from_unit to_unit].
  split; eapply field_enum_member; eassumption.
Qed.

(** X2.  [unit_conversion_tool] fails with "Invalid unit specified" exactly
    when one of the two units is outside the enumeration, whose members
    are the keys of the table; an input that came out of validation has
    both units inside, so it always gets a result and the branch is never
    taken through the dispatcher. *)
Theorem unit_conversion_invalid_unit {RT : Runtime}
    (input : UnitConversionInput float) :
  (unit_conversion_tool input
   = Raises (mk_exn ValueError (py "Invalid unit specified"))
   <-> ~ In (from_unit input) LengthUnit \/ ~ In (to_unit input) LengthUnit)
  /\ (forall params,
        new_UnitConversionInput params = Returns input ->
        exists result, unit_conversion_tool input = Returns result).
Proof.
  assert (Inside : In (from_unit input) LengthUnit ->
                   In (to_unit input) LengthUnit ->
                   exists result, unit_conversion_tool input = Returns result).
  { intros Ha Hb. destruct input as [x a b]. cbn [from_unit to_unit] in *.
    destruct (binary64_factor_ratio a b Ha Hb)
      as (fa & fb & _ & _ & Ea & Eb & Zb & _).
    eexists. apply unit_conversion_tool_binary64_run; eassumption. }
  split; [split|].
  - intros H.
    destruct (member (from_unit input) LengthUnit) eqn:Ma;
      [|left; intros Hin; apply member_In in Hin; congruence].
    destruct (member (to_unit input) LengthUnit) eqn:Mb;
      [|right; intros Hin; apply member_In in Hin; congruence].
    apply member_In in Ma, Mb. destruct (Inside Ma Mb) as (result & E).
    rewrite E in H. discriminate.
  - intros H. unfold unit_conversion_tool. rewrite !conversion_to_m_keys.
    assert (E : negb (member (from_unit input) LengthUnit)
                || negb (member (to_unit input) LengthUnit) = true).
    { apply orb_true_iff.
      destruct H as [H|H]; [left|right]; apply negb_true_iff;
        destruct (member _ LengthUnit) eqn:M; try reflexivity;
        apply member_In in M; contradiction. }
    rewrite E. reflexivity.
  - intros params Hv.
    destruct (new_UnitConversionInput_units params input Hv) as (Ha & Hb).
    apply Inside; assumption.
Qed.

Lemma unit_conversion_invalid_unit_witness :
  (~ In (py "parsecs") LengthUnit \/ ~ In (py "km") LengthUnit)
  /\ unit_conversion_tool (A := binary64)
       (mk_UnitConversionInput (float_of_int 1) (py "parsecs") (py "km"))
     = Raises (mk_exn ValueError (py "Invalid unit specified"))
  /\ new_UnitConversionInput (RT := reference)
       (JDict [(py "value", JInt 10); (py "from_unit", JStr (py "km"));
               (py "to_unit", JStr (py "miles"))])
     = Returns (mk_UnitConversionInput (float_of_int 10) (py "km") (py "miles"))
  /\ exists result,
       unit_conversion_tool (A := binary64)
         (mk_UnitConversionInput (float_of_int 10) (py "km") (py "miles"))
       = Returns result.
Proof.
  assert (H : ~ In (py "parsecs") LengthUnit \/ ~ In (py "km") LengthUnit).
  { left. simpl. intros [H|[H|[H|[H|[H|[H|[H|H]]]]]]]; try discriminate H.
    exact H. }
  assert (V : new_UnitConversionInput (RT := reference)
                (JDict [(py "value", JInt 10);
                        (py "from_unit", JStr (py "km"));
                        (py "to_unit", JStr (py "miles"))])
              = Returns (mk_UnitConversionInput (float_of_int 10)
                           (py "km") (py "miles")))
    by (vm_compute; reflexivity).
  split; [exact H|].
  split.
  - exact (proj2 (proj1 (unit_conversion_invalid_unit (RT := reference)
             (mk_UnitConversionInput (float_of_int 1) (py "parsecs") (py "km"))))
             H).
  - split; [exact V|].
    exact (proj2 (unit_conversion_invalid_unit (RT := reference)
             (mk_UnitConversionInput (float_of_int 10) (py "km") (py "miles")))
             _ V).
Defined.

(** Ten kilometres in miles, as the program computes it in binary64: the
    float printed 6.213727366498068, which is 6.21371 to within 0.00002. *)
Example ten_kilometres_in_miles :
  exists x q,
    unit_conversion_tool (A := binary64)
      (mk_UnitConversionInput (float_of_int 10) (py "km") (py "miles"))
    = Returns x
    /\ float_repr x = py "6.213727366498068"
    /\ float_to_Q x = Some q
    /\ (6.21371 - 0.00002 <= q)%Q /\ (q <= 6.21371 + 0.00002)%Q.
Proof.
  eexists. eexists. split; [vm_compute; reflexivity|].
  split; [vm_compute; reflexivity|]. split; [vm_compute; reflexivity|].
  split; apply Qle_bool_imp_le; vm_compute; reflexivity.
Qed.

(** ** Date arithmetic, further *)

Lemma date_trichotomy a b : a = b \/ date_before a b \/ date_before b a.
Proof.
  destruct a as [ya ma da], b as [yb mb db]. unfold date_before.
  cbn [year month day].
  destruct (Z.lt_trichotomy ya yb) as [H|[H|H]];
    destruct (Z.lt_trichotomy ma mb) as [H1|[H1|H1]];
    destruct (Z.lt_trichotomy da db) as [H2|[H2|H2]];
    first [left; congruence | right; lia].
Qed.

Lemma toordinal_injective a b :
  valid_date a = true -> valid_date b = true ->
  toordinal a = toordinal b -> a = b.
Proof.
  intros Ha Hb E. destruct (date_trichotomy a b) as [H|[H|H]]; [assumption| |].
  - pose proof (toordinal_increasing a b Ha Hb H). lia.
  - pose proof (toordinal_increasing b a Hb Ha H). lia.
Qed.

Lemma fromordinal_toordinal d :
  valid_date d = true -> fromordinal (toordinal d) = d.
Proof.
  intros H. pose proof (toordinal_range d H) as R.
  apply toordinal_injective; [apply fromordinal_valid; assumption|assumption|].
  apply toordinal_fromordinal.
Qed.

Lemma field_date_isoformat {RT : Runtime} d :
  valid_date d = true -> field_date (JStr (isoformat d)) = Some d.
Proof.
  intros H. cbn [field_date]. rewrite (fromisoformat_isoformat d H). reflexivity.
Qed.

Lemma within_range_valid base k :
  valid_date base = true ->
  1 <= toordinal base + k <= MAXORDINAL -> within_range base k.
Proof.
  intros Hv Hk. pose proof (toordinal_range base Hv) as R.
  split; [|assumption]. unfold MAXORDINAL in *. lia.
Qed.

(** X4.  [add_days] by [n] followed by [subtract_days] by [n] on the date
    returned (read back from its text, as validation does) gives the base
    date again, whenever [base + n] is a date of the calendar. *)
Theorem add_days_then_subtract_days {RT : Runtime} (base : date) (n : Z) :
  valid_date base = true ->
  1 <= toordinal base + n <= MAXORDINAL ->
  exists result moved,
    date_tool (mk_DateInput (py "add_days") (Some base) (Some n) None)
    = Returns result
    /\ field_date (JStr result) = Some moved
    /\ date_tool (mk_DateInput (py "subtract_days") (Some moved) (Some n) None)
       = Returns (isoformat base).
Proof.
  intros Hv Hn. pose proof (within_range_valid base n Hv Hn) as Hw.
  pose proof (toordinal_range base Hv) as R.
  set (moved := fromordinal (toordinal base + n)).
  assert (Hm : valid_date moved = true) by (apply fromordinal_valid; assumption).
  exists (isoformat moved), moved.
  split; [rewrite date_tool_add_days; apply shift_in_range; assumption|].
  split; [apply field_date_isoformat; assumption|].
  rewrite date_tool_subtract_days. unfold date_sub_delta.
  assert (Hb : within_range moved (- n)).
  { apply within_range_valid; [assumption|]. unfold moved.
    rewrite toordinal_fromordinal. lia. }
  destruct Hw as [Hk _]. rewrite timedelta_in_range by assumption.
  cbn [bind]. rewrite date_add_in_range by apply Hb.
  unfold moved. rewrite toordinal_fromordinal.
  replace (toordinal base + n + - n) with (toordinal base) by lia.
  rewrite fromordinal_toordinal by assumption. reflexivity.
Qed.

Lemma add_days_then_subtract_days_witness :
  valid_date new_year = true
  /\ 1 <= toordinal new_year + 5 <= MAXORDINAL
  /\ exists result moved,
       date_tool (RT := reference)
         (mk_DateInput (py "add_days") (Some new_year) (Some 5) None)
       = Returns result
       /\ field_date (RT := reference) (JStr result) = Some moved
       /\ date_tool (RT := reference)
            (mk_DateInput (py "subtract_days") (Some moved) (Some 5) None)
          = Returns (isoformat new_year).
Proof.
  assert (Hv : valid_date new_year = true) by reflexivity.
  assert (Hn : 1 <= toordinal new_year + 5 <= MAXORDINAL)
    by (vm_compute; split; discriminate).
  split; [exact Hv|]. split; [exact Hn|].
  exact (add_days_then_subtract_days (RT := reference) new_year 5 Hv Hn).
Defined.

(** X5.  Two [add_days] in a row add up: moving by [a] and then, from the
    date returned, by [b] gives what moving by [a + b] gives, whenever both
    stops are dates of the calendar. *)
Theorem add_days_composes {RT : Runtime} (base : date) (a b : Z) :
  valid_date base = true ->
  1 <= toordinal base + a <= MAXORDINAL ->
  1 <= toordinal base + a + b <= MAXORDINAL ->
  exists first stop last,
    date_tool (mk_DateInput (py "add_days") (Some base) (Some a) None)
    = Returns first
    /\ field_date (JStr first) = Some stop
    /\ date_tool (mk_DateInput (py "add_days") (Some stop) (Some b) None)
       = Returns last
    /\ date_tool (mk_DateInput (py "add_days") (Some base) (Some (a + b)) None)
       = Returns last.
Proof.
  intros Hv Ha Hb.
  set (stop := fromordinal (toordinal base + a)).
  assert (Hs : valid_date stop = true) by (apply fromordinal_valid; assumption).
  exists (isoformat stop), stop,
    (isoformat (fromordinal (toordinal base + (a + b)))).
  split.
  { rewrite date_tool_add_days. apply shift_in_range.
    apply within_range_valid; assumption. }
  split; [apply field_date_isoformat; assumption|].
  split.
  - rewrite date_tool_add_days.
    rewrite shift_in_range.
    + unfold stop. rewrite toordinal_fromordinal.
      rewrite Z.add_assoc. reflexivity.
    + apply within_range_valid; [assumption|]. unfold stop.
      rewrite toordinal_fromordinal. assumption.
  - rewrite date_tool_add_days. apply shift_in_range.
    apply within_range_valid; [assumption|]. rewrite Z.add_assoc. assumption.
Qed.

Lemma add_days_composes_witness :
  valid_date new_year = true
  /\ 1 <= toordinal new_year + 30 <= MAXORDINAL
  /\ 1 <= toordinal new_year + 30 + (-45) <= MAXORDINAL
  /\ exists first stop last,
       date_tool (RT := reference)
         (mk_DateInput (py "add_days") (Some new_year) (Some 30) None)
       = Returns first
       /\ field_date (RT := reference) (JStr first) = Some stop
       /\ date_tool (RT := reference)
            (mk_DateInput (py "add_days") (Some stop) (Some (-45)) None)
          = Returns last
       /\ date_tool (RT := reference)
            (mk_DateInput (py "add_days") (Some new_year) (Some (30 + -45)) None)
          = Returns last.
Proof.
  assert (Hv : valid_date new_year = true) by reflexivity.
  assert (Ha : 1 <= toordinal new_year + 30 <= MAXORDINAL)
    by (vm_compute; split; discriminate).
  assert (Hb : 1 <= toordinal new_year + 30 + (-45) <= MAXORDINAL)
    by (vm_compute; split; discriminate).
  split; [exact Hv|]. split; [exact Ha|]. split; [exact Hb|].
  exact (add_days_composes (RT := reference) new_year 30 (-45) Hv Ha Hb).
Defined.

(** X6.  [diff_days] is a signed distance between dates: it is zero exactly
    when the two dates are the same, positive exactly when [second_date] is
    the later one, swapping the two dates changes its sign, the distances
    over a stop in between add up, and [add_days] by the distance leads
    from the base date to the second one. *)
Theorem diff_days_signed_distance {RT : Runtime} (a b : date) :
  valid_date a = true -> valid_date b = true ->
  let n := date_diff_days b a in
  date_tool (mk_DateInput (py "diff_days") (Some a) None (Some b))
  = Returns (str_int n)
  /\ date_tool (mk_DateInput (py "diff_days") (Some b) None (Some a))
     = Returns (str_int (- n))
  /\ (n = 0 <-> a = b)
  /\ (0 < n <-> date_before a b)
  /\ (forall c,
        date_tool (mk_DateInput (py "diff_days") (Some a) None (Some c))
        = Returns (str_int (n + date_diff_days c b)))
  /\ date_tool (mk_DateInput (py "add_days") (Some a) (Some n) None)
     = Returns (isoformat b).
Proof.
  intros Ha Hb n. unfold n, date_diff_days.
  split; [reflexivity|].
  split.
  { rewrite date_tool_diff_days. unfold date_diff_days.
    do 2 f_equal. lia. }
  split.
  { split.
    - intros H. apply toordinal_injective; [assumption|assumption|lia].
    - intros ->. lia. }
  split.
  { split.
    - intros H. destruct (date_trichotomy a b) as [E|[E|E]].
      + subst. lia.
      + assumption.
      + pose proof (toordinal_increasing b a Hb Ha E). lia.
    - intros H. pose proof (toordinal_increasing a b Ha Hb H). lia. }
  split.
  { intros c. rewrite date_tool_diff_days. unfold date_diff_days.
    do 2 f_equal. lia. }
  pose proof (toordinal_range b Hb) as R.
  rewrite date_tool_add_days, shift_in_range.
  - replace (toordinal a + (toordinal b - toordinal a)) with (toordinal b)
      by lia.
    rewrite fromordinal_toordinal by assumption. reflexivity.
  - apply within_range_valid; [assumption|lia].
Qed.

Lemma diff_days_signed_distance_witness :
  valid_date new_year = true /\ valid_date (mk_date 2023 12 31) = true
  /\ date_tool (RT := reference)
       (mk_DateInput (py "diff_days") (Some new_year) None
          (Some (mk_date 2023 12 31)))
     = Returns (py "364").
Proof.
  assert (Ha : valid_date new_year = true) by reflexivity.
  assert (Hb : valid_date (mk_date 2023 12 31) = true) by reflexivity.
  split; [exact Ha|]. split; [exact Hb|].
  exact (proj1 (diff_days_signed_distance (RT := reference)
                  new_year (mk_date 2023 12 31) Ha Hb)).
Defined.

(** X7.  Every date [add_days] and [subtract_days] return is the ISO text,
    ten characters long, of a date of the calendar, and validation reads
    that text back as the same date: what the tool returns can be given
    to it again as [base_date] or [second_date]. *)
Theorem date_tool_result_reads_back {RT : Runtime} (input : DateInput)
    (base : date) (result : pystr) :
  operation input = py "add_days" \/ operation input = py "subtract_days" ->
  base_date input = Some base -> valid_date base = true ->
  date_tool input = Returns result ->
  exists d,
    valid_date d = true
    /\ result = isoformat d
    /\ List.length result = 10%nat
    /\ field_date (JStr result) = Some d
    /\ exists n, days input = Some n
         /\ toordinal d
            = toordinal base
              + (if pystr_eqb (operation input) (py "add_days") then n else - n).
Proof.
  intros Hop Hbase Hv Hr.
  destruct input as [op b n s]. cbn [operation base_date days] in *. subst b.
  assert (K : forall k,
            (delta <- timedelta k ;;
             new_date <- date_add base delta ;;
             Returns (isoformat new_date)) = Returns result ->
            exists d, valid_date d = true /\ result = isoformat d
                      /\ toordinal d = toordinal base + k).
  { intros k H. destruct (Z_le_gt_dec (Z.abs k) 999999999) as [Hk|Hk].
    - rewrite timedelta_in_range in H by assumption. cbn [bind] in H.
      destruct (Z_le_gt_dec 1 (toordinal base + k)) as [H1|H1];
        [destruct (Z_le_gt_dec (toordinal base + k) MAXORDINAL) as [H2|H2]|].
      + rewrite date_add_in_range in H by lia. cbn [bind] in H.
        injection H as <-. eexists. split; [|split; [reflexivity|]].
        * apply fromordinal_valid. lia.
        * apply toordinal_fromordinal.
      + rewrite date_add_out_of_range in H by lia. discriminate.
      + rewrite date_add_out_of_range in H by lia. discriminate.
    - destruct (timedelta_out_of_range k ltac:(lia)) as (text & E).
      rewrite E in H. discriminate. }
  destruct Hop as [-> | ->].
  - rewrite date_tool_add_days in Hr. destruct n as [n|]; [|discriminate].
    destruct (K n Hr) as (d & Hd & -> & Ho).
    exists d. split; [assumption|]. split; [reflexivity|].
    split; [reflexivity|]. split; [apply field_date_isoformat; assumption|].
    exists n. split; [reflexivity|]. assumption.
  - rewrite date_tool_subtract_days in Hr. destruct n as [n|]; [|discriminate].
    unfold date_sub_delta in Hr.
    assert (Hr' : (delta <- timedelta (- n) ;;
                   new_date <- date_add base delta ;;
                   Returns (isoformat new_date)) = Returns result).
    { destruct (Z_le_gt_dec (Z.abs n) 999999999) as [Hk|Hk].
      - rewrite timedelta_in_range in Hr by assumption.
        rewrite timedelta_in_range by (rewrite Z.abs_opp; assumption).
        exact Hr.
      - destruct (timedelta_out_of_range n ltac:(lia)) as (text & E).
        rewrite E in Hr. discriminate. }
    destruct (K (- n) Hr') as (d & Hd & -> & Ho).
    exists d. split; [assumption|]. split; [reflexivity|].
    split; [reflexivity|]. split; [apply field_date_isoformat; assumption|].
    exists n. split; [reflexivity|]. assumption.
Qed.

Lemma date_tool_result_reads_back_witness :
  (py "add_days" = py "add_days" \/ py "add_days" = py "subtract_days")
  /\ valid_date new_year = true
  /\ date_tool (RT := reference)
       (mk_DateInput (py "add_days") (Some new_year) (Some 5) None)
     = Returns (py "2023-01-06")
  /\ exists d,
       valid_date d = true
       /\ py "2023-01-06" = isoformat d
       /\ List.length (py "2023-01-06") = 10%nat
       /\ field_date (RT := reference) (JStr (py "2023-01-06")) = Some d
       /\ exists n, Some 5 = Some n
            /\ toordinal d = toordinal new_year + n.
Proof.
  assert (H1 : py "add_days" = py "add_days" \/ py "add_days" = py "subtract_days")
    by (left; reflexivity).
  assert (H2 : valid_date new_year = true) by reflexivity.
  assert (H3 : date_tool (RT := reference)
                 (mk_DateInput (py "add_days") (Some new_year) (Some 5) None)
               = Returns (py "2023-01-06")) by reflexivity.
  split; [exact H1|]. split; [exact H2|]. split; [exact H3|].
  exact (date_tool_result_reads_back (RT := reference)
           (mk_DateInput (py "add_days") (Some new_year) (Some 5) None)
           new_year (py "2023-01-06") H1 eq_refl H2 H3).
Defined.

(** ** Counting, further *)

Lemma occurs_at_fits sub s i :
  sub <> [] -> occurs_at sub s i ->
  (i + List.length sub <= List.length s)%nat.
Proof.
  intros Hne H. unfold occurs_at in H.
  assert (L : List.length (firstn (List.length sub) (skipn i s))
              = List.length sub) by (rewrite H; reflexivity).
  rewrite length_firstn, length_skipn in L. apply Nat.min_l_iff in L.
  assert (1 <= List.length sub)%nat by (destruct sub; [congruence|simpl; lia]).
  lia.
Qed.

Lemma disjoint_fits sub s start ps :
  sub <> [] -> disjoint_from sub s start ps -> ps <> [] ->
  (start + List.length ps * List.length sub <= List.length s)%nat.
Proof.
  intros Hne H. induction H as [|start i rest Hi Ho Hr IH]; [congruence|].
  intros _. pose proof (occurs_at_fits _ _ _ Hne Ho) as F.
  destruct rest as [|j rest'].
  - simpl. lia.
  - specialize (IH ltac:(discriminate)). cbn [List.length] in *. lia.
Qed.

Lemma firstn_add {A} (n m : nat) (l : list A) :
  firstn (n + m) l = firstn n l ++ firstn m (skipn n l).
Proof.
  revert l. induction n as [|n IH]; intros l; [reflexivity|].
  destruct l as [|x l]; [simpl; rewrite firstn_nil; reflexivity|].
  simpl. rewrite IH. reflexivity.
Qed.

Lemma occurs_at_split sub s i :
  occurs_at sub s i ->
  s = firstn i s ++ sub ++ skipn (List.length sub) (skipn i s).
Proof.
  intros H. unfold occurs_at in H.
  rewrite <- H at 1. rewrite firstn_skipn, firstn_skipn. reflexivity.
Qed.

Section Letterwise.
Variable g : N -> pystr.

Lemma place_monotone s i j :
  (i <= j)%nat ->
  (List.length (flat_map g (firstn i s))
   <= List.length (flat_map g (firstn j s)))%nat.
Proof.
  intros H. replace j with (i + (j - i))%nat by lia.
  rewrite firstn_add, flat_map_app, length_app. lia.
Qed.

Lemma place_after sub s i :
  occurs_at sub s i ->
  List.length (flat_map g (firstn (i + List.length sub) s))
  = (List.length (flat_map g (firstn i s))
     + List.length (flat_map g sub))%nat.
Proof.
  intros H. rewrite firstn_add, flat_map_app, length_app.
  unfold occurs_at in H. rewrite H. reflexivity.
Qed.

Lemma occurs_at_image sub s i :
  occurs_at sub s i ->
  occurs_at (flat_map g sub) (flat_map g s)
    (List.length (flat_map g (firstn i s))).
Proof.
  intros H. pose proof (occurs_at_split _ _ _ H) as E.
  unfold occurs_at.
  set (pre := firstn i s) in *.
  set (post := skipn (List.length sub) (skipn i s)) in *.
  clearbody pre post. subst s. rewrite !flat_map_app.
  rewrite skipn_app, skipn_all, Nat.sub_diag. cbn [skipn app].
  rewrite firstn_app, firstn_all, Nat.sub_diag. cbn [firstn].
  apply app_nil_r.
Qed.

(** Occurrences side by side stay so when both strings are rewritten
    letter by letter. *)
Lemma disjoint_image sub s start ps :
  disjoint_from sub s start ps ->
  disjoint_from (flat_map g sub) (flat_map g s)
    (List.length (flat_map g (firstn start s)))
    (map (fun i => List.length (flat_map g (firstn i s))) ps).
Proof.
  induction 1 as [|start i rest Hi Ho Hr IH]; [constructor|].
  cbn [map]. constructor.
  - apply place_monotone. assumption.
  - apply occurs_at_image. assumption.
  - rewrite <- (place_after _ _ _ Ho). assumption.
Qed.
End Letterwise.

Lemma lower_code_point_some c : lower_code_point c <> [].
Proof.
  unfold lower_code_point.
  repeat match goal with |- context [if ?b then _ else _] => destruct b end;
    discriminate.
Qed.

Lemma lower_nonempty s : s <> [] -> lower s <> [].
Proof.
  destruct s as [|c s]; [congruence|]. intros _. unfold lower. cbn [flat_map].
  pose proof (lower_code_point_some c).
  destruct (lower_code_point c); [congruence|discriminate].
Qed.

(** X8.  When the character string is a single character (after the
    lower-casing, if any), the count reported is the number of positions
    of the text, as compared, that hold that character. *)
Theorem single_character_count {RT : Runtime} (input : TextAnalysisInput)
    (c : N) :
  let compared s := if case_sensitive input then s else str_lower s in
  compared (character input) = [c] ->
  text_analysis_tool input
  = sentence (character input)
      (Z.of_nat (count_occ N.eq_dec (compared (text input)) c))
      (text input).
Proof.
  intros compared H. rewrite text_analysis_tool_sentence.
  fold (compared (text input)). fold (compared (character input)).
  rewrite H. unfold str_count. rewrite count_scan_single. reflexivity.
Qed.

Lemma single_character_count_witness :
  text_analysis_tool (RT := reference)
    (mk_TextAnalysisInput (py "Strawberry") (py "R") false)
  = sentence (py "R") 3 (py "Strawberry").
Proof.
  exact (single_character_count (RT := reference)
           (mk_TextAnalysisInput (py "Strawberry") (py "R") false)
           114%N eq_refl).
Defined.

(** X9.  For a non-empty character string the count is never negative,
    the occurrences counted fit in the text (count times the length of the
    string is at most the length of the text, both as compared), and the
    count is zero exactly when the string occurs nowhere in the text. *)
Theorem count_bounds {RT : Runtime} (input : TextAnalysisInput) :
  let compared s := if case_sensitive input then s else str_lower s in
  let sub := compared (character input) in
  let s := compared (text input) in
  sub <> [] ->
  exists count,
    text_analysis_tool input = sentence (character input) count (text input)
    /\ 0 <= count
    /\ count * Z.of_nat (List.length sub) <= Z.of_nat (List.length s)
    /\ (count = 0 <-> forall i, ~ occurs_at sub s i).
Proof.
  intros compared sub s Hne. exists (str_count s sub).
  split; [apply text_analysis_tool_sentence|].
  rewrite (str_count_scan _ _ Hne).
  destruct (count_scan_maximum _ Hne s O) as ((ps & Hps & Hn) & Hmax).
  split; [lia|]. split.
  - destruct ps as [|p ps'].
    + simpl in Hn. rewrite <- Hn. simpl. lia.
    + pose proof (disjoint_fits _ _ _ _ Hne Hps ltac:(discriminate)) as F.
      rewrite <- Hn. nia.
  - split.
    + intros H0 i Hi.
      assert (D : disjoint_from sub s 0 [i]).
      { constructor; [lia|assumption|constructor]. }
      apply Hmax in D. simpl in D. lia.
    + intros Hno. destruct ps as [|p ps'].
      * simpl in Hn. lia.
      * inversion Hps as [|? ? ? _ Ho _]; subst. elim (Hno p). assumption.
Qed.

Lemma count_bounds_witness :
  py "r" <> []
  /\ exists count,
       text_analysis_tool (RT := reference)
         (mk_TextAnalysisInput (py "strawberry") (py "r") true)
       = sentence (py "r") count (py "strawberry")
       /\ 0 <= count
       /\ count * 1 <= 10
       /\ (count = 0 <-> forall i, ~ occurs_at (py "r") (py "strawberry") i).
Proof.
  assert (H : py "r" <> []) by discriminate.
  split; [exact H|].
  exact (count_bounds (RT := reference)
           (mk_TextAnalysisInput (py "strawberry") (py "r") true) H).
Defined.

(** X10.  On CPython, for text and character string within the lower-case
    table, ignoring case never loses an occurrence: the count with
    [case_sensitive] false is at least the count with [case_sensitive]
    true. *)
Theorem case_insensitive_counts_more clock service (t c : pystr) :
  lower_covered t = true -> lower_covered c = true -> c <> [] ->
  exists exact relaxed,
    text_analysis_tool (RT := cpython clock service)
      (mk_TextAnalysisInput t c true)
    = sentence c exact t
    /\ text_analysis_tool (RT := cpython clock service)
         (mk_TextAnalysisInput t c false)
       = sentence c relaxed t
    /\ exact <= relaxed.
Proof.
  intros _ _ Hne. exists (str_count t c), (str_count (lower t) (lower c)).
  split; [reflexivity|]. split; [reflexivity|].
  pose proof (lower_nonempty c Hne) as Hl.
  rewrite (str_count_scan _ _ Hne), (str_count_scan _ _ Hl).
  destruct (count_scan_maximum _ Hne t O) as ((ps & Hps & Hn) & _).
  destruct (count_scan_maximum _ Hl (lower t) O) as (_ & Hmax).
  pose proof (disjoint_image lower_code_point _ _ _ _ Hps) as D.
  cbn [firstn flat_map List.length] in D.
  apply Hmax in D. rewrite length_map in D. lia.
Qed.

Lemma case_insensitive_counts_more_witness :
  lower_covered (py "Strawberry") = true /\ lower_covered (py "s") = true
  /\ py "s" <> []
  /\ exists exact relaxed,
       text_analysis_tool (RT := reference)
         (mk_TextAnalysisInput (py "Strawberry") (py "s") true)
       = sentence (py "s") exact (py "Strawberry")
       /\ text_analysis_tool (RT := reference)
            (mk_TextAnalysisInput (py "Strawberry") (py "s") false)
          = sentence (py "s") relaxed (py "Strawberry")
       /\ exact <= relaxed.
Proof.
  assert (H1 : lower_covered (py "Strawberry") = true) by reflexivity.
  assert (H2 : lower_covered (py "s") = true) by reflexivity.
  assert (H3 : py "s" <> []) by discriminate.
  split; [exact H1|]. split; [exact H2|]. split; [exact H3|].
  exact (case_insensitive_counts_more new_year plain_service
           (py "Strawberry") (py "s") H1 H2 H3).
Defined.

(** ** The dispatcher, further *)

Lemma pystr_eqb_false_of a b : a <> b -> pystr_eqb a b = false.
Proof. apply pystr_eqb_neq. Qed.

(** X11.  Arguments that are not a mapping (a list, a string, a number,
    [null]) never reach a tool: for each of the four tools the dispatcher
    returns the error of the unpacking, which names the input model and
    the type of the value given. *)
Theorem call_tool_not_a_mapping {RT : Runtime} (tool_name : pystr)
    (params : json) :
  In tool_name tools ->
  (forall data, params <> JDict data) ->
  call_tool tool_name params
  = Returns (py "Error: __main__." ++ model_of tool_name
             ++ py "() argument after ** must be a mapping, not "
             ++ type_name params).
Proof.
  intros Hin Hnot. simpl in Hin.
  destruct params as [| | | | | |data];
    try (now elim (Hnot data));
    (destruct Hin as [<-|[<-|[<-|[<-|[]]]]]; reflexivity).
Qed.

Lemma call_tool_not_a_mapping_witness :
  In (py "date_tool") tools
  /\ (forall data, JList [JInt 1] <> JDict data)
  /\ call_tool (RT := reference) (py "date_tool") (JList [JInt 1])
     = Returns (py "Error: __main__.DateInput() argument after ** must be a mapping, not list").
Proof.
  assert (H1 : In (py "date_tool") tools) by (simpl; auto).
  assert (H2 : forall data, JList [JInt 1] <> JDict data) by discriminate.
  split; [exact H1|]. split; [exact H2|].
  exact (call_tool_not_a_mapping (RT := reference) (py "date_tool")
           (JList [JInt 1]) H1 H2).
Defined.

Lemma bind_raises {A B} (c : outcome A) (k : A -> outcome B) e :
  bind c k = Raises e ->
  c = Raises e \/ exists a, c = Returns a /\ k a = Raises e.
Proof.
  destruct c as [a|e'|]; simpl; intros H.
  - right. exists a. split; [reflexivity|assumption].
  - left. injection H as ->. reflexivity.
  - discriminate.
Qed.

Lemma bind_hangs {A B} (c : outcome A) (k : A -> outcome B) :
  bind c k = Hangs ->
  c = Hangs \/ exists a, c = Returns a /\ k a = Hangs.
Proof.
  destruct c as [a|e'|]; simpl; intros H.
  - right. exists a. split; [reflexivity|assumption].
  - discriminate.
  - left. reflexivity.
Qed.

Section DispatcherFurther.
Context {RT : Runtime}.

(** What the constructors of the input models raise. *)
Lemma keywords_raises model params e :
  keywords model params = Raises e -> exn_cls e = TypeError.
Proof. destruct params; simpl; intros H; inversion H; reflexivity. Qed.

Lemma validated_raises {A} model params (r : option A) e :
  validated model params r = Raises e -> exn_cls e = ValidationError.
Proof. destruct r; simpl; intros H; inversion H; reflexivity. Qed.

Lemma new_MathInput_raises params e :
  new_MathInput params = Raises e ->
  exn_cls e = TypeError \/ exn_cls e = ValidationError.
Proof.
  unfold new_MathInput. intros H.
  apply bind_raises in H as [H|(a & _ & H)].
  - left. eapply keywords_raises; eassumption.
  - right. eapply validated_raises; eassumption.
Qed.

Lemma new_UnitConversionInput_raises params e :
  new_UnitConversionInput params = Raises e ->
  exn_cls e = TypeError \/ exn_cls e = ValidationError.
Proof.
  unfold new_UnitConversionInput. intros H.
  apply bind_raises in H as [H|(a & _ & H)].
  - left. eapply keywords_raises; eassumption.
  - right. eapply validated_raises; eassumption.
Qed.

Lemma new_DateInput_raises params e :
  new_DateInput params = Raises e ->
  exn_cls e = TypeError \/ exn_cls e = ValidationError.
Proof.
  unfold new_DateInput. intros H.
  apply bind_raises in H as [H|(a & _ & H)].
  - left. eapply keywords_raises; eassumption.
  - right. eapply validated_raises; eassumption.
Qed.

Lemma new_TextAnalysisInput_raises params e :
  new_TextAnalysisInput params = Raises e ->
  exn_cls e = TypeError \/ exn_cls e = ValidationError.
Proof.
  unfold new_TextAnalysisInput. intros H.
  apply bind_raises in H as [H|(a & _ & H)].
  - left. eapply keywords_raises; eassumption.
  - right. eapply validated_raises; eassumption.
Qed.

(** What the tools raise: the class and the first letter of the message. *)
Lemma math_tool_raises input e :
  math_tool input = Raises e ->
  is_Exception (exn_cls e) = false
  \/ exists cause, e = mk_exn ValueError (py "Invalid expression: " ++ cause).
Proof.
  rewrite math_tool_unfold. destruct (eval (expression input)) as [v|e0|];
    try discriminate.
  destruct (is_Exception (exn_cls e0)) eqn:C; intros H; inversion H; subst.
  - right. eexists. reflexivity.
  - left. assumption.
Qed.

Lemma str_obj_raises v e :
  str_obj v = Raises e ->
  exists rest, e = mk_exn ValueError (py "Exceeds the limit (" ++ rest).
Proof.
  destruct v as [|[|]|z| | |]; simpl; try discriminate.
  unfold str_of_int. destruct (_ && _); [|discriminate].
  intros H. inversion H. eexists. reflexivity.
Qed.

Lemma unit_conversion_tool_raises (input : UnitConversionInput float) e :
  unit_conversion_tool input = Raises e ->
  e = mk_exn ValueError (py "Invalid unit specified")
  \/ exn_cls e = KeyError \/ exn_cls e = ZeroDivisionError.
Proof.
  unfold unit_conversion_tool. destruct (negb _ || negb _).
  - intros H. inversion H. auto.
  - intros H. apply bind_raises in H as [H|(f & _ & H)].
    { unfold dict_item in H. destruct (dict_get _ _); inversion H. auto. }
    apply bind_raises in H as [H|(t & _ & H)].
    { unfold dict_item in H. destruct (dict_get _ _); inversion H. auto. }
    apply bind_raises in H as [H|(r & _ & H)]; [|discriminate].
    simpl in H. destruct (float_is_zero t); inversion H. auto.
Qed.

Lemma timedelta_raises n e :
  timedelta n = Raises e -> exn_cls e = OverflowError.
Proof.
  unfold timedelta. destruct (Z.abs n <=? 999999999); [discriminate|].
  destruct (_ && _); intros H; inversion H; reflexivity.
Qed.

Lemma date_add_raises d n e :
  date_add d n = Raises e -> exn_cls e = OverflowError.
Proof.
  unfold date_add. destruct (_ && _); intros H; inversion H; reflexivity.
Qed.

Lemma date_tool_raises input e :
  date_tool input = Raises e ->
  exn_cls e = OverflowError
  \/ exists rest, e = mk_exn ValueError (py "base_date and " ++ rest)
  \/ e = mk_exn ValueError (py "Invalid date operation").
Proof.
  unfold date_tool.
  assert (K : forall base k (shift : date -> Z -> outcome date),
            (forall d n x, shift d n = Raises x -> exn_cls x = OverflowError) ->
            (delta <- timedelta k ;;
             new_date <- shift base delta ;;
             Returns (isoformat new_date)) = Raises e ->
            exn_cls e = OverflowError).
  { intros base k shift Hs H.
    apply bind_raises in H as [H|(x & _ & H)];
      [eapply timedelta_raises; eassumption|].
    apply bind_raises in H as [H|(y & _ & H)]; [|discriminate].
    eapply Hs; eassumption. }
  destruct (pystr_eqb (operation input) (py "get_current")); [discriminate|].
  destruct (pystr_eqb (operation input) (py "add_days")).
  { destruct (base_date input), (days input); intros H;
      try (right; eexists; left; inversion H; reflexivity).
    left. eapply (K _ _ date_add); [apply date_add_raises|eassumption]. }
  destruct (pystr_eqb (operation input) (py "subtract_days")).
  { destruct (base_date input), (days input); intros H;
      try (right; eexists; left; inversion H; reflexivity).
    left. eapply (K _ _ date_sub_delta); [|eassumption].
    intros d0 n0 x. unfold date_sub_delta. apply date_add_raises. }
  destruct (pystr_eqb (operation input) (py "diff_days")).
  { destruct (base_date input), (second_date input); intros H;
      try discriminate; right; eexists; left; inversion H; reflexivity. }
  intros H. inversion H. right. exists []. right. reflexivity.
Qed.

(** No registered tool raises what the dispatcher raises for an unknown
    name. *)
Lemma call_tool_body_registered name params :
  In name tools ->
  call_tool_body name params
  <> Raises (mk_exn ValueError (py "Unknown tool: " ++ name)).
Proof.
  intros Hin H. simpl in Hin.
  destruct Hin as [<-|[<-|[<-|[<-|[]]]]].
  - rewrite call_tool_body_math in H.
    apply bind_raises in H as [H|(input & _ & H)].
    { apply new_MathInput_raises in H as [H|H]; discriminate H. }
    apply bind_raises in H as [H|(v & _ & H)].
    + apply math_tool_raises in H as [H|(cause & H)]; discriminate H.
    + apply str_obj_raises in H as (rest & H). discriminate H.
  - unfold call_tool_body in H. simpl in H.
    apply bind_raises in H as [H|(input & _ & H)].
    { apply new_UnitConversionInput_raises in H as [H|H]; discriminate H. }
    apply bind_raises in H as [H|(v & _ & H)]; [|discriminate].
    apply unit_conversion_tool_raises in H as [H|[H|H]]; discriminate H.
  - unfold call_tool_body in H. simpl in H.
    apply bind_raises in H as [H|(input & _ & H)].
    { apply new_DateInput_raises in H as [H|H]; discriminate H. }
    apply date_tool_raises in H as [H|(rest & [H|H])]; discriminate H.
  - unfold call_tool_body in H. simpl in H.
    apply bind_raises in H as [H|(input & _ & H)]; [|discriminate].
    apply new_TextAnalysisInput_raises in H as [H|H]; discriminate H.
Qed.
End DispatcherFurther.

(** X12.  The names offered to the model in [tools] are exactly the names
    the dispatcher knows: the four of them are distinct, each is handled by
    a branch of [call_tool], whose body never raises "Unknown tool" for it,
    and every other name raises it. *)
Theorem tools_are_the_dispatched_names {RT : Runtime} (name : pystr) :
  NoDup tools
  /\ (In name tools <->
      forall params,
        call_tool_body name params
        <> Raises (mk_exn ValueError (py "Unknown tool: " ++ name))).
Proof.
  split.
  - unfold tools. repeat constructor; simpl; intuition discriminate.
  - split.
    + intros Hin params. apply call_tool_body_registered. assumption.
    + intros H. destruct (tool_name_cases name) as [->|[->|[->|[->|Hun]]]];
        try (simpl; auto 6; fail).
      elim (H JNull). apply call_tool_body_unknown. assumption.
Qed.

(** X13.  Only the [math] tool evaluates code, and only on arguments that
    validate: for any other tool name, and for [math] with arguments the
    input model refuses, the dispatcher's result is the same whatever
    [eval] would do. *)
Theorem eval_only_through_math {RT : Runtime}
    (f : pystr -> outcome pyobj) (tool_name : pystr) (params : json) :
  tool_name <> py "math"
  \/ (forall input, new_MathInput params <> Returns input) ->
  call_tool (RT := with_eval f RT) tool_name params
  = call_tool (RT := RT) tool_name params.
Proof.
  intros [Hname|Hbad].
  - destruct (tool_name_cases tool_name) as [->|[->|[->|[->|Hun]]]].
    + congruence.
    + reflexivity.
    + reflexivity.
    + reflexivity.
    + unfold call_tool.
      rewrite (call_tool_body_unknown (RT := RT)) by assumption.
      rewrite (call_tool_body_unknown (RT := with_eval f RT)) by assumption.
      reflexivity.
  - destruct (tool_name_cases tool_name) as [->|[->|[->|[->|Hun]]]].
    + unfold call_tool. rewrite !call_tool_body_math.
      change (new_MathInput (RT := with_eval f RT) params)
        with (new_MathInput (RT := RT) params).
      destruct (new_MathInput params) as [input|e|] eqn:E;
        [elim (Hbad input); reflexivity|reflexivity|reflexivity].
    + reflexivity.
    + reflexivity.
    + reflexivity.
    + unfold call_tool.
      rewrite (call_tool_body_unknown (RT := RT)) by assumption.
      rewrite (call_tool_body_unknown (RT := with_eval f RT)) by assumption.
      reflexivity.
Qed.

Lemma eval_only_through_math_witness :
  (py "date_tool" <> py "math"
   \/ forall input,
        new_MathInput (RT := reference) (JDict []) <> Returns input)
  /\ call_tool (RT := with_eval (fun _ => Hangs) reference) (py "date_tool")
       (JDict [(py "operation", JStr (py "get_current"))])
     = Returns (py "2023-01-01").
Proof.
  assert (H : py "date_tool" <> py "math"
              \/ forall input,
                   new_MathInput (RT := reference) (JDict []) <> Returns input)
    by (left; discriminate).
  split; [exact H|].
  exact (eval_only_through_math (RT := reference) (fun _ => Hangs)
           (py "date_tool")
           (JDict [(py "operation", JStr (py "get_current"))]) H).
Defined.

Lemma new_DateInput_fields {RT : Runtime} data input :
  new_DateInput (JDict data) = Returns input ->
  dict_get (py "operation") data = Some (JStr (operation input))
  /\ (dict_get (py "base_date") data = None -> base_date input = None)
  /\ (dict_get (py "days") data = None -> days input = None)
  /\ (dict_get (py "second_date") data = None -> second_date input = None).
Proof.
  unfold new_DateInput, required, with_default. cbn [keywords bind].
  destruct (dict_get (py "operation") data) as [vo|]; [|discriminate].
  destruct (field_enum DateOperation vo) as [o|] eqn:Eo; [|discriminate].
  destruct (match dict_get (py "base_date") data with
            | Some v => nullable field_date v | None => Some None end)
    as [b|] eqn:Eb; [|discriminate].
  destruct (match dict_get (py "days") data with
            | Some v => nullable field_int v | None => Some None end)
    as [n|] eqn:En; [|discriminate].
  destruct (match dict_get (py "second_date") data with
            | Some v => nullable field_date v | None => Some None end)
    as [s|] eqn:Es; [|discriminate].
  cbn [validated]. intros H. injection H as <-.
  cbn [operation base_date days second_date].
  split.
  { destruct vo; cbn [field_enum] in Eo; try discriminate Eo.
    destruct (member s0 DateOperation); [|discriminate Eo].
    injection Eo as ->. reflexivity. }
  split; [intros E; rewrite E in Eb; congruence|].
  split; [intros E; rewrite E in En; congruence|].
  intros E; rewrite E in Es; congruence.
Qed.

(** X14.  A field of [DateInput] the arguments leave out is [None], and the
    check of [date_tool] then comes back through the dispatcher as text:
    arguments that validate but lack [base_date] or [days] for [add_days]
    or [subtract_days], or [base_date] or [second_date] for [diff_days],
    give "Error: " and the tool's message naming the fields. *)
Theorem date_tool_absent_fields {RT : Runtime} (data : list (pystr * json))
    (input : DateInput) :
  new_DateInput (JDict data) = Returns input ->
  (dict_get (py "base_date") data = None -> base_date input = None)
  /\ (dict_get (py "days") data = None -> days input = None)
  /\ (dict_get (py "second_date") data = None -> second_date input = None)
  /\ (operation input = py "add_days" \/ operation input = py "subtract_days" ->
      dict_get (py "base_date") data = None
      \/ dict_get (py "days") data = None ->
      call_tool (py "date_tool") (JDict data)
      = Returns (py "Error: base_date and days are required for "
                 ++ operation input))
  /\ (operation input = py "diff_days" ->
      dict_get (py "base_date") data = None
      \/ dict_get (py "second_date") data = None ->
      call_tool (py "date_tool") (JDict data)
      = Returns (py "Error: base_date and second_date are required for diff_days")).
Proof.
  intros Hv. destruct (new_DateInput_fields data input Hv) as (_ & Hb & Hn & Hs).
  split; [assumption|]. split; [assumption|]. split; [assumption|].
  assert (C : call_tool (py "date_tool") (JDict data)
              = try_except (date_tool input)
                  (fun e => Returns (py "Error: " ++ exn_str e))).
  { unfold call_tool, call_tool_body. simpl. rewrite Hv. reflexivity. }
  rewrite C. destruct input as [op b n s].
  cbn [operation base_date days second_date] in *.
  split.
  - intros Hop Habs.
    assert (E : b = None \/ n = None) by (destruct Habs; auto).
    destruct Hop as [-> | ->].
    + rewrite date_tool_add_days.
      destruct E as [-> | ->]; [reflexivity|destruct b; reflexivity].
    + rewrite date_tool_subtract_days.
      destruct E as [-> | ->]; [reflexivity|destruct b; reflexivity].
  - intros -> Habs. rewrite date_tool_diff_days.
    assert (E : b = None \/ s = None) by (destruct Habs; auto).
    destruct E as [-> | ->]; [reflexivity|destruct b; reflexivity].
Qed.

Lemma date_tool_absent_fields_witness :
  new_DateInput (RT := reference)
    (JDict [(py "operation", JStr (py "add_days")); (py "days", JInt 5)])
  = Returns (mk_DateInput (py "add_days") None (Some 5) None)
  /\ call_tool (RT := reference) (py "date_tool")
       (JDict [(py "operation", JStr (py "add_days")); (py "days", JInt 5)])
     = Returns (py "Error: base_date and days are required for add_days").
Proof.
  assert (H : new_DateInput (RT := reference)
                (JDict [(py "operation", JStr (py "add_days"));
                        (py "days", JInt 5)])
              = Returns (mk_DateInput (py "add_days") None (Some 5) None))
    by reflexivity.
  split; [exact H|].
  exact (proj1 (proj2 (proj2 (proj2
           (date_tool_absent_fields (RT := reference) _ _ H))))
           (or_introl eq_refl) (or_introl eq_refl)).
Defined.

(** ** The conversation loop, further *)

Section LoopFurther.
Context {RT : Runtime}.

(** The dispatcher lets through only what [eval] raises outside
    [Exception], and waits only for [eval]. *)
Lemma call_tool_raises name params e :
  call_tool name params = Raises e ->
  name = py "math" /\ is_Exception (exn_cls e) = false
  /\ exists input, new_MathInput params = Returns input
                   /\ eval (expression input) = Raises e.
Proof.
  intros H. unfold call_tool in H.
  destruct (list_eq_dec N.eq_dec name (py "math")) as [->|Hne].
  - split; [reflexivity|].
    destruct (call_tool_body (py "math") params) as [s|e'|] eqn:B;
      cbn [try_except] in H; try discriminate.
    destruct (is_Exception (exn_cls e')) eqn:C; [discriminate|].
    injection H as ->. split; [assumption|].
    rewrite call_tool_body_math in B.
    apply bind_raises in B as [B|(input & Ei & B)].
    { apply new_MathInput_raises in B as [B|B]; rewrite B in C; discriminate. }
    exists input. split; [assumption|].
    apply bind_raises in B as [B|(v & _ & B)].
    + rewrite math_tool_unfold in B.
      destruct (eval (expression input)) as [v|e0|]; try discriminate.
      destruct (is_Exception (exn_cls e0)) eqn:C0.
      * injection B as <-. discriminate.
      * injection B as ->. reflexivity.
    + apply str_obj_raises in B as (rest & ->). discriminate.
  - pose proof (call_tool_body_safe name params Hne) as S.
    destruct (try_except_returns _ (fun e => py "Error: " ++ exn_str e) S)
      as (s & E).
    cbv beta in E. assert (X : Returns s = Raises e) by (rewrite <- E; exact H).
    discriminate X.
Qed.

Lemma call_tool_hangs name params :
  call_tool name params = Hangs ->
  name = py "math"
  /\ exists input, new_MathInput params = Returns input
                   /\ eval (expression input) = Hangs.
Proof.
  intros H. unfold call_tool in H.
  destruct (list_eq_dec N.eq_dec name (py "math")) as [->|Hne].
  - split; [reflexivity|].
    destruct (call_tool_body (py "math") params) as [s|e'|] eqn:B;
      cbn [try_except] in H; try discriminate.
    { destruct (is_Exception (exn_cls e')); discriminate. }
    rewrite call_tool_body_math in B.
    apply bind_hangs in B as [B|(input & Ei & B)].
    { pose proof (new_MathInput_safe params) as S. rewrite B in S.
      contradiction. }
    exists input. split; [assumption|].
    apply bind_hangs in B as [B|(v & _ & B)].
    + rewrite math_tool_unfold in B.
      destruct (eval (expression input)) as [v|e0|]; try discriminate;
        [|reflexivity].
      destruct (is_Exception (exn_cls e0)); discriminate.
    + pose proof (str_obj_safe v) as S. rewrite B in S. contradiction.
  - pose proof (call_tool_body_safe name params Hne) as S.
    destruct (try_except_returns _ (fun e => py "Error: " ++ exn_str e) S)
      as (s & E).
    cbv beta in E. assert (X : Returns s = Hangs) by (rewrite <- E; exact H).
    discriminate X.
Qed.

Lemma handle_tool_calls_raises calls : forall messages e,
  handle_tool_calls calls messages = Raises e ->
  exists call,
    In call calls
    /\ (json_loads (function_arguments call) = Raises e
        \/ exists params,
             json_loads (function_arguments call) = Returns params
             /\ call_tool (function_name call) params = Raises e).
Proof.
  induction calls as [|c calls IH]; intros messages e H; [discriminate|].
  cbn [handle_tool_calls] in H.
  apply bind_raises in H as [H|(params & Ej & H)].
  { exists c. split; [left; reflexivity|]. left. assumption. }
  apply bind_raises in H as [H|(r & Ec & H)].
  { exists c. split; [left; reflexivity|]. right. exists params.
    split; assumption. }
  apply IH in H as (call & Hin & Hc). exists call.
  split; [right; assumption|assumption].
Qed.

Lemma conversation_loop_closes fuel : forall messages final,
  conversation_loop fuel messages = Some (Returns final) ->
  exists tail, final = messages ++ tail /\ closes tail.
Proof.
  induction fuel as [|fuel IH]; intros messages final H; [discriminate|].
  cbn [conversation_loop] in H. unfold conversation_round in H.
  destruct (chat_complete messages) as [turn|e|]; try discriminate.
  destruct (requested turn) as [|c calls] eqn:Er.
  - injection H as <-. exists [AssistantMessage turn].
    split; [reflexivity|]. constructor. assumption.
  - destruct (handle_tool_calls (c :: calls) _) as [out|e|] eqn:Eh;
      try discriminate.
    apply handle_tool_calls_returns in Eh. destruct Eh as (results & Ha & ->).
    apply IH in H. destruct H as (tail & -> & Hc).
    exists (AssistantMessage turn :: tool_messages (c :: calls) results ++ tail).
    split.
    + rewrite <- !app_assoc. reflexivity.
    + rewrite <- Er. constructor.
      * rewrite Er. discriminate.
      * rewrite Er. apply answered_length. assumption.
      * assumption.
Qed.

Lemma conversation_loop_raises fuel : forall messages e,
  conversation_loop fuel messages = Some (Raises e) ->
  exists appended, conversation_round (messages ++ appended) = Abort e.
Proof.
  induction fuel as [|fuel IH]; intros messages e H; [discriminate|].
  cbn [conversation_loop] in H.
  pose proof (conversation_round_extends messages) as E.
  destruct (conversation_round messages) as [out|out|e'|] eqn:R;
    try discriminate.
  - destruct E as (a1 & ->). apply IH in H as (a2 & H).
    exists (a1 ++ a2). rewrite app_assoc. assumption.
  - injection H as ->. exists []. rewrite app_nil_r. assumption.
Qed.

Lemma conversation_round_abort messages e :
  conversation_round messages = Abort e ->
  chat_complete messages = Raises e
  \/ exists turn call,
       chat_complete messages = Returns turn
       /\ In call (requested turn)
       /\ (json_loads (function_arguments call) = Raises e
           \/ exists params,
                json_loads (function_arguments call) = Returns params
                /\ call_tool (function_name call) params = Raises e).
Proof.
  unfold conversation_round. intros H.
  destruct (chat_complete messages) as [turn|e'|]; try discriminate.
  - right. exists turn.
    destruct (requested turn) as [|c calls] eqn:Er; [discriminate|].
    destruct (handle_tool_calls (c :: calls) _) as [out|e'|] eqn:Eh;
      try discriminate.
    injection H as ->. apply handle_tool_calls_raises in Eh as (call & Hin & Hc).
    exists call. split; [reflexivity|]. split; assumption.
  - left. injection H as ->. reflexivity.
Qed.
Lemma handle_tool_calls_hangs calls : forall messages,
  handle_tool_calls calls messages = Hangs ->
  exists call,
    In call calls
    /\ (json_loads (function_arguments call) = Hangs
        \/ exists params,
             json_loads (function_arguments call) = Returns params
             /\ call_tool (function_name call) params = Hangs).
Proof.
  induction calls as [|c calls IH]; intros messages H; [discriminate|].
  cbn [handle_tool_calls] in H.
  apply bind_hangs in H as [H|(params & Ej & H)].
  { exists c. split; [left; reflexivity|]. left. assumption. }
  apply bind_hangs in H as [H|(r & Ec & H)].
  { exists c. split; [left; reflexivity|]. right. exists params.
    split; assumption. }
  apply IH in H as (call & Hin & Hc). exists call.
  split; [right; assumption|assumption].
Qed.

Lemma conversation_loop_hangs fuel : forall messages,
  conversation_loop fuel messages = Some Hangs ->
  exists appended, conversation_round (messages ++ appended) = Stuck.
Proof.
  induction fuel as [|fuel IH]; intros messages H; [discriminate|].
  cbn [conversation_loop] in H.
  pose proof (conversation_round_extends messages) as E.
  destruct (conversation_round messages) as [out|out|e'|] eqn:R;
    try discriminate.
  - destruct E as (a1 & ->). apply IH in H as (a2 & H).
    exists (a1 ++ a2). rewrite app_assoc. assumption.
  - exists []. rewrite app_nil_r. assumption.
Qed.

Lemma conversation_round_stuck messages :
  conversation_round messages = Stuck ->
  chat_complete messages = Hangs
  \/ exists turn call,
       chat_complete messages = Returns turn
       /\ In call (requested turn)
       /\ (json_loads (function_arguments call) = Hangs
           \/ exists params,
                json_loads (function_arguments call) = Returns params
                /\ call_tool (function_name call) params = Hangs).
Proof.
  unfold conversation_round. intros H.
  destruct (chat_complete messages) as [turn|e'|]; try discriminate.
  - right. exists turn.
    destruct (requested turn) as [|c calls] eqn:Er; [discriminate|].
    destruct (handle_tool_calls (c :: calls) _) as [out|e'|] eqn:Eh;
      try discriminate.
    apply handle_tool_calls_hangs in Eh as (call & Hin & Hc).
    exists call. split; [reflexivity|]. split; assumption.
  - left. reflexivity.
Qed.
End LoopFurther.

(** X15.  A conversation that ends leaves a transcript of one shape: the
    user's message, then rounds, each an assistant turn asking for tools
    followed by exactly one tool message per call, in the order of the
    calls and under their identifiers, then an assistant turn that asks
    for no tool. *)
Theorem finished_transcript_shape {RT : Runtime} (fuel : nat)
    (user_query : pystr) (final : list message) :
  handle_conversation fuel user_query = Some (Returns final) ->
  exists tail, final = UserMessage user_query :: tail /\ closes tail.
Proof.
  intros H. unfold handle_conversation in H.
  apply conversation_loop_closes in H as (tail & -> & Hc).
  exists tail. split; [reflexivity|assumption].
Qed.



Lemma finished_transcript_shape_witness :
  handle_conversation (RT := asking (math_payload (py "5 + 3 * 2"))) 5
    (py "What is 5 + 3 * 2?")
  = Some (Returns
      [ UserMessage (py "What is 5 + 3 * 2?");
        AssistantMessage (mk_assistant []
          (Some [mk_tool_call (py "call_0") (py "math")
                   (math_payload (py "5 + 3 * 2"))]));
        ToolMessage (py "call_0") (py "11");
        AssistantMessage (mk_assistant (py "Done.") (Some [])) ])
  /\ exists tail,
       [ UserMessage (py "What is 5 + 3 * 2?");
         AssistantMessage (mk_assistant []
           (Some [mk_tool_call (py "call_0") (py "math")
                    (math_payload (py "5 + 3 * 2"))]));
         ToolMessage (py "call_0") (py "11");
         AssistantMessage (mk_assistant (py "Done.") (Some [])) ]
       = UserMessage (py "What is 5 + 3 * 2?") :: tail
       /\ closes tail.
Proof.
  assert (H : handle_conversation (RT := asking (math_payload (py "5 + 3 * 2")))
                5 (py "What is 5 + 3 * 2?")
              = Some (Returns
                  [ UserMessage (py "What is 5 + 3 * 2?");
                    AssistantMessage (mk_assistant []
                      (Some [mk_tool_call (py "call_0") (py "math")
                               (math_payload (py "5 + 3 * 2"))]));
                    ToolMessage (py "call_0") (py "11");
                    AssistantMessage (mk_assistant (py "Done.") (Some [])) ]))
    by (vm_compute; reflexivity).
  split; [exact H|].
  exact (finished_transcript_shape
           (RT := asking (math_payload (py "5 + 3 * 2"))) 5 _ _ H).
Defined.



(** ** Unit conversion in binary64 *)

(** Rounding a non-negative significand gives a zero, a finite number or an
    infinity of the sign asked for. *)
Lemma shr_fexp_nonneg p e m x l :
  0 <= m -> 0 <= shr_m (fst (shr_fexp p e m x l)).
Proof.
  intros H. unfold shr_fexp, shr.
  assert (R : 0 <= shr_m (shr_record_of_loc m l)).
  { destruct l as [|[| |]]; simpl; assumption. }
  destruct (fexp p e (Zdigits2 m + x) - x); simpl; try assumption.
  apply iter_shr_1_nonneg. assumption.
Qed.

Lemma round_nearest_even_nonneg m l :
  0 <= m -> 0 <= round_nearest_even m l.
Proof.
  intros H. unfold round_nearest_even.
  destruct l as [|[| |]]; try lia. destruct (Z.even m); lia.
Qed.

Lemma binary_round_aux_kind p e s m x l :
  0 <= m ->
  let r := binary_round_aux p e s m x l in
  r = S754_zero s \/ r = S754_infinity s \/ exists m' e', r = S754_finite s m' e'.
Proof.
  intros H r. unfold r, binary_round_aux.
  pose proof (shr_fexp_nonneg p e m x l H) as H1.
  destruct (shr_fexp p e m x l) as [mrs' e'].
  cbn [fst] in H1.
  pose proof (shr_fexp_nonneg p e _ e' loc_Exact
                (round_nearest_even_nonneg _ (loc_of_shr_record mrs') H1)) as H2.
  destruct (shr_fexp p e _ e' loc_Exact) as [mrs'' e''].
  cbn [fst] in H2.
  destruct (shr_m mrs'') as [|q|q]; [auto| |lia].
  destruct (e'' <=? e - p); [right; right; eauto|auto].
Qed.

Lemma SFdiv_core_nonneg p e m1 e1 m2 e2 :
  0 < m1 -> 0 < m2 ->
  0 <= fst (fst (SFdiv_core_binary p e m1 e1 m2 e2)).
Proof.
  intros H1 H2. unfold SFdiv_core_binary. cbv zeta.
  set (s := e1 - e2 - _).
  set (m' := match s with 0 => m1 | Z.pos _ => Z.shiftl m1 s | Z.neg _ => 0 end).
  assert (Hm : 0 <= m').
  { unfold m'. destruct s; [lia| |lia]. apply Z.shiftl_nonneg. lia. }
  pose proof (Z.div_pos m' m2 Hm H2) as D. unfold Z.div in D.
  change IntDef.Z.div_eucl with Z.div_eucl.
  destruct (Z.div_eucl m' m2) as [q r]. exact D.
Qed.

(** The kinds of float, with the sign: what multiplying or dividing by a
    positive finite float keeps. *)
Lemma fmul_positive x m e :
  let r := fmul x (S754_finite false m e) in
  float_is_nan r = float_is_nan x
  /\ float_signbit r = float_signbit x
  /\ (float_is_finite x = false -> r = x)
  /\ (float_is_zero x = true -> r = x).
Proof.
  destruct x as [s|s| |s mx ex]; cbn -[binary_round_aux];
    rewrite ?xorb_false_r; try (repeat split; congruence).
  destruct (binary_round_aux_kind prec emax s (Z.pos (mx * m)) (ex + e)
              loc_Exact ltac:(lia)) as [E|[E|(m' & e' & E)]];
    rewrite E; repeat split; discriminate.
Qed.

Lemma fdiv_positive x m e :
  let r := fdiv_ieee x (S754_finite false m e) in
  float_is_nan r = float_is_nan x
  /\ float_signbit r = float_signbit x
  /\ (float_is_finite x = false -> r = x)
  /\ (float_is_zero x = true -> r = x).
Proof.
  destruct x as [s|s| |s mx ex]; cbn -[binary_round_aux SFdiv_core_binary];
    rewrite ?xorb_false_r; try (repeat split; congruence).
  pose proof (SFdiv_core_nonneg prec emax (Z.pos mx) ex (Z.pos m) e
                ltac:(lia) ltac:(lia)) as N.
  destruct (SFdiv_core_binary prec emax (Z.pos mx) ex (Z.pos m) e)
    as [[mz ez] lz].
  cbn [fst] in N.
  destruct (binary_round_aux_kind prec emax s mz ez lz N)
    as [E|[E|(m' & e' & E)]];
    rewrite E; repeat split; discriminate.
Qed.

Lemma binary64_factor_positive unit :
  In unit LengthUnit ->
  exists m e,
    dict_get unit (conversion_to_m (A := binary64)) = Some (S754_finite false m e).
Proof.
  intros H. simpl in H.
  repeat destruct H as [<-|H]; try contradiction;
    (eexists; eexists; vm_compute; reflexivity).
Qed.

(** X18.  In binary64, for every float and every pair of units of the
    enumeration, the conversion returns a float of the same sign, which is
    a number whenever the value given is one (NaN comes out of NaN only);
    a zero and an infinity are returned as they are. *)
Theorem unit_conversion_keeps_sign (x : float) (a b : pystr) :
  In a LengthUnit -> In b LengthUnit ->
  exists r,
    unit_conversion_tool (A := binary64) (mk_UnitConversionInput x a b)
    = Returns r
    /\ float_is_nan r = float_is_nan x
    /\ float_signbit r = float_signbit x
    /\ (float_is_zero x = true \/ float_is_infinite x = true -> r = x).
Proof.
  intros Ha Hb.
  destruct (binary64_factor_positive a Ha) as (ma & ea & Ea).
  destruct (binary64_factor_positive b Hb) as (mb & eb & Eb).
  assert (F : float_is_infinite x = true -> float_is_finite x = false)
    by (destruct x; simpl; congruence).
  exists (fdiv_ieee (fmul x (S754_finite false ma ea)) (S754_finite false mb eb)).
  split; [apply unit_conversion_tool_binary64_run; auto|].
  destruct (fmul_positive x ma ea) as (N1 & S1 & I1 & Z1).
  destruct (fdiv_positive (fmul x (S754_finite false ma ea)) mb eb)
    as (N2 & S2 & I2 & Z2).
  split; [congruence|]. split; [congruence|].
  intros [Hz|Hi].
  - rewrite Z2; rewrite Z1; auto.
  - rewrite I2; rewrite I1; auto.
Qed.

Lemma unit_conversion_keeps_sign_witness :
  In (py "km") LengthUnit /\ In (py "miles") LengthUnit
  /\ exists r,
       unit_conversion_tool (A := binary64)
         (mk_UnitConversionInput (float_of_int (-10)) (py "km") (py "miles"))
       = Returns r
       /\ float_is_nan r = false
       /\ float_signbit r = true
       /\ (float_is_zero (float_of_int (-10)) = true
           \/ float_is_infinite (float_of_int (-10)) = true ->
           r = float_of_int (-10)).
Proof.
  assert (Ha : In (py "km") LengthUnit) by (simpl; auto).
  assert (Hb : In (py "miles") LengthUnit) by (simpl; auto 6).
  split; [exact Ha|]. split; [exact Hb|].
  exact (unit_conversion_keeps_sign (float_of_int (-10)) (py "km") (py "miles")
           Ha Hb).
Defined.

(** ** Arithmetic through the math tool *)

Lemma float_binop_outcome op x y : arithmetic_outcome (float_binop op x y).
Proof.
  destruct op; simpl; try (split; [reflexivity|discriminate]).
  destruct (float_is_zero y); simpl; [auto|split; [reflexivity|discriminate]].
Qed.

Lemma int_to_float_outcome n (k : float -> outcome pyobj) :
  (forall x, arithmetic_outcome (k x)) ->
  arithmetic_outcome (x <- int_to_float n ;; k x).
Proof.
  intros H. unfold int_to_float.
  destruct (float_is_finite (float_of_int n)); simpl; [apply H|auto 6].
Qed.

Lemma binary_outcome op a b :
  arithmetic_outcome (Returns a) -> arithmetic_outcome (Returns b) ->
  exists o, binary op a b = Some o /\ arithmetic_outcome o.
Proof.
  intros [Ha Na] [Hb Nb].
  destruct a as [|ba|m|x| |]; try discriminate; [elim (Na ba); reflexivity| |];
    (destruct b as [|bb|n|y| |]; try discriminate;
     [elim (Nb bb); reflexivity| |]);
    cbn [binary]; eexists; (split; [reflexivity|]).
  - destruct op; simpl; try (split; [reflexivity|discriminate]).
    unfold int_true_divide. destruct (n =? 0); simpl; [auto|].
    destruct (float_is_finite _); simpl; [split; [reflexivity|discriminate]|auto].
  - apply int_to_float_outcome. intros; apply float_binop_outcome.
  - apply int_to_float_outcome. intros; apply float_binop_outcome.
  - apply float_binop_outcome.
Qed.

Lemma unary_outcome negative a :
  arithmetic_outcome (Returns a) ->
  exists o, unary negative a = Some o /\ arithmetic_outcome o.
Proof.
  intros [Ha Na].
  destruct a as [|ba|m|x| |]; try discriminate; [elim (Na ba); reflexivity| |];
    cbn [unary]; eexists; (split; [reflexivity|]);
    (split; [reflexivity|discriminate]).
Qed.

Lemma derives_outcome lv ts e :
  derives lv ts e ->
  exists o, eval_expr e = Some o /\ arithmetic_outcome o.
Proof.
  assert (U : forall negative e,
            (exists o, eval_expr e = Some o /\ arithmetic_outcome o) ->
            exists o,
              match eval_expr e with
              | Some (Returns a) => unary negative a
              | other => other
              end = Some o /\ arithmetic_outcome o).
  { intros negative e0 (o & -> & Ho). destruct o as [a|x|].
    - apply unary_outcome. assumption.
    - eexists. split; [reflexivity|assumption].
    - contradiction. }
  assert (B : forall op e1 e2,
            (exists o, eval_expr e1 = Some o /\ arithmetic_outcome o) ->
            (exists o, eval_expr e2 = Some o /\ arithmetic_outcome o) ->
            exists o, eval_expr (EBin op e1 e2) = Some o /\ arithmetic_outcome o).
  { intros op e1 e2 (o1 & E1 & H1) (o2 & E2 & H2). cbn [eval_expr].
    rewrite E1. destruct o1 as [a|x|].
    - rewrite E2. destruct o2 as [b|y|].
      + apply binary_outcome; assumption.
      + eexists. split; [reflexivity|assumption].
      + contradiction.
    - eexists. split; [reflexivity|assumption].
    - contradiction. }
  induction 1; try assumption; try (apply B; assumption).
  - eexists. split; [reflexivity|]. split; [reflexivity|discriminate].
  - cbn [eval_expr]. apply U. assumption.
  - cbn [eval_expr]. apply U. assumption.
Qed.



(** ** What the conversation prints *)

Section PrintingFacts.
Context {RT : Runtime}.

(** Leaving the prints out gives the loop of the transcript. *)
Lemma handle_tool_calls_printing_agrees calls : forall messages,
  snd (handle_tool_calls_printing calls messages)
  = handle_tool_calls calls messages.
Proof.
  induction calls as [|c calls IH]; intros messages; [reflexivity|].
  cbn [handle_tool_calls_printing handle_tool_calls].
  destruct (json_loads (function_arguments c)) as [params|e|]; try reflexivity.
  cbn [bind].
  destruct (call_tool (function_name c) params) as [r|e|]; try reflexivity.
  cbn [bind]. rewrite <- IH.
  destruct (handle_tool_calls_printing calls _). reflexivity.
Qed.

Lemma conversation_round_printing_agrees messages :
  snd (conversation_round_printing messages) = conversation_round messages.
Proof.
  unfold conversation_round_printing, conversation_round.
  destruct (chat_complete messages) as [turn|e|]; try reflexivity.
  destruct (requested turn) as [|c calls]; [reflexivity|].
  rewrite <- handle_tool_calls_printing_agrees.
  destruct (handle_tool_calls_printing (c :: calls) _) as [lines [out|e|]];
    reflexivity.
Qed.

Lemma conversation_loop_printing_agrees fuel : forall messages,
  snd (conversation_loop_printing fuel messages)
  = conversation_loop fuel messages.
Proof.
  induction fuel as [|fuel IH]; intros messages; [reflexivity|].
  cbn [conversation_loop_printing conversation_loop].
  rewrite <- conversation_round_printing_agrees.
  destruct (conversation_round_printing messages) as [lines [out|out|e|]];
    try reflexivity.
  cbn [snd]. rewrite <- IH.
  destruct (conversation_loop_printing fuel out). reflexivity.
Qed.

Lemma handle_conversation_printing_agrees fuel user_query :
  snd (handle_conversation_printing fuel user_query)
  = handle_conversation fuel user_query.
Proof.
  unfold handle_conversation_printing, handle_conversation.
  rewrite <- conversation_loop_printing_agrees.
  destruct (conversation_loop_printing fuel _). reflexivity.
Qed.

(** The lines of a [for] loop: two for each call that ran and, when a
    dispatch did not return, the line of its decision. *)
Lemma handle_tool_calls_printing_lines calls : forall messages lines ending,
  handle_tool_calls_printing calls messages = (lines, ending) ->
  exists runs,
    Forall ran runs
    /\ map (fun run => fst (fst run)) runs = firstn (List.length runs) calls
    /\ match ending with
       | Returns out =>
           lines = flat_map call_lines runs
           /\ out = messages ++ map tool_message_of runs
           /\ List.length runs = List.length calls
       | _ =>
           exists cut, lines = flat_map call_lines runs ++ cut
                       /\ forallb is_tool_line cut = true
                       /\ (List.length cut <= 1)%nat
       end.
Proof.
  induction calls as [|c calls IH]; intros messages lines ending H.
  - cbn [handle_tool_calls_printing] in H. injection H as <- <-.
    exists []. split; [constructor|]. split; [reflexivity|].
    cbn [flat_map map]. rewrite app_nil_r. repeat split; reflexivity.
  - cbn [handle_tool_calls_printing] in H.
    destruct (json_loads (function_arguments c)) as [params|e|] eqn:Ej.
    + destruct (call_tool (function_name c) params) as [r|e|] eqn:Ec.
      * destruct (handle_tool_calls_printing calls _) as [more ending'] eqn:Er.
        injection H as <- <-.
        destruct (IH _ _ _ Er) as (runs & Hran & Hcalls & Hend).
        exists ((c, params, r) :: runs).
        split; [constructor; [split; assumption|assumption]|].
        split; [cbn [map List.length firstn fst]; rewrite Hcalls; reflexivity|].
        destruct ending' as [out|e|].
        -- destruct Hend as (-> & -> & Hlen).
           split; [reflexivity|]. split.
           ++ rewrite <- app_assoc. reflexivity.
           ++ cbn [List.length]. rewrite Hlen. reflexivity.
        -- destruct Hend as (cut & -> & Hcut). exists cut.
           split; [reflexivity|assumption].
        -- destruct Hend as (cut & -> & Hcut). exists cut.
           split; [reflexivity|assumption].
      * injection H as <- <-. exists []. split; [constructor|].
        split; [reflexivity|]. eexists. split; [reflexivity|].
        split; [reflexivity|simpl; lia].
      * injection H as <- <-. exists []. split; [constructor|].
        split; [reflexivity|]. eexists. split; [reflexivity|].
        split; [reflexivity|simpl; lia].
    + injection H as <- <-. exists []. split; [constructor|].
      split; [reflexivity|]. exists []. split; [reflexivity|].
      split; [reflexivity|simpl; lia].
    + injection H as <- <-. exists []. split; [constructor|].
      split; [reflexivity|]. exists []. split; [reflexivity|].
      split; [reflexivity|simpl; lia].
Qed.

Lemma flat_map_call_lines_tool runs :
  forallb is_tool_line (flat_map call_lines runs) = true.
Proof.
  induction runs as [|[[c p] r] runs IH]; [reflexivity|]. simpl. assumption.
Qed.

Lemma filter_tool_message_of runs :
  filter is_tool_message (map tool_message_of runs) = map tool_message_of runs.
Proof.
  induction runs as [|[[c p] r] runs IH]; [reflexivity|].
  simpl. rewrite IH. reflexivity.
Qed.

(** The lines of the loop, from any transcript on. *)
Lemma conversation_loop_printing_lines fuel : forall messages lines ending,
  conversation_loop_printing fuel messages = (lines, ending) ->
  match ending with
  | Some (Returns final) =>
      exists runs turn before,
        lines = flat_map call_lines runs ++ [AgentResponseLine (content turn)]
        /\ final = before ++ [AssistantMessage turn]
        /\ requested turn = []
        /\ filter is_tool_message final
           = filter is_tool_message messages ++ map tool_message_of runs
        /\ Forall ran runs
  | _ => forallb is_tool_line lines = true
  end.
Proof.
  induction fuel as [|fuel IH]; intros messages lines ending H.
  - cbn [conversation_loop_printing] in H. injection H as <- <-. reflexivity.
  - cbn [conversation_loop_printing] in H.
    unfold conversation_round_printing in H.
    destruct (chat_complete messages) as [turn|e|].
    + destruct (requested turn) as [|c calls] eqn:Er.
      * injection H as <- <-. exists [], turn, messages.
        split; [reflexivity|]. split; [reflexivity|]. split; [assumption|].
        split; [|constructor].
        rewrite filter_app. cbn [filter is_tool_message map].
        reflexivity.
      * destruct (handle_tool_calls_printing (c :: calls) _)
          as [first [out|e|]] eqn:Eh;
          destruct (handle_tool_calls_printing_lines _ _ _ _ Eh)
            as (runs & Hran & _ & Hend).
        -- destruct Hend as (-> & -> & _).
           destruct (conversation_loop_printing fuel _) as [more ending']
             eqn:El.
           injection H as <- <-. specialize (IH _ _ _ El).
           destruct ending' as [[final|e|]|].
           ++ destruct IH as (runs' & last & before & -> & -> & Hreq & Hf & Hr).
              exists (runs ++ runs'), last, before.
              split; [rewrite flat_map_app, <- app_assoc; reflexivity|].
              split; [reflexivity|]. split; [assumption|].
              split; [|apply Forall_app; split; assumption].
              rewrite Hf, !filter_app, filter_tool_message_of, map_app.
              cbn [filter is_tool_message]. rewrite app_nil_r, <- app_assoc.
              reflexivity.
           ++ rewrite forallb_app, flat_map_call_lines_tool, IH. reflexivity.
           ++ rewrite forallb_app, flat_map_call_lines_tool, IH. reflexivity.
           ++ rewrite forallb_app, flat_map_call_lines_tool, IH. reflexivity.
        -- injection H as <- <-. destruct Hend as (cut & -> & Hcut & _).
           rewrite forallb_app, flat_map_call_lines_tool, Hcut. reflexivity.
        -- injection H as <- <-. destruct Hend as (cut & -> & Hcut & _).
           rewrite forallb_app, flat_map_call_lines_tool, Hcut. reflexivity.
    + injection H as <- <-. reflexivity.
    + injection H as <- <-. reflexivity.
Qed.
End PrintingFacts.

(** X21.  What a conversation that ends has printed: the user's query
    first; then, for each tool call that was made, in order, the line of
    the decision (the tool's name and the decoded arguments) followed by
    the line of the result, these results being the contents of the tool
    messages of the transcript, in order; and last, once, the content of
    the assistant turn that closes the transcript. *)
Theorem printed_when_answered {RT : Runtime} (fuel : nat) (user_query : pystr)
    (lines : list printed_line) (final : list message) :
  handle_conversation_printing fuel user_query = (lines, Some (Returns final)) ->
  handle_conversation fuel user_query = Some (Returns final)
  /\ exists runs turn before,
       lines = UserQueryLine user_query
               :: flat_map call_lines runs
               ++ [AgentResponseLine (content turn)]
       /\ final = before ++ [AssistantMessage turn]
       /\ requested turn = []
       /\ filter is_tool_message final = map tool_message_of runs
       /\ Forall ran runs
       /\ forall shown,
            map (line_text shown) lines
            = (py "User Query: " ++ user_query)
              :: map (line_text shown) (flat_map call_lines runs)
              ++ [py "Agent Response: " ++ content turn].
Proof.
  intros H. split.
  { rewrite <- handle_conversation_printing_agrees, H. reflexivity. }
  unfold handle_conversation_printing in H.
  destruct (conversation_loop_printing fuel _) as [rest ending] eqn:El.
  injection H as <- ->.
  apply conversation_loop_printing_lines in El.
  destruct El as (runs & turn & before & -> & -> & Hreq & Hf & Hr).
  exists runs, turn, before.
  split; [reflexivity|]. split; [reflexivity|]. split; [assumption|].
  split; [assumption|]. split; [assumption|].
  intros shown. cbn [map line_text]. rewrite map_app. reflexivity.
Qed.

(** X22.  The user's query is printed first whatever happens next, and when
    the conversation does not end with an answer (an exception leaves it,
    it never comes back, or it is still going on) no "Agent Response" line
    is printed: the lines after the first are those of tool decisions and
    tool results only. *)
Theorem printed_when_not_answered {RT : Runtime} (fuel : nat)
    (user_query : pystr) (lines : list printed_line)
    (ending : option (outcome (list message))) :
  handle_conversation_printing fuel user_query = (lines, ending) ->
  (forall final, ending <> Some (Returns final)) ->
  handle_conversation fuel user_query = ending
  /\ exists rest,
       lines = UserQueryLine user_query :: rest
       /\ forallb is_tool_line rest = true
       /\ forall content, ~ In (AgentResponseLine content) lines.
Proof.
  intros H Hnot. split.
  { rewrite <- handle_conversation_printing_agrees, H. reflexivity. }
  unfold handle_conversation_printing in H.
  destruct (conversation_loop_printing fuel _) as [rest ending'] eqn:El.
  injection H as <- ->.
  apply conversation_loop_printing_lines in El.
  assert (T : forallb is_tool_line rest = true).
  { destruct ending as [[final|e|]|]; try assumption.
    elim (Hnot final). reflexivity. }
  exists rest. split; [reflexivity|]. split; [assumption|].
  intros content [E|E]; [discriminate|].
  rewrite forallb_forall in T. apply T in E. discriminate.
Qed.

Lemma printed_when_answered_witness :
  handle_conversation_printing (RT := asking (math_payload (py "5 + 3 * 2"))) 5
    (py "What is 5 + 3 * 2?")
  = ([ UserQueryLine (py "What is 5 + 3 * 2?");
       ToolDecisionLine (py "math")
         (JDict [(py "expression", JStr (py "5 + 3 * 2"))]);
       ToolResultLine (py "11");
       AgentResponseLine (py "Done.") ],
     Some (Returns
       [ UserMessage (py "What is 5 + 3 * 2?");
         AssistantMessage (mk_assistant []
           (Some [mk_tool_call (py "call_0") (py "math")
                    (math_payload (py "5 + 3 * 2"))]));
         ToolMessage (py "call_0") (py "11");
         AssistantMessage (mk_assistant (py "Done.") (Some [])) ]))
  /\ handle_conversation (RT := asking (math_payload (py "5 + 3 * 2"))) 5
       (py "What is 5 + 3 * 2?")
     = Some (Returns
         [ UserMessage (py "What is 5 + 3 * 2?");
           AssistantMessage (mk_assistant []
             (Some [mk_tool_call (py "call_0") (py "math")
                      (math_payload (py "5 + 3 * 2"))]));
           ToolMessage (py "call_0") (py "11");
           AssistantMessage (mk_assistant (py "Done.") (Some [])) ]).
Proof.
  assert (H : handle_conversation_printing
                (RT := asking (math_payload (py "5 + 3 * 2"))) 5
                (py "What is 5 + 3 * 2?")
              = ([ UserQueryLine (py "What is 5 + 3 * 2?");
                   ToolDecisionLine (py "math")
                     (JDict [(py "expression", JStr (py "5 + 3 * 2"))]);
                   ToolResultLine (py "11");
                   AgentResponseLine (py "Done.") ],
                 Some (Returns
                   [ UserMessage (py "What is 5 + 3 * 2?");
                     AssistantMessage (mk_assistant []
                       (Some [mk_tool_call (py "call_0") (py "math")
                                (math_payload (py "5 + 3 * 2"))]));
                     ToolMessage (py "call_0") (py "11");
                     AssistantMessage (mk_assistant (py "Done.") (Some [])) ])))
    by (vm_compute; reflexivity).
  split; [exact H|].
  exact (proj1 (printed_when_answered
                  (RT := asking (math_payload (py "5 + 3 * 2"))) 5 _ _ _ H)).
Defined.

Lemma printed_when_not_answered_witness :
  handle_conversation_printing (RT := asking (py "{")) 1 (py "2 + 2?")
  = ([UserQueryLine (py "2 + 2?")], Some (Raises unfinished_object))
  /\ (forall final : list message,
        Some (Raises unfinished_object) <> Some (Returns final))
  /\ handle_conversation (RT := asking (py "{")) 1 (py "2 + 2?")
     = Some (Raises unfinished_object).
Proof.
  assert (H : handle_conversation_printing (RT := asking (py "{")) 1
                (py "2 + 2?")
              = ([UserQueryLine (py "2 + 2?")],
                 Some (Raises unfinished_object)))
    by (vm_compute; reflexivity).
  assert (N : forall final : list message,
            Some (Raises unfinished_object) <> Some (Returns final))
    by discriminate.
  split; [exact H|]. split; [exact N|].
  exact (proj1 (printed_when_not_answered (RT := asking (py "{")) 1 _ _ _ H N)).
Defined.
